(** * Sudoku-Solver: a shallow embedding of [sudoku_solver.py]

    The Python class [Board] keeps two attributes: [board], a list of rows
    (each row a list of ints), and [stack], a list of [TempBoard] frames.
    Methods that only read [self.board] are embedded as functions of the
    grid; methods that touch the stack are functions of the whole object.
    Python exceptions are made explicit with the [result] type. *)

From Stdlib Require Import ZArith List Bool Lia Sorted Permutation Ascii.
From Stdlib Require String DecimalString.
Import ListNotations.
Open Scope Z_scope.

(** ** Exceptions and the error monad *)

Inductive exn : Type :=
| IndexError      (* list index out of range *)
| ValueError      (* list.remove(x): x not in list *)
| AttributeError. (* attribute access on the int returned by peek()/pop() *)

Inductive result (A : Type) : Type :=
| Ok (a : A)
| Raise (e : exn).
Arguments Ok {A} a.
Arguments Raise {A} e.

Definition bind {A B : Type} (m : result A) (k : A -> result B) : result B :=
  match m with
  | Ok a => k a
  | Raise e => Raise e
  end.

Notation "x <- m ;; k" := (bind m (fun x => k))
  (at level 61, m at next level, right associativity).
Notation "' p <- m ;; k" := (bind m (fun x => let p := x in k))
  (at level 61, p pattern, m at next level, right associativity).

(** ** Python list primitives *)

Definition len {A : Type} (l : list A) : Z := Z.of_nat (length l).

(** [l[i]]: a negative index counts from the end, anything else outside the
    list raises IndexError. *)
Definition py_getitem {A : Type} (l : list A) (i : Z) : result A :=
  let k := if i <? 0 then i + len l else i in
  if (0 <=? k) && (k <? len l) then
    match nth_error l (Z.to_nat k) with
    | Some x => Ok x
    | None => Raise IndexError
    end
  else Raise IndexError.

Fixpoint set_nth {A : Type} (n : nat) (v : A) (l : list A) : list A :=
  match l, n with
  | [], _ => []
  | _ :: t, O => v :: t
  | h :: t, S n' => h :: set_nth n' v t
  end.

(** [l[i] = v] *)
Definition py_setitem {A : Type} (l : list A) (i : Z) (v : A) : result (list A) :=
  let k := if i <? 0 then i + len l else i in
  if (0 <=? k) && (k <? len l) then Ok (set_nth (Z.to_nat k) v l)
  else Raise IndexError.

(** [l[a:b]] for bounds [0 <= a <= b]; slices never raise. *)
Definition py_slice {A : Type} (l : list A) (a b : Z) : list A :=
  firstn (Z.to_nat (b - a)) (skipn (Z.to_nat a) l).

(** [x in l] *)
Definition py_in (x : Z) (l : list Z) : bool := existsb (Z.eqb x) l.

(** [l.count(x)] *)
Fixpoint py_count (x : Z) (l : list Z) : Z :=
  match l with
  | [] => 0
  | y :: t => (if y =? x then 1 else 0) + py_count x t
  end.

(** [l.remove(x)]: drops the first occurrence. *)
Fixpoint py_remove (x : Z) (l : list Z) : result (list Z) :=
  match l with
  | [] => Raise ValueError
  | y :: t => if y =? x then Ok t else (t' <- py_remove x t ;; Ok (y :: t'))
  end.

(** [del l[0]] *)
Definition py_del0 {A : Type} (l : list A) : result (list A) :=
  match l with
  | [] => Raise IndexError
  | _ :: t => Ok t
  end.

(** [range(a, a + n)] *)
Fixpoint range_from (a : Z) (n : nat) : list Z :=
  match n with
  | O => []
  | S n' => a :: range_from (a + 1) n'
  end.

Definition range (a b : Z) : list Z := range_from a (Z.to_nat (b - a)).

(** A list comprehension whose element expression may raise. *)
Fixpoint comprehension {A B : Type} (f : A -> result B) (l : list A) : result (list B) :=
  match l with
  | [] => Ok []
  | x :: t => y <- f x ;; ys <- comprehension f t ;; Ok (y :: ys)
  end.

(** ** The board *)

Definition grid : Type := list (list Z).

(** [Board.get] *)
Definition get (b : grid) (i j : Z) : result Z :=
  row <- py_getitem b i ;;
  py_getitem row j.

(** [Board.insert]: [self.board[i][j] = value]. The rows are distinct list
    objects, so updating row [i] in place is replacing row [i]. *)
Definition insert (b : grid) (i j value : Z) : result grid :=
  row <- py_getitem b i ;;
  row' <- py_setitem row j value ;;
  py_setitem b i row'.

(** [Board.get_row] *)
Definition get_row (b : grid) (i : Z) : result (list Z) := py_getitem b i.

(** [Board.get_column] *)
Definition get_column (b : grid) (j : Z) : result (list Z) :=
  comprehension (fun x_i => py_getitem x_i j) b.

(** [Board.get_cell]; [//] and [%] are floor division and modulus, as
    [Z.div] and [Z.modulo] are for a positive divisor. *)
Fixpoint get_cell_loop (b : grid) (meta_row_index meta_col_index : Z)
         (ks : list Z) (cell : list Z) : result (list Z) :=
  match ks with
  | [] => Ok cell
  | i :: ks' =>
      row <- get_row b (meta_row_index + i) ;;
      get_cell_loop b meta_row_index meta_col_index ks'
        (cell ++ py_slice row meta_col_index (meta_col_index + 3))
  end.

Definition get_cell (b : grid) (cell_index : Z) : result (list Z) :=
  let meta_row_index := (cell_index / 3) * 3 in
  let meta_col_index := (cell_index mod 3) * 3 in
  get_cell_loop b meta_row_index meta_col_index (range 0 3) [].

(** ** Board validation *)

(** A dict as an association list in insertion order; assigning to a key
    that is present keeps its position. *)
Fixpoint dict_set (d : list (Z * Z)) (k v : Z) : list (Z * Z) :=
  match d with
  | [] => [(k, v)]
  | (k', v') :: d' => if k' =? k then (k', v) :: d' else (k', v') :: dict_set d' k v
  end.

Definition element_counts (test_list : list Z) : list (Z * Z) :=
  fold_left (fun d i => dict_set d i (py_count i test_list)) test_list [].

Fixpoint is_list_valid_loop (items : list (Z * Z)) : bool :=
  match items with
  | [] => true
  | (key, count) :: items' =>
      if negb (key =? 0) && (count >? 1) then false
      else is_list_valid_loop items'
  end.

(** [Board.is_list_valid] *)
Definition is_list_valid (test_list : list Z) : bool :=
  is_list_valid_loop (element_counts test_list).

Definition is_row_valid (b : grid) (row_index : Z) : result bool :=
  row <- get_row b row_index ;; Ok (is_list_valid row).

Definition is_column_valid (b : grid) (column_index : Z) : result bool :=
  column <- get_column b column_index ;; Ok (is_list_valid column).

Definition is_cell_valid (b : grid) (cell_index : Z) : result bool :=
  cell <- get_cell b cell_index ;; Ok (is_list_valid cell).

(** [Board.is_board_valid]; [and] short-circuits. *)
Fixpoint is_board_valid_loop (b : grid) (ks : list Z) : result bool :=
  match ks with
  | [] => Ok true
  | i :: ks' =>
      r <- is_row_valid b i ;;
      ok <- (if r then
               c <- is_column_valid b i ;;
               if c then is_cell_valid b i else Ok false
             else Ok false) ;;
      if negb ok then Ok false else is_board_valid_loop b ks'
  end.

Definition is_board_valid (b : grid) : result bool :=
  is_board_valid_loop b (range 0 9).

(** The two nested loops of [is_solved]: [Ok false] stands for the early
    [return False], [Ok true] for falling out of the loop. *)
Fixpoint all_filled_row (b : grid) (i : Z) (js : list Z) : result bool :=
  match js with
  | [] => Ok true
  | j :: js' =>
      v <- get b i j ;;
      if v =? 0 then Ok false else all_filled_row b i js'
  end.

Fixpoint all_filled (b : grid) (ks : list Z) : result bool :=
  match ks with
  | [] => Ok true
  | i :: ks' =>
      r <- all_filled_row b i (range 0 9) ;;
      if r then all_filled b ks' else Ok false
  end.

(** [Board.is_solved] *)
Definition is_solved (b : grid) : result bool :=
  filled <- all_filled b (range 0 9) ;;
  if filled then is_board_valid b else Ok false.

(** ** Deduction-based decisions *)

(** [Board.get_meta_cell_index] *)
Definition get_meta_cell_index (i j : Z) : Z :=
  let meta_row_index := i / 3 in
  let meta_column_index := j / 3 in
  (meta_row_index * 3) + meta_column_index.

Fixpoint remove_loop (row column cell : list Z) (ks : list Z) (results : list Z)
  : result (list Z) :=
  match ks with
  | [] => Ok results
  | i :: ks' =>
      if py_in i row || py_in i column || py_in i cell then
        results' <- py_remove i results ;;
        remove_loop row column cell ks' results'
      else remove_loop row column cell ks' results
  end.

(** [Board.get_valid_entries] *)
Definition get_valid_entries (b : grid) (i j : Z) : result (list Z) :=
  v <- get b i j ;;
  if negb (v =? 0) then Ok [v]
  else
    row <- get_row b i ;;
    column <- get_column b j ;;
    cell <- get_cell b (get_meta_cell_index i j) ;;
    remove_loop row column cell (range 1 10) (range 1 10).

(** [Board.make_deductive_decision]: the return value and the board after
    the call. *)
Definition make_deductive_decision (b : grid) (i j : Z) : result (Z * grid) :=
  v <- get b i j ;;
  if negb (v =? 0) then Ok (-2, b)
  else
    potential_entries <- get_valid_entries b i j ;;
    if len potential_entries >? 1 then Ok (0, b)
    else if len potential_entries =? 0 then Ok (-1, b)
    else
      e <- py_getitem potential_entries 0 ;;
      b' <- insert b i j e ;;
      Ok (e, b').

(** Control flow of a loop body that may [return]. *)
Inductive ctl (A : Type) : Type :=
| Next (num_entries : Z)
| Return (v : A).
Arguments Next {A} num_entries.
Arguments Return {A} v.

Fixpoint pass_row (i : Z) (js : list Z) (num_entries : Z) (b : grid)
  : result (ctl Z * grid) :=
  match js with
  | [] => Ok (Next num_entries, b)
  | j :: js' =>
      '(decision, b1) <- make_deductive_decision b i j ;;
      if decision >? 0 then pass_row i js' (num_entries + 1) b1
      else if decision =? -1 then Ok (Return (-1), b1)
      else pass_row i js' num_entries b1
  end.

Fixpoint pass_rows (ks : list Z) (num_entries : Z) (b : grid)
  : result (ctl Z * grid) :=
  match ks with
  | [] => Ok (Next num_entries, b)
  | i :: ks' =>
      '(c, b1) <- pass_row i (range 0 9) num_entries b ;;
      match c with
      | Return v => Ok (Return v, b1)
      | Next n => pass_rows ks' n b1
      end
  end.

(** [Board.make_deductive_pass] *)
Definition make_deductive_pass (b : grid) : result (Z * grid) :=
  '(c, b1) <- pass_rows (range 0 9) 0 b ;;
  match c with
  | Return v => Ok (v, b1)
  | Next num_entries => Ok (num_entries, b1)
  end.

(** ** Guess-based decisions *)

(** [Board.TempBoard]; its [board] attribute is [tb_board] here, the name
    [board] being taken by the attribute of [Board] below. *)
Record TempBoard : Type := mkTempBoard {
  tb_board : grid;
  i_guess : Z;
  j_guess : Z;
  valid_entries : list Z
}.

(** The object: [self.board] and [self.stack]. The Python stack grows at
    the end of its list; here the top of the stack is the head. *)
Record Board : Type := mkBoard {
  board : grid;
  stack : list TempBoard
}.

(** [Board.__init__] on lines already converted to ints. *)
Definition new_board (input : grid) : Board := mkBoard input [].

Definition set_board (s : Board) (b : grid) : Board := mkBoard b (stack s).

Definition set_valid_entries (f : TempBoard) (ve : list Z) : TempBoard :=
  mkTempBoard (tb_board f) (i_guess f) (j_guess f) ve.

(** [[[0 for j in range(0, 9)] for i in range(0, 9)]] *)
Definition zero_board : grid :=
  map (fun _ => map (fun _ => 0) (range 0 9)) (range 0 9).

Fixpoint copy_row (other_board new_board : grid) (i : Z) (js : list Z) : result grid :=
  match js with
  | [] => Ok new_board
  | j :: js' =>
      v <- get other_board i j ;;
      new_board' <- insert new_board i j v ;;
      copy_row other_board new_board' i js'
  end.

Fixpoint copy_rows (other_board new_board : grid) (ks : list Z) : result grid :=
  match ks with
  | [] => Ok new_board
  | i :: ks' =>
      new_board' <- copy_row other_board new_board i (range 0 9) ;;
      copy_rows other_board new_board' ks'
  end.

(** [Board.copy_board] *)
Definition copy_board (other_board : grid) : result grid :=
  copy_rows other_board zero_board (range 0 9).

(** [Board.duplicate_board] *)
Definition duplicate_board (b : grid) : result grid :=
  copy_rows b zero_board (range 0 9).

Fixpoint equal_row (b other_board : grid) (i : Z) (js : list Z) : result bool :=
  match js with
  | [] => Ok true
  | j :: js' =>
      x <- get b i j ;;
      y <- get other_board i j ;;
      if negb (x =? y) then Ok false else equal_row b other_board i js'
  end.

Fixpoint equal_rows (b other_board : grid) (ks : list Z) : result bool :=
  match ks with
  | [] => Ok true
  | i :: ks' =>
      r <- equal_row b other_board i (range 0 9) ;;
      if r then equal_rows b other_board ks' else Ok false
  end.

(** [Board.is_equal_to_board] *)
Definition is_equal_to_board (b other_board : grid) : result bool :=
  equal_rows b other_board (range 0 9).

(** [Board.push_state_to_stack] *)
Definition push_state_to_stack (s : Board) (i j : Z) : result (Z * Board) :=
  ve <- get_valid_entries (board s) i j ;;
  current_board <- duplicate_board (board s) ;;
  let s' := mkBoard (board s) (mkTempBoard current_board i j ve :: stack s) in
  if len ve =? 0 then Ok (-1, s') else Ok (1, s').

(** What [peek] and [pop] return: the int [-1] or a frame. *)
Inductive peeked : Type :=
| NegOne
| Frame (f : TempBoard).

(** [Board.peek] *)
Definition peek (s : Board) : peeked :=
  if len (stack s) =? 0 then NegOne
  else match stack s with
       | [] => NegOne
       | f :: _ => Frame f
       end.

(** [Board.pop] *)
Definition pop (s : Board) : peeked * Board :=
  if len (stack s) =? 0 then (NegOne, s)
  else match stack s with
       | [] => (NegOne, s)
       | f :: below => (Frame f, mkBoard (board s) below)
       end.

(** Attribute access on the value of [peek()]: an int has none. *)
Definition attr {A : Type} (field : TempBoard -> A) (p : peeked) : result A :=
  match p with
  | NegOne => Raise AttributeError
  | Frame f => Ok (field f)
  end.

(** [del self.peek().valid_entries[0]]: mutates the frame on top. *)
Definition del_first_entry (s : Board) : result Board :=
  ve <- attr valid_entries (peek s) ;;
  ve' <- py_del0 ve ;;
  match stack s with
  | [] => Raise AttributeError
  | f :: below => Ok (mkBoard (board s) (set_valid_entries f ve' :: below))
  end.

(** The first statement of [make_guess]: the state is pushed unless the
    board is the snapshot on top of the stack. *)
Definition push_if_new (s : Board) (i j : Z) : result Board :=
  do_push <- (if len (stack s) =? 0 then Ok true
              else
                other <- attr tb_board (peek s) ;;
                eq <- is_equal_to_board (board s) other ;;
                Ok (negb eq)) ;;
  if do_push : bool then
    '(_, s') <- push_state_to_stack s i j ;; Ok s'
  else Ok s.

(** [Board.make_guess]; the value returned is [-1] or [None]. *)
Definition make_guess (s : Board) (i j : Z) : result (option Z * Board) :=
  s1 <- push_if_new s i j ;;
  ve <- attr valid_entries (peek s1) ;;
  if len ve =? 0 then Ok (Some (-1), s1)
  else
    guess <- py_getitem ve 0 ;;
    b' <- insert (board s1) i j guess ;;
    Ok (None, set_board s1 b').

(** The [while] loop of [roll_back]. Each round pops one frame, so the loop
    is written by recursion on the frames below the top: [top] is
    [self.peek()] at the loop test and [below] is the rest of the stack. *)
Fixpoint roll_back_while (b : grid) (top : TempBoard) (below : list TempBoard)
  : result Board :=
  if len (valid_entries top) =? 0 then
    (* self.pop() *)
    let '(_, s) := pop (mkBoard b (top :: below)) in
    (* del self.peek().valid_entries[0] *)
    s1 <- del_first_entry s ;;
    (* self.board = self.copy_board(self.peek().board) *)
    other <- attr tb_board (peek s1) ;;
    b' <- copy_board other ;;
    match below with
    | [] => Raise AttributeError
    | f :: below' =>
        match stack s1 with
        | [] => Raise AttributeError
        | top' :: _ => roll_back_while b' top' below'
        end
    end
  else Ok (mkBoard b (top :: below)).

(** [Board.roll_back] *)
Definition roll_back (s : Board) : result Board :=
  s1 <- del_first_entry s ;;
  s2 <- match stack s1 with
        | [] => Raise AttributeError
        | top :: below => roll_back_while (board s1) top below
        end ;;
  other <- attr tb_board (peek s2) ;;
  b' <- copy_board other ;;
  Ok (set_board s2 b').

(** ** Solver *)

Fixpoint find_open_row (b : grid) (i : Z) (js : list Z) : result (option (Z * Z)) :=
  match js with
  | [] => Ok None
  | j :: js' =>
      v <- get b i j ;;
      if v =? 0 then Ok (Some (i, j)) else find_open_row b i js'
  end.

Fixpoint find_open_rows (b : grid) (ks : list Z) : result (option (Z * Z)) :=
  match ks with
  | [] => Ok None
  | i :: ks' =>
      r <- find_open_row b i (range 0 9) ;;
      match r with
      | Some p => Ok (Some p)
      | None => find_open_rows b ks'
      end
  end.

(** [Board.find_open_spot] *)
Definition find_open_spot (b : grid) : result (Z * Z) :=
  r <- find_open_rows b (range 0 9) ;;
  match r with
  | Some p => Ok p
  | None => Ok (-1, -1)
  end.

(** The method calls made by the body of the loop of [solve], kept as a
    record of what one run did (most recent call first). *)
Inductive call : Type :=
| CallPass
| CallRollBack
| CallGuess (i j : Z).

(** One round of the [while] loop of [solve], after [num_steps += 1]. *)
Definition solve_body (s : Board) : result (list call * Board) :=
  '(num_deductions, b1) <- make_deductive_pass (board s) ;;
  let s1 := set_board s b1 in
  if num_deductions >? 0 then Ok ([CallPass], s1)
  else if num_deductions =? -1 then
    s2 <- roll_back s1 ;;
    i <- attr i_guess (peek s2) ;;
    j <- attr j_guess (peek s2) ;;
    '(_, s3) <- make_guess s2 i j ;;
    Ok ([CallGuess i j; CallRollBack; CallPass], s3)
  else
    '(i, j) <- find_open_spot (board s1) ;;
    if (i =? -1) || (j =? -1) then Ok ([CallPass], s1)
    else
      '(_, s3) <- make_guess s1 i j ;;
      Ok ([CallGuess i j; CallPass], s3).

(** How a run of [solve] ends: it returns, with the final value of
    [num_steps], or an exception leaves it. *)
Inductive outcome : Type :=
| Returned (num_steps : Z) (calls : list call) (s : Board)
| Crashed (num_steps : Z) (e : exn).

(** The loop [while num_steps < 10000 and not(self.is_solved())]. [None]
    means that [fuel] rounds were not enough to leave the loop. *)
Fixpoint solve_loop (fuel : nat) (num_steps : Z) (calls : list call) (s : Board)
  : option outcome :=
  if num_steps <? 10000 then
    match is_solved (board s) with
    | Raise e => Some (Crashed num_steps e)
    | Ok true => Some (Returned num_steps calls s)
    | Ok false =>
        match fuel with
        | O => None
        | S fuel' =>
            let num_steps := num_steps + 1 in
            match solve_body s with
            | Raise e => Some (Crashed num_steps e)
            | Ok (cs, s') => solve_loop fuel' num_steps (cs ++ calls) s'
            end
        end
    end
  else Some (Returned num_steps calls s).

Definition cap : nat := Z.to_nat 10000.

(** [Board.solve] *)
Definition solve (s : Board) : option outcome := solve_loop cap 0 [] s.

(** The value of [num_steps] when the run ended. *)
Definition outcome_steps (o : outcome) : Z :=
  match o with
  | Returned num_steps _ _ => num_steps
  | Crashed num_steps _ => num_steps
  end.

(** ** Text: [__init__], [to_string] and the reading of the puzzle file *)

(** A Python [str] as the list of its characters, restricted to the code
    points 0 to 255 of [ascii]. In this range the only characters that
    [int] accepts are the decimal digits "0" to "9". *)
Definition pystr : Type := list ascii.

Definition char_code (c : ascii) : Z := Z.of_N (N_of_ascii c).

Definition is_digit (c : ascii) : bool := (48 <=? char_code c) && (char_code c <=? 57).

(** [int(c)] for a string of one character: its value for a decimal digit,
    ValueError for anything else. *)
Definition py_int (c : ascii) : result Z :=
  if is_digit c then Ok (char_code c - 48) else Raise ValueError.

(** [str(e)] for an int. *)
Definition py_str (e : Z) : pystr :=
  String.list_ascii_of_string (DecimalString.NilZero.string_of_int (Z.to_int e)).

Fixpoint init_loop (input_lines : list pystr) (board : grid) : result grid :=
  match input_lines with
  | [] => Ok board
  | i :: rest =>
      as_int <- comprehension py_int i ;;
      init_loop rest (board ++ [as_int])
  end.

(** [Board.__init__] *)
Definition Board_init (input_lines : list pystr) : result Board :=
  board <- init_loop input_lines [] ;;
  Ok (mkBoard board []).

Definition space : ascii := " "%char.
Definition newline : ascii := "010"%char.

Fixpoint to_string_loop (b : grid) (ks : list Z) (board_str : pystr) : result pystr :=
  match ks with
  | [] => Ok board_str
  | i :: ks' =>
      row <- get_row b i ;;
      let board_str := board_str ++ flat_map (fun e => py_str e ++ [space]) row in
      to_string_loop b ks' (board_str ++ [newline])
  end.

(** [Board.to_string] *)
Definition to_string (b : grid) : result pystr :=
  to_string_loop b (range 0 9) [].

(** [range(a, b, step)] for a positive step. *)
Fixpoint range_step_from (a step : Z) (n : nat) : list Z :=
  match n with
  | O => []
  | S n' => a :: range_step_from (a + step) step n'
  end.

Definition range_step (a b step : Z) : list Z :=
  range_step_from a step (Z.to_nat ((b - a + step - 1) / step)).

Fixpoint parse_loop (lines : list pystr) (ks : list Z) (boards : list Board)
  : result (list Board) :=
  match ks with
  | [] => Ok boards
  | i :: ks' =>
      input_lines <- comprehension (fun j => py_getitem lines (i + j)) (range 1 10) ;;
      bd <- Board_init input_lines ;;
      parse_loop lines ks' (boards ++ [bd])
  end.

(** The script, "parsing the input data": the boards of the file whose
    lines are [lines]. *)
Definition parse_boards (lines : list pystr) : result (list Board) :=
  parse_loop lines (range_step 0 (len lines) 10) [].

(** A line as [to_string] prints it: every character followed by a space,
    then a newline. *)
Definition printed_line (l : pystr) : pystr :=
  flat_map (fun c => [c; space]) l ++ [newline].

(** The character of a digit. *)
Definition digit_char (d : Z) : ascii := ascii_of_N (Z.to_N (d + 48)).

(** ** Vocabulary of the specification *)

(** A well-formed grid has nine rows of nine cells. *)
Definition is_9x9 (b : grid) : bool :=
  (length b =? 9)%nat && forallb (fun row => (length row =? 9)%nat) b.

(** Every cell holds a digit between 0 and 9, as [int] gives for one
    character of an input line. *)
Definition digits_ok (b : grid) : bool :=
  forallb (forallb (fun v => (0 <=? v) && (v <=? 9))) b.

(** The cell at row [i], column [j], for indices inside the grid. *)
Definition cell (b : grid) (i j : Z) : Z :=
  nth (Z.to_nat j) (nth (Z.to_nat i) b []) 0.

(** The grid with cell [(i, j)] replaced. *)
Definition upd (b : grid) (i j v : Z) : grid :=
  set_nth (Z.to_nat i) (set_nth (Z.to_nat j) v (nth (Z.to_nat i) b [])) b.

Definition in_range (i : Z) : Prop := 0 <= i < 9.

(** Python's reading of an index between -9 and 8. *)
Definition wrap (i : Z) : Z := if i <? 0 then i + 9 else i.

(** The three regions of a cell, by coordinates. Block [k] covers rows
    [3*(k/3) .. 3*(k/3)+2] and columns [3*(k mod 3) .. 3*(k mod 3)+2]. *)
Definition row_cells (b : grid) (i : Z) : list Z :=
  map (fun j => cell b i j) (range 0 9).

Definition column_cells (b : grid) (j : Z) : list Z :=
  map (fun i => cell b i j) (range 0 9).

Definition block_cells (b : grid) (k : Z) : list Z :=
  flat_map (fun r => map (fun c => cell b (3 * (k / 3) + r) (3 * (k mod 3) + c))
                         (range 0 3))
           (range 0 3).

Definition block_of (i j : Z) : Z := 3 * (i / 3) + j / 3.

(** Digits 1-9 minus those present in the row, column and block. *)
Definition candidates (b : grid) (i j : Z) : list Z :=
  filter (fun d => negb (py_in d (row_cells b i)
                         || py_in d (column_cells b j)
                         || py_in d (block_cells b (block_of i j))))
         (range 1 10).

(** No non-zero digit occurs more than once. *)
Fixpoint region_valid (cells : list Z) : bool :=
  match cells with
  | [] => true
  | x :: t => ((x =? 0) || negb (py_in x t)) && region_valid t
  end.

Definition consistent (b : grid) : bool :=
  forallb (fun k => region_valid (row_cells b k)
                    && region_valid (column_cells b k)
                    && region_valid (block_cells b k))
          (range 0 9).

Definition all_nonzero (b : grid) : bool :=
  forallb (fun i => forallb (fun j => negb (cell b i j =? 0)) (range 0 9)) (range 0 9).

(** Solved: every cell is filled and every region is valid. *)
Definition solved_state (b : grid) : bool := all_nonzero b && consistent b.

(** The 81 coordinates in row-major order. *)
Definition row_major : list (Z * Z) :=
  flat_map (fun i => map (fun j => (i, j)) (range 0 9)) (range 0 9).

(** The decision for one cell in the words of the specification: a filled
    cell is left alone (-2), an empty cell without candidate is a
    contradiction (-1), one with a single candidate receives it, one with
    several is left empty (0). *)
Definition deduce_one (b : grid) (i j : Z) : Z * grid :=
  if negb (cell b i j =? 0) then (-2, b)
  else match candidates b i j with
       | [] => (-1, b)
       | [e] => (e, upd b i j e)
       | _ => (0, b)
       end.

Inductive PassResult : Type :=
| Contradiction
| Placed (count : Z).

(** What [make_deductive_pass] returns for each. *)
Definition pass_code (r : PassResult) : Z :=
  match r with
  | Contradiction => -1
  | Placed count => count
  end.

(** The two nested loops of [make_deductive_pass] as one loop over a list
    of cells: the decision of the code is applied to each cell, the loop is
    left at once on -1 and the cells placed are counted otherwise. *)
Fixpoint scan_cells (cells : list (Z * Z)) (placed : Z) (b : grid)
  : result (PassResult * grid) :=
  match cells with
  | [] => Ok (Placed placed, b)
  | (i, j) :: rest =>
      '(decision, b1) <- make_deductive_decision b i j ;;
      if decision =? -1 then Ok (Contradiction, b1)
      else scan_cells rest (if decision >? 0 then placed + 1 else placed) b1
  end.

(** The deductive pass in the words of the specification, with no call to
    the code: visit the cells in the given order; a filled cell is passed
    over; an empty cell without candidate ends the pass at once with a
    contradiction, the digits written so far staying on the grid; an empty
    cell with a single candidate receives it and counts as placed; an empty
    cell with several candidates is left empty. *)
Fixpoint spec_pass (cells : list (Z * Z)) (placed : Z) (b : grid) : PassResult * grid :=
  match cells with
  | [] => (Placed placed, b)
  | (i, j) :: rest =>
      if negb (cell b i j =? 0) then spec_pass rest placed b
      else match candidates b i j with
           | [] => (Contradiction, b)
           | [e] => spec_pass rest (placed + 1) (upd b i j e)
           | _ => spec_pass rest placed b
           end
  end.

(** The number of cells of [cells] that are empty in [b] and filled in [b']. *)
Definition newly_filled (b b' : grid) (cells : list (Z * Z)) : Z :=
  len (filter (fun '(i, j) => (cell b i j =? 0) && negb (cell b' i j =? 0)) cells).

(** [b'] keeps every filled cell of [b]. *)
Definition keeps_filled (b b' : grid) : Prop :=
  forall i j, in_range i -> in_range j -> cell b i j <> 0 -> cell b' i j = cell b i j.

(** Two frames that differ at most in their remaining candidates. *)
Definition same_frame (f g : TempBoard) : Prop :=
  tb_board f = tb_board g /\ i_guess f = i_guess g /\ j_guess f = j_guess g.

(** Every frame of [stk'] comes from a frame of [stk]. *)
Definition frames_from (stk stk' : list TempBoard) : Prop :=
  Forall (fun g => exists f, In f stk /\ same_frame f g) stk'.

(** What holds of every frame during a run on the input [b0]: the snapshot
    is a 9x9 grid that keeps the givens, and the guessed cell is an empty
    cell of the snapshot. *)
Definition frame_ok (b0 : grid) (f : TempBoard) : Prop :=
  is_9x9 (tb_board f) = true /\
  keeps_filled b0 (tb_board f) /\
  in_range (i_guess f) /\ in_range (j_guess f) /\
  cell (tb_board f) (i_guess f) (j_guess f) = 0.

(** The invariant of the loop of [solve] on the input [b0]. *)
Definition solver_inv (b0 : grid) (s : Board) : Prop :=
  is_9x9 (board s) = true /\
  keeps_filled b0 (board s) /\
  Forall (frame_ok b0) (stack s).

(** The loop control that stands for a pass result. *)
Definition pass_ctl (r : PassResult) : ctl Z :=
  match r with
  | Contradiction => Return (-1)
  | Placed m => Next m
  end.

(** The test applied to one key of the dict of counts. *)
Definition key_ok (count_of : Z -> Z) (key : Z) : bool :=
  negb (negb (key =? 0) && (count_of key >? 1)).

(** Equality of coordinates is decidable. *)
Definition cell_eq_dec (x y : Z * Z) : {x = y} + {x <> y}.
Proof. decide equality; apply Z.eq_dec. Defined.

(** Case analysis on an index between 0 and 8. *)
Ltac cases9 i H :=
  let D := fresh "D" in
  assert (D : i = 0 \/ i = 1 \/ i = 2 \/ i = 3 \/ i = 4 \/ i = 5 \/ i = 6 \/ i = 7 \/ i = 8)
    by (unfold in_range in H; lia);
  clear H;
  destruct D as [D|[D|[D|[D|[D|[D|[D|[D|D]]]]]]]]; subst i.

(** ** Sample grids *)

Definition blank_row : list Z := [0; 0; 0; 0; 0; 0; 0; 0; 0].

(** A puzzle that deduction alone completes. *)
Definition puzzle_easy : grid :=
  [[0; 0; 3; 0; 2; 0; 6; 0; 0];
   [9; 0; 0; 3; 0; 5; 0; 0; 1];
   [0; 0; 1; 8; 0; 6; 4; 0; 0];
   [0; 0; 8; 1; 0; 2; 9; 0; 0];
   [7; 0; 0; 0; 0; 0; 0; 0; 8];
   [0; 0; 6; 7; 0; 8; 2; 0; 0];
   [0; 0; 2; 6; 0; 9; 5; 0; 0];
   [8; 0; 0; 2; 0; 3; 0; 0; 9];
   [0; 0; 5; 0; 1; 0; 3; 0; 0]].

(** Its solution. *)
Definition grid_solved : grid :=
  [[4; 8; 3; 9; 2; 1; 6; 5; 7];
   [9; 6; 7; 3; 4; 5; 8; 2; 1];
   [2; 5; 1; 8; 7; 6; 4; 9; 3];
   [5; 4; 8; 1; 3; 2; 9; 7; 6];
   [7; 2; 9; 5; 6; 4; 1; 3; 8];
   [1; 3; 6; 7; 9; 8; 2; 4; 5];
   [3; 7; 2; 6; 8; 9; 5; 1; 4];
   [8; 1; 4; 2; 5; 3; 7; 6; 9];
   [6; 9; 5; 4; 1; 7; 3; 8; 2]].

(** A puzzle that needs guesses and one rollback. *)
Definition puzzle_guess : grid :=
  [[2; 0; 0; 0; 8; 0; 3; 0; 0];
   [0; 6; 0; 0; 7; 0; 0; 8; 4];
   [0; 3; 0; 5; 0; 0; 2; 0; 9];
   [0; 0; 0; 1; 0; 5; 4; 0; 8];
   [0; 0; 0; 0; 0; 0; 0; 0; 0];
   [4; 0; 2; 7; 0; 6; 0; 0; 0];
   [3; 0; 1; 0; 0; 7; 0; 4; 0];
   [7; 2; 0; 0; 4; 0; 0; 6; 0];
   [0; 0; 4; 0; 1; 0; 0; 0; 3]].

(** No solution: the three empty cells of the first row share the two
    candidates 1 and 2. Deduction stalls on it, so a guess is pushed. *)
Definition puzzle_dead_end : grid :=
  [[0; 0; 0; 4; 5; 6; 7; 8; 9];
   [3; 0; 0; 0; 0; 0; 0; 0; 0];
   blank_row; blank_row; blank_row; blank_row; blank_row; blank_row; blank_row].


(** The empty cell (0, 0) has the single candidate 9. *)
Definition grid_one_candidate : grid :=
  [[0; 1; 2; 3; 4; 5; 6; 7; 8];
   blank_row; blank_row; blank_row; blank_row; blank_row; blank_row; blank_row;
   blank_row].

(** Fully filled, with two 5s in column 0 (rows 3 and 4). *)
Definition grid_full_invalid : grid :=
  [[4; 8; 3; 9; 2; 1; 6; 5; 7];
   [9; 6; 7; 3; 4; 5; 8; 2; 1];
   [2; 5; 1; 8; 7; 6; 4; 9; 3];
   [5; 4; 8; 1; 3; 2; 9; 7; 6];
   [5; 2; 9; 7; 6; 4; 1; 3; 8];
   [1; 3; 6; 7; 9; 8; 2; 4; 5];
   [3; 7; 2; 6; 8; 9; 5; 1; 4];
   [8; 1; 4; 2; 5; 3; 7; 6; 9];
   [6; 9; 5; 4; 1; 7; 3; 8; 2]].

(** The object after the first guess on [puzzle_dead_end]: 1 was tried in
    cell (0, 0). *)
Definition state_first_guess : Board :=
  mkBoard ([1; 0; 0; 4; 5; 6; 7; 8; 9] :: tl puzzle_dead_end)
          [mkTempBoard puzzle_dead_end 0 0 [1; 2]].

(** The same object once that guess is rolled back. *)
Definition state_rolled_back : Board :=
  mkBoard puzzle_dead_end [mkTempBoard puzzle_dead_end 0 0 [2]].

(** The empty cell (0, 0) has no candidate left. *)
Definition grid_no_candidate : grid :=
  [[0; 1; 2; 3; 4; 5; 6; 7; 8];
   [9; 0; 0; 0; 0; 0; 0; 0; 0];
   blank_row; blank_row; blank_row; blank_row; blank_row; blank_row; blank_row].

(** The pass writes 1 into cell (0, 0), its single candidate, and this
    leaves the empty cell (1, 0) without candidate. *)
Definition grid_dead_after_write : grid :=
  [[0; 2; 3; 4; 5; 6; 7; 8; 9];
   [0; 4; 5; 6; 7; 8; 9; 0; 0];
   blank_row; blank_row; blank_row; blank_row; blank_row; blank_row; blank_row].

(** The object after [make_guess] was called for that cell: a frame was
    pushed, nothing was written. *)
Definition state_no_guess : Board :=
  mkBoard grid_no_candidate [mkTempBoard grid_no_candidate 0 0 []].

(** The object when [roll_back] is called for the second time in the run
    on [puzzle_dead_end]: 2 was tried in cell (0, 0), the pass wrote 1 in
    cell (0, 1) and found no candidate for cell (0, 2). *)
Definition state_second_guess : Board :=
  mkBoard ([2; 1; 0; 4; 5; 6; 7; 8; 9] :: tl puzzle_dead_end)
          [mkTempBoard puzzle_dead_end 0 0 [2]].

(** The run of [solve] on [puzzle_guess]: its calls and its final object. *)
Definition guess_calls : list call :=
  Eval vm_compute in
    match solve (new_board puzzle_guess) with
    | Some (Returned _ calls _) => calls
    | _ => []
    end.

Definition guess_final : Board :=
  Eval vm_compute in
    match solve (new_board puzzle_guess) with
    | Some (Returned _ _ s) => s
    | _ => new_board []
    end.

(** ** Vocabulary of the further properties *)

(** The non-zero entries of a region. *)
Definition nonzero (cells : list Z) : list Z :=
  filter (fun x => negb (x =? 0)) cells.

(** Every cell of the grid holds a digit between 0 and 9. *)
Definition cells_digits (b : grid) : Prop :=
  forall i j, in_range i -> in_range j -> 0 <= cell b i j <= 9.

(** What holds of every frame during a run on a well-formed input [b0]:
    beyond [frame_ok], the snapshot holds digits and the candidate list is
    a non-empty list of digits between 1 and 9. *)
Definition frame_sound (b0 : grid) (f : TempBoard) : Prop :=
  frame_ok b0 f /\
  cells_digits (tb_board f) /\
  valid_entries f <> [] /\
  Forall (fun d => 1 <= d <= 9) (valid_entries f).

(** The cell guessed by the frame on top of the stack is filled. *)
Definition top_filled (b : grid) (stk : list TempBoard) : Prop :=
  match stk with
  | [] => True
  | f :: _ => cell b (i_guess f) (j_guess f) <> 0
  end.

(** The invariant of the loop of [solve] on a well-formed input [b0]. *)
Definition solver_sound (b0 : grid) (s : Board) : Prop :=
  is_9x9 (board s) = true /\
  keeps_filled b0 (board s) /\
  cells_digits (board s) /\
  Forall (frame_sound b0) (stack s) /\
  top_filled (board s) (stack s).

(** What one round of the loop of [solve] does to the object with board [b]
    and stack [stk]: the result of [solve_body] in each of its five cases. *)
Inductive round (b : grid) (stk : list TempBoard) : result (list call * Board) -> Prop :=
| RoundDeduce (n : Z) (b1 : grid) :
    make_deductive_pass b = Ok (n, b1) -> 0 < n ->
    round b stk (Ok ([CallPass], mkBoard b1 stk))
| RoundFull :
    make_deductive_pass b = Ok (0, b) ->
    (forall i j, in_range i -> in_range j -> cell b i j <> 0) ->
    round b stk (Ok ([CallPass], mkBoard b stk))
| RoundGuess (i j x : Z) (ve : list Z) :
    make_deductive_pass b = Ok (0, b) ->
    find_open_spot b = Ok (i, j) ->
    in_range i -> in_range j -> cell b i j = 0 ->
    candidates b i j = x :: ve -> ve <> [] ->
    round b stk (Ok ([CallGuess i j; CallPass],
                     mkBoard (upd b i j x) (mkTempBoard b i j (x :: ve) :: stk)))
| RoundExhausted (b1 : grid) :
    make_deductive_pass b = Ok (-1, b1) ->
    Forall (fun f => length (valid_entries f) = 1%nat) stk ->
    round b stk (Raise AttributeError)
| RoundBacktrack (b1 : grid) (popped below : list TempBoard) (f : TempBoard)
                 (x y : Z) (ve : list Z) :
    make_deductive_pass b = Ok (-1, b1) ->
    stk = popped ++ f :: below ->
    Forall (fun g => length (valid_entries g) = 1%nat) popped ->
    valid_entries f = x :: y :: ve ->
    round b stk (Ok ([CallGuess (i_guess f) (j_guess f); CallRollBack; CallPass],
                     mkBoard (upd (tb_board f) (i_guess f) (j_guess f) y)
                             (set_valid_entries f (y :: ve) :: below))).

(** The solved grid [g] is still within reach of the search: it keeps the
    filled cells of the board, or those of the snapshot of a stacked frame
    with one of the candidates not yet tried in the guessed cell. *)
Definition pending (g b : grid) (stk : list TempBoard) : Prop :=
  keeps_filled b g \/
  Exists (fun f => exists c, In c (tl (valid_entries f)) /\
                             keeps_filled (upd (tb_board f) (i_guess f) (j_guess f) c) g)
         stk.

(** [g] agrees with [b] on every filled cell of [b]. *)
Definition extends (b g : grid) : bool :=
  forallb (fun '(i, j) => (cell b i j =? 0) || (cell g i j =? cell b i j)) row_major.

(** A solution of the puzzle [b]: a solved 9x9 grid of digits that keeps
    the givens of [b]. *)
Definition solution (b g : grid) : Prop :=
  is_9x9 g = true /\ digits_ok g = true /\ solved_state g = true /\ extends b g = true.

(** The coordinates of the cells of block [k], row by row. *)
Definition block_coords (k : Z) : list (Z * Z) :=
  flat_map (fun r => map (fun c => (3 * (k / 3) + r, 3 * (k mod 3) + c)) (range 0 3))
           (range 0 3).

(** ** Basic facts about the list primitives *)

Lemma len_nonneg {A : Type} (l : list A) : 0 <= len l.
Proof. unfold len. lia. Qed.

Lemma py_getitem_in_bounds {A : Type} (l : list A) (i : Z) (d : A) :
  0 <= i < len l -> py_getitem l i = Ok (nth (Z.to_nat i) l d).
Proof.
  intros Hi. unfold py_getitem.
  destruct (i <? 0) eqn:Hneg; [apply Z.ltb_lt in Hneg; lia|].
  replace ((0 <=? i) && (i <? len l)) with true
    by (symmetry; apply andb_true_iff; split; [apply Z.leb_le | apply Z.ltb_lt]; lia).
  destruct (nth_error l (Z.to_nat i)) as [x|] eqn:Hn.
  - f_equal. symmetry. apply nth_error_nth. exact Hn.
  - apply nth_error_None in Hn. unfold len in Hi. lia.
Qed.

Lemma py_getitem_negative {A : Type} (l : list A) (i : Z) :
  - len l <= i < 0 -> py_getitem l i = py_getitem l (i + len l).
Proof.
  intros Hi. unfold py_getitem.
  destruct (i <? 0) eqn:Hneg; [|apply Z.ltb_ge in Hneg; lia].
  destruct (i + len l <? 0) eqn:Hneg'; [apply Z.ltb_lt in Hneg'; lia|].
  reflexivity.
Qed.

Lemma py_getitem_out_of_bounds {A : Type} (l : list A) (i : Z) :
  i < - len l \/ len l <= i -> py_getitem l i = Raise IndexError.
Proof.
  intros Hi. unfold py_getitem. pose proof (len_nonneg l) as Hl.
  destruct (i <? 0) eqn:Hneg.
  - apply Z.ltb_lt in Hneg.
    replace (0 <=? i + len l) with false by (symmetry; apply Z.leb_gt; lia).
    reflexivity.
  - apply Z.ltb_ge in Hneg.
    replace (i <? len l) with false by (symmetry; apply Z.ltb_ge; lia).
    rewrite andb_false_r. reflexivity.
Qed.

Lemma py_setitem_in_bounds {A : Type} (l : list A) (i : Z) (v : A) :
  0 <= i < len l -> py_setitem l i v = Ok (set_nth (Z.to_nat i) v l).
Proof.
  intros Hi. unfold py_setitem.
  destruct (i <? 0) eqn:Hneg; [apply Z.ltb_lt in Hneg; lia|].
  replace ((0 <=? i) && (i <? len l)) with true
    by (symmetry; apply andb_true_iff; split; [apply Z.leb_le | apply Z.ltb_lt]; lia).
  reflexivity.
Qed.

Lemma set_nth_length {A : Type} (n : nat) (v : A) (l : list A) :
  length (set_nth n v l) = length l.
Proof.
  revert n. induction l as [|h t IH]; intros [|n]; simpl; auto.
Qed.

Lemma nth_set_nth_same {A : Type} (n : nat) (v d : A) (l : list A) :
  (n < length l)%nat -> nth n (set_nth n v l) d = v.
Proof.
  revert n. induction l as [|h t IH]; intros [|n] Hn; simpl in *; try lia; auto.
  apply IH. lia.
Qed.

Lemma nth_set_nth_other {A : Type} (n m : nat) (v d : A) (l : list A) :
  n <> m -> nth m (set_nth n v l) d = nth m l d.
Proof.
  revert n m. induction l as [|h t IH]; intros [|n] [|m] Hnm; simpl; auto.
  - contradiction.
Qed.

Lemma py_setitem_length {A : Type} (l l' : list A) (i : Z) (v : A) :
  py_setitem l i v = Ok l' -> length l' = length l.
Proof.
  unfold py_setitem. destruct (_ && _); [|discriminate].
  intros H. injection H as <-. apply set_nth_length.
Qed.

(** ** Cells of a 9x9 grid *)

Lemma is_9x9_rows (b : grid) :
  is_9x9 b = true -> length b = 9%nat.
Proof.
  unfold is_9x9. intros H. apply andb_true_iff in H as [H _].
  now apply Nat.eqb_eq in H.
Qed.

Lemma is_9x9_row_length (b : grid) (i : Z) :
  is_9x9 b = true -> in_range i -> length (nth (Z.to_nat i) b []) = 9%nat.
Proof.
  unfold is_9x9, in_range. intros H Hi. apply andb_true_iff in H as [Hl H].
  apply Nat.eqb_eq in Hl. rewrite forallb_forall in H.
  apply Nat.eqb_eq, H, nth_In. lia.
Qed.

Lemma is_9x9_intro (b : grid) :
  length b = 9%nat -> (forall row, In row b -> length row = 9%nat) -> is_9x9 b = true.
Proof.
  intros Hl Hr. unfold is_9x9. apply andb_true_iff. split.
  - now apply Nat.eqb_eq.
  - apply forallb_forall. intros row Hin. apply Nat.eqb_eq. auto.
Qed.

Lemma get_row_in_range (b : grid) (i : Z) :
  is_9x9 b = true -> in_range i -> get_row b i = Ok (nth (Z.to_nat i) b []).
Proof.
  intros Hb Hi. unfold get_row. apply py_getitem_in_bounds.
  unfold len, in_range in *. rewrite (is_9x9_rows b Hb). lia.
Qed.

Lemma get_in_range (b : grid) (i j : Z) :
  is_9x9 b = true -> in_range i -> in_range j -> get b i j = Ok (cell b i j).
Proof.
  intros Hb Hi Hj. unfold get.
  fold (get_row b i). rewrite (get_row_in_range b i Hb Hi). simpl.
  apply py_getitem_in_bounds.
  unfold len. rewrite (is_9x9_row_length b i Hb Hi). unfold in_range in Hj. lia.
Qed.

Lemma insert_in_range (b : grid) (i j v : Z) :
  is_9x9 b = true -> in_range i -> in_range j -> insert b i j v = Ok (upd b i j v).
Proof.
  intros Hb Hi Hj. unfold insert.
  fold (get_row b i). rewrite (get_row_in_range b i Hb Hi). simpl.
  rewrite py_setitem_in_bounds.
  2:{ unfold len. rewrite (is_9x9_row_length b i Hb Hi). unfold in_range in Hj. lia. }
  simpl. rewrite py_setitem_in_bounds.
  2:{ unfold len. rewrite (is_9x9_rows b Hb). unfold in_range in Hi. lia. }
  reflexivity.
Qed.

Lemma In_set_nth {A : Type} (n : nat) (v x : A) (l : list A) :
  In x (set_nth n v l) -> x = v \/ In x l.
Proof.
  revert n. induction l as [|h t IH]; intros [|n]; simpl; intros H; auto.
  - destruct H as [H|H]; auto.
  - destruct H as [H|H]; auto. apply IH in H. tauto.
Qed.

Lemma upd_is_9x9 (b : grid) (i j v : Z) :
  is_9x9 b = true -> in_range i -> is_9x9 (upd b i j v) = true.
Proof.
  intros Hb Hi. apply is_9x9_intro.
  - unfold upd. rewrite set_nth_length. now apply is_9x9_rows.
  - intros row Hin. unfold upd in Hin. apply In_set_nth in Hin as [->|Hin].
    + rewrite set_nth_length. now apply is_9x9_row_length.
    + unfold is_9x9 in Hb. apply andb_true_iff in Hb as [_ Hb].
      rewrite forallb_forall in Hb. now apply Nat.eqb_eq, Hb.
Qed.

Lemma cell_upd_same (b : grid) (i j v : Z) :
  is_9x9 b = true -> in_range i -> in_range j -> cell (upd b i j v) i j = v.
Proof.
  intros Hb Hi Hj. unfold cell, upd.
  rewrite nth_set_nth_same by (rewrite (is_9x9_rows b Hb); unfold in_range in Hi; lia).
  apply nth_set_nth_same.
  rewrite (is_9x9_row_length b i Hb Hi). unfold in_range in Hj. lia.
Qed.

Lemma cell_upd_other (b : grid) (i j v i' j' : Z) :
  is_9x9 b = true -> in_range i -> in_range j -> in_range i' -> in_range j' ->
  (i', j') <> (i, j) -> cell (upd b i j v) i' j' = cell b i' j'.
Proof.
  intros Hb Hi Hj Hi' Hj' Hne. unfold cell, upd, in_range in *.
  destruct (Z.eq_dec i' i) as [->|Hii].
  - rewrite nth_set_nth_same by (rewrite (is_9x9_rows b Hb); lia).
    apply nth_set_nth_other. intros Heq. apply Hne. f_equal. lia.
  - rewrite nth_set_nth_other by lia. reflexivity.
Qed.

(** A grid is determined by its 81 cells. *)
Lemma list9_ext {A : Type} (l l' : list A) (d : A) :
  length l = 9%nat -> length l' = 9%nat ->
  (forall j, in_range j -> nth (Z.to_nat j) l d = nth (Z.to_nat j) l' d) -> l = l'.
Proof.
  intros Hl Hl' H.
  apply (nth_ext l l' d d); [congruence|].
  intros n Hn. specialize (H (Z.of_nat n)). rewrite Nat2Z.id in H.
  apply H. unfold in_range. lia.
Qed.

Lemma grid_ext (b b' : grid) :
  is_9x9 b = true -> is_9x9 b' = true ->
  (forall i j, in_range i -> in_range j -> cell b i j = cell b' i j) -> b = b'.
Proof.
  intros Hb Hb' H.
  apply (list9_ext b b' []); try now apply is_9x9_rows.
  intros i Hi.
  apply (list9_ext _ _ 0); try now apply is_9x9_row_length.
  intros j Hj. apply H; assumption.
Qed.

(** ** Reading a cell *)

Lemma wrap_in_range (i : Z) : -9 <= i < 9 -> in_range (wrap i).
Proof.
  unfold wrap, in_range. intros H.
  destruct (i <? 0) eqn:E; [apply Z.ltb_lt in E | apply Z.ltb_ge in E]; lia.
Qed.

Lemma py_getitem_wrap {A : Type} (l : list A) (i : Z) (d : A) :
  length l = 9%nat -> -9 <= i < 9 -> py_getitem l i = Ok (nth (Z.to_nat (wrap i)) l d).
Proof.
  intros Hl Hi. unfold wrap.
  destruct (i <? 0) eqn:E; [apply Z.ltb_lt in E | apply Z.ltb_ge in E].
  - rewrite py_getitem_negative by (unfold len; lia).
    replace (len l) with 9 by (unfold len; lia).
    apply py_getitem_in_bounds. unfold len. lia.
  - apply py_getitem_in_bounds. unfold len. lia.
Qed.

(** C8, as the code has it. On a 9x9 grid [get] returns the cell for
    indices in [0,8]; an index in [-9,-1] is not refused but read from the
    end of the list (the cell at that index plus 9); IndexError is raised
    exactly when an index is below -9 or above 8. *)
Theorem get_index_semantics (b : grid) (i j : Z) :
  is_9x9 b = true ->
  (in_range i -> in_range j -> get b i j = Ok (cell b i j)) /\
  (-9 <= i < 9 -> -9 <= j < 9 -> get b i j = Ok (cell b (wrap i) (wrap j))) /\
  (i < -9 \/ 9 <= i \/ j < -9 \/ 9 <= j -> get b i j = Raise IndexError).
Proof.
  intros Hb. split; [|split].
  - intros Hi Hj. now apply get_in_range.
  - intros Hi Hj. unfold get, cell.
    rewrite (py_getitem_wrap b i []) by (auto using is_9x9_rows). simpl.
    apply py_getitem_wrap; [|assumption].
    apply is_9x9_row_length; [assumption|]. now apply wrap_in_range.
  - intros Hout. unfold get.
    destruct (Z_lt_dec i (-9)) as [Hlo|Hlo];
      [rewrite py_getitem_out_of_bounds; [reflexivity|];
       unfold len; rewrite (is_9x9_rows b Hb); lia|].
    destruct (Z_le_dec 9 i) as [Hhi|Hhi];
      [rewrite py_getitem_out_of_bounds; [reflexivity|];
       unfold len; rewrite (is_9x9_rows b Hb); lia|].
    rewrite (py_getitem_wrap b i []) by (auto using is_9x9_rows; lia). simpl.
    apply py_getitem_out_of_bounds.
    unfold len. rewrite is_9x9_row_length; [lia|assumption|].
    apply wrap_in_range. lia.
Qed.

Lemma get_index_semantics_witness :
  is_9x9 puzzle_easy = true /\
  get puzzle_easy 1 0 = Ok (cell puzzle_easy 1 0) /\
  get puzzle_easy (-1) 2 = Ok (cell puzzle_easy (wrap (-1)) (wrap 2)) /\
  get puzzle_easy 9 0 = Raise IndexError.
Proof.
  pose proof (get_index_semantics puzzle_easy 1 0 eq_refl) as [H1 _].
  pose proof (get_index_semantics puzzle_easy (-1) 2 eq_refl) as [_ [H2 _]].
  pose proof (get_index_semantics puzzle_easy 9 0 eq_refl) as [_ [_ H3]].
  split; [reflexivity|]. split; [|split].
  - apply H1; unfold in_range; lia.
  - apply H2; lia.
  - apply H3. lia.
Defined.

(** C8 as stated fails: row index -1 is outside [0,8], yet [get] returns
    the cell of the last row instead of failing. *)
Lemma get_negative_index_no_error :
  ~ (0 <= -1 <= 8) /\ get puzzle_easy (-1) 2 = Ok 5.
Proof. split; [lia | reflexivity]. Qed.

(** ** Rows, columns and blocks *)

Lemma list9_as_map {A : Type} (l : list A) (d : A) :
  length l = 9%nat -> l = map (fun j => nth (Z.to_nat j) l d) (range 0 9).
Proof.
  intros H.
  do 9 (destruct l as [|? l]; [discriminate|]).
  destruct l; [reflexivity | discriminate].
Qed.

Lemma comprehension_total {A B : Type} (f : A -> result B) (g : A -> B) (l : list A) :
  (forall x, In x l -> f x = Ok (g x)) -> comprehension f l = Ok (map g l).
Proof.
  induction l as [|x t IH]; intros H; simpl; [reflexivity|].
  rewrite (H x) by (now left). simpl.
  rewrite IH by (intros y Hy; apply H; now right). reflexivity.
Qed.

Lemma get_row_cells (b : grid) (i : Z) :
  is_9x9 b = true -> in_range i -> get_row b i = Ok (row_cells b i).
Proof.
  intros Hb Hi. rewrite get_row_in_range by assumption. f_equal.
  unfold row_cells, cell. apply list9_as_map. now apply is_9x9_row_length.
Qed.

Lemma get_column_cells (b : grid) (j : Z) :
  is_9x9 b = true -> in_range j -> get_column b j = Ok (column_cells b j).
Proof.
  intros Hb Hj. unfold get_column.
  rewrite (comprehension_total _ (fun row => nth (Z.to_nat j) row 0)).
  - f_equal. unfold column_cells, cell.
    rewrite (list9_as_map b []) at 1 by (now apply is_9x9_rows).
    now rewrite map_map.
  - intros row Hin. apply py_getitem_in_bounds.
    unfold is_9x9 in Hb. apply andb_true_iff in Hb as [_ Hb].
    rewrite forallb_forall in Hb. apply Hb, Nat.eqb_eq in Hin.
    unfold len, in_range in *. lia.
Qed.

Lemma py_slice_block (row : list Z) (mc : Z) :
  length row = 9%nat -> mc = 0 \/ mc = 3 \/ mc = 6 ->
  py_slice row mc (mc + 3) = map (fun c => nth (Z.to_nat (mc + c)) row 0) (range 0 3).
Proof.
  intros H Hmc.
  do 9 (destruct row as [|? row]; [discriminate|]).
  destruct row; [|discriminate].
  destruct Hmc as [->|[->| ->]]; reflexivity.
Qed.

Lemma get_cell_block (b : grid) (k : Z) :
  is_9x9 b = true -> in_range k -> get_cell b k = Ok (block_cells b k).
Proof.
  intros Hb Hk.
  assert (Hrow : forall i, in_range i -> get_row b i = Ok (nth (Z.to_nat i) b []))
    by (intros; now apply get_row_in_range).
  assert (Hlen : forall i, in_range i -> length (nth (Z.to_nat i) b []) = 9%nat)
    by (intros; now apply is_9x9_row_length).
  cases9 k Hk; unfold get_cell, block_cells, cell;
    cbn [Z.div Z.modulo Z.mul Z.add Z.div_eucl Z.pos_div_eucl Z.leb Z.ltb Z.compare
         Pos.compare Pos.compare_cont Z.sub Z.opp Z.pos_sub Pos.mul Pos.add Pos.succ
         Pos.pred_double Z.succ_double Z.pred_double Z.double fst snd];
    change (range 0 3) with [0; 1; 2];
    cbn [get_cell_loop flat_map map app Z.add Pos.add Pos.succ bind];
    repeat (rewrite Hrow by (unfold in_range; lia); cbn [bind]);
    (rewrite !py_slice_block by (first [apply Hlen; unfold in_range; lia | lia]));
    reflexivity.
Qed.

(** ** Candidates of a cell *)

Lemma py_remove_first (x : Z) (pre t : list Z) :
  ~ In x pre -> py_remove x (pre ++ x :: t) = Ok (pre ++ t).
Proof.
  induction pre as [|y pre IH]; intros Hnin; simpl.
  - now rewrite Z.eqb_refl.
  - destruct (y =? x) eqn:E.
    + apply Z.eqb_eq in E. exfalso. apply Hnin. now left.
    + rewrite IH by (intros H; apply Hnin; now right). reflexivity.
Qed.

Lemma remove_loop_filter (row column cells xs pre : list Z) :
  NoDup (pre ++ xs) ->
  remove_loop row column cells xs (pre ++ xs) =
  Ok (pre ++ filter (fun d => negb (py_in d row || py_in d column || py_in d cells)) xs).
Proof.
  revert pre. induction xs as [|x xs IH]; intros pre Hnd; simpl.
  - reflexivity.
  - destruct (py_in x row || py_in x column || py_in x cells) eqn:E; simpl.
    + rewrite py_remove_first by (now apply NoDup_remove_2 in Hnd; rewrite in_app_iff in Hnd; tauto).
      simpl. apply IH. now apply NoDup_remove_1 in Hnd.
    + replace (pre ++ x :: xs) with ((pre ++ [x]) ++ xs) by (now rewrite <- app_assoc).
      rewrite IH by (now rewrite <- app_assoc).
      now rewrite <- app_assoc.
Qed.

Lemma range_1_10_NoDup : NoDup (range 1 10).
Proof.
  change (range 1 10) with [1; 2; 3; 4; 5; 6; 7; 8; 9].
  repeat (constructor; [simpl; lia|]). constructor.
Qed.

Lemma get_meta_cell_index_block (i j : Z) : get_meta_cell_index i j = block_of i j.
Proof. unfold get_meta_cell_index, block_of. lia. Qed.

Lemma block_of_in_range (i j : Z) : in_range i -> in_range j -> in_range (block_of i j).
Proof.
  intros Hi Hj. unfold in_range, block_of in *. Z.div_mod_to_equations. lia.
Qed.

Lemma get_valid_entries_filled (b : grid) (i j : Z) :
  is_9x9 b = true -> in_range i -> in_range j -> cell b i j <> 0 ->
  get_valid_entries b i j = Ok [cell b i j].
Proof.
  intros Hb Hi Hj Hc. unfold get_valid_entries.
  rewrite get_in_range by assumption. cbn [bind].
  destruct (cell b i j =? 0) eqn:E; [apply Z.eqb_eq in E; contradiction|].
  reflexivity.
Qed.

Lemma get_valid_entries_empty (b : grid) (i j : Z) :
  is_9x9 b = true -> in_range i -> in_range j -> cell b i j = 0 ->
  get_valid_entries b i j = Ok (candidates b i j).
Proof.
  intros Hb Hi Hj Hc. unfold get_valid_entries.
  rewrite get_in_range by assumption. cbn [bind]. rewrite Hc.
  change (negb (0 =? 0)) with false. cbv iota.
  rewrite get_row_cells, get_column_cells by assumption. cbn [bind].
  rewrite get_meta_cell_index_block.
  rewrite get_cell_block by (auto using block_of_in_range). cbn [bind].
  apply (remove_loop_filter _ _ _ (range 1 10) []). apply range_1_10_NoDup.
Qed.

Lemma filter_StronglySorted {A : Type} (R : A -> A -> Prop) (f : A -> bool) (l : list A) :
  StronglySorted R l -> StronglySorted R (filter f l).
Proof.
  induction 1 as [|x l Hl IH Hx]; simpl; [constructor|].
  destruct (f x); [|assumption].
  constructor; [assumption|].
  rewrite Forall_forall in *. intros y Hy. apply filter_In in Hy as [Hy _]. auto.
Qed.

Lemma range_1_10_sorted : StronglySorted Z.lt (range 1 10).
Proof.
  change (range 1 10) with [1; 2; 3; 4; 5; 6; 7; 8; 9].
  repeat (constructor; [|repeat (constructor; [lia|]); constructor]). constructor.
Qed.

Lemma candidates_sorted (b : grid) (i j : Z) : StronglySorted Z.lt (candidates b i j).
Proof. apply filter_StronglySorted, range_1_10_sorted. Qed.

Lemma candidates_NoDup (b : grid) (i j : Z) : NoDup (candidates b i j).
Proof. apply NoDup_filter, range_1_10_NoDup. Qed.

Lemma candidates_digits (b : grid) (i j : Z) :
  Forall (fun d => 1 <= d <= 9) (candidates b i j).
Proof.
  apply Forall_forall. intros d Hd. apply filter_In in Hd as [Hd _].
  change (range 1 10) with [1; 2; 3; 4; 5; 6; 7; 8; 9] in Hd. simpl in Hd. lia.
Qed.

Lemma digits_ok_cell (b : grid) (i j : Z) :
  is_9x9 b = true -> digits_ok b = true -> in_range i -> in_range j ->
  0 <= cell b i j <= 9.
Proof.
  intros Hb Hd Hi Hj. unfold digits_ok in Hd. rewrite forallb_forall in Hd.
  assert (Hrow : In (nth (Z.to_nat i) b []) b)
    by (apply nth_In; rewrite (is_9x9_rows b Hb); unfold in_range in Hi; lia).
  specialize (Hd _ Hrow). rewrite forallb_forall in Hd.
  assert (Hin : In (cell b i j) (nth (Z.to_nat i) b []))
    by (apply nth_In; rewrite (is_9x9_row_length b i Hb Hi); unfold in_range in Hj; lia).
  specialize (Hd _ Hin). apply andb_true_iff in Hd as [H1 H2].
  apply Z.leb_le in H1, H2. lia.
Qed.

(** C4, as the code has it. On a well-formed grid the candidates of an
    in-range cell are a strictly ascending sequence of distinct digits in
    [1,9]. For a filled cell it is the one digit stored there (so its length
    is 1); for an empty cell it is the digits 1-9 minus those of the row,
    column and block, in ascending order. Length 1 does not imply that the
    cell is filled. *)
Theorem get_valid_entries_spec (b : grid) (i j : Z) :
  is_9x9 b = true -> digits_ok b = true -> in_range i -> in_range j ->
  exists l,
    get_valid_entries b i j = Ok l /\
    StronglySorted Z.lt l /\ NoDup l /\ Forall (fun d => 1 <= d <= 9) l /\
    (cell b i j <> 0 -> l = [cell b i j] /\ length l = 1%nat) /\
    (cell b i j = 0 -> l = candidates b i j).
Proof.
  intros Hb Hd Hi Hj.
  destruct (Z.eq_dec (cell b i j) 0) as [Hc|Hc].
  - exists (candidates b i j). split; [now apply get_valid_entries_empty|].
    split; [apply candidates_sorted|]. split; [apply candidates_NoDup|].
    split; [apply candidates_digits|]. split; [contradiction | reflexivity].
  - exists [cell b i j]. split; [now apply get_valid_entries_filled|].
    pose proof (digits_ok_cell b i j Hb Hd Hi Hj) as Hrange.
    split; [repeat constructor|]. split; [repeat constructor; simpl; tauto|].
    split; [repeat constructor; lia|]. split; [auto | contradiction].
Qed.

Lemma get_valid_entries_spec_witness :
  exists l,
    get_valid_entries puzzle_easy 0 0 = Ok l /\
    StronglySorted Z.lt l /\ NoDup l /\ Forall (fun d => 1 <= d <= 9) l /\
    (cell puzzle_easy 0 0 <> 0 -> l = [cell puzzle_easy 0 0] /\ length l = 1%nat) /\
    (cell puzzle_easy 0 0 = 0 -> l = candidates puzzle_easy 0 0).
Proof.
  apply (get_valid_entries_spec puzzle_easy 0 0);
    [reflexivity | reflexivity | unfold in_range; lia | unfold in_range; lia].
Defined.

(** C4 as stated fails in one direction: the candidate sequence of the
    empty cell (0, 0) has length 1. *)
Lemma get_valid_entries_single_candidate_empty_cell :
  cell grid_one_candidate 0 0 = 0 /\
  get_valid_entries grid_one_candidate 0 0 = Ok [9] /\
  length [9] = 1%nat.
Proof. repeat split. Qed.

(** ** The deductive decision and the deductive pass *)

Lemma make_deductive_decision_deduce_one (b : grid) (i j : Z) :
  is_9x9 b = true -> in_range i -> in_range j ->
  make_deductive_decision b i j = Ok (deduce_one b i j).
Proof.
  intros Hb Hi Hj. unfold make_deductive_decision, deduce_one.
  rewrite get_in_range by assumption. cbn [bind].
  destruct (cell b i j =? 0) eqn:E; cbn [negb]; [|reflexivity].
  apply Z.eqb_eq in E.
  rewrite get_valid_entries_empty by assumption. cbn [bind].
  pose proof (candidates_digits b i j) as Hd.
  destruct (candidates b i j) as [|e [|e' l]]; try reflexivity.
  - change (len [e] >? 1) with false. change (len [e] =? 0) with false. cbv iota.
    change (py_getitem [e] 0) with (Ok e). cbn [bind].
    rewrite insert_in_range by assumption. reflexivity.
  - replace (len (e :: e' :: l) >? 1) with true; [reflexivity|].
    symmetry. apply Z.gtb_lt. unfold len. simpl length. lia.
Qed.

Lemma deduce_one_cases (b : grid) (i j : Z) :
  (fst (deduce_one b i j) = -2 /\ snd (deduce_one b i j) = b /\ cell b i j <> 0) \/
  (fst (deduce_one b i j) = -1 /\ snd (deduce_one b i j) = b /\
   cell b i j = 0 /\ candidates b i j = []) \/
  (fst (deduce_one b i j) = 0 /\ snd (deduce_one b i j) = b /\ cell b i j = 0) \/
  (1 <= fst (deduce_one b i j) <= 9 /\
   snd (deduce_one b i j) = upd b i j (fst (deduce_one b i j)) /\ cell b i j = 0).
Proof.
  unfold deduce_one.
  destruct (cell b i j =? 0) eqn:E; cbn [negb].
  - apply Z.eqb_eq in E. pose proof (candidates_digits b i j) as Hd.
    destruct (candidates b i j) as [|e [|e' l]]; simpl.
    + right. left. auto.
    + right. right. right. inversion Hd; subst. auto.
    + right. right. left. auto.
  - apply Z.eqb_neq in E. left. auto.
Qed.

Lemma scan_cells_app (c1 c2 : list (Z * Z)) (n : Z) (b : grid) :
  scan_cells (c1 ++ c2) n b =
  ('(r, b1) <- scan_cells c1 n b ;;
   match r with
   | Contradiction => Ok (Contradiction, b1)
   | Placed m => scan_cells c2 m b1
   end).
Proof.
  revert n b. induction c1 as [|[i j] c1 IH]; intros n b; simpl; [reflexivity|].
  destruct (make_deductive_decision b i j) as [[d b1]|e]; simpl; [|reflexivity].
  destruct (d =? -1); [reflexivity|]. apply IH.
Qed.

Lemma pass_row_scan (i : Z) (js : list Z) (n : Z) (b : grid) :
  pass_row i js n b =
  ('(r, b') <- scan_cells (map (fun j => (i, j)) js) n b ;; Ok (pass_ctl r, b')).
Proof.
  revert n b. induction js as [|j js IH]; intros n b; simpl; [reflexivity|].
  destruct (make_deductive_decision b i j) as [[d b1]|e]; simpl; [|reflexivity].
  destruct (d >? 0) eqn:Hpos.
  - replace (d =? -1) with false by (symmetry; apply Z.eqb_neq; apply Z.gtb_lt in Hpos; lia).
    apply IH.
  - destruct (d =? -1); [reflexivity|]. apply IH.
Qed.

Lemma pass_rows_scan (ks : list Z) (n : Z) (b : grid) :
  pass_rows ks n b =
  ('(r, b') <- scan_cells (flat_map (fun i => map (fun j => (i, j)) (range 0 9)) ks) n b ;;
   Ok (pass_ctl r, b')).
Proof.
  revert n b. induction ks as [|i ks IH]; intros n b; [reflexivity|].
  cbn [pass_rows flat_map]. rewrite scan_cells_app, pass_row_scan.
  destruct (scan_cells (map (fun j => (i, j)) (range 0 9)) n b) as [[[|m] b1]|e];
    cbn [bind pass_ctl]; try reflexivity.
  apply IH.
Qed.

Lemma make_deductive_pass_scan (b : grid) :
  make_deductive_pass b =
  ('(r, b') <- scan_cells row_major 0 b ;; Ok (pass_code r, b')).
Proof.
  unfold make_deductive_pass, row_major. rewrite pass_rows_scan.
  destruct (scan_cells _ 0 b) as [[[|m] b1]|e]; reflexivity.
Qed.

Lemma newly_filled_cons (b b' : grid) (i j : Z) (rest : list (Z * Z)) :
  newly_filled b b' ((i, j) :: rest) =
  (if (cell b i j =? 0) && negb (cell b' i j =? 0) then 1 else 0) + newly_filled b b' rest.
Proof.
  unfold newly_filled. cbn [filter].
  destruct ((cell b i j =? 0) && negb (cell b' i j =? 0)); unfold len; simpl length; lia.
Qed.

Lemma newly_filled_ext (b0 b1 b' : grid) (cells : list (Z * Z)) :
  (forall i j, In (i, j) cells -> cell b0 i j = cell b1 i j) ->
  newly_filled b0 b' cells = newly_filled b1 b' cells.
Proof.
  intros H. unfold newly_filled. f_equal. apply filter_ext_in.
  intros [i j] Hin. now rewrite (H i j Hin).
Qed.

Lemma newly_filled_nonneg (b b' : grid) (cells : list (Z * Z)) :
  0 <= newly_filled b b' cells.
Proof. unfold newly_filled. apply len_nonneg. Qed.

Lemma scan_cells_sound (cells : list (Z * Z)) :
  Forall (fun c => in_range (fst c) /\ in_range (snd c)) cells -> NoDup cells ->
  forall (n : Z) (b : grid),
  is_9x9 b = true ->
  exists r b',
    scan_cells cells n b = Ok (r, b') /\
    is_9x9 b' = true /\
    keeps_filled b b' /\
    (forall i j, in_range i -> in_range j -> ~ In (i, j) cells -> cell b' i j = cell b i j) /\
    match r with
    | Contradiction =>
        exists i j, In (i, j) cells /\ cell b' i j = 0 /\ candidates b' i j = []
    | Placed m => m = n + newly_filled b b' cells
    end.
Proof.
  induction cells as [|[i j] rest IH]; intros Hr Hnd n b Hb.
  - exists (Placed n), b. split; [reflexivity|]. split; [exact Hb|].
    split; [intros ? ? ? ? ?; reflexivity|]. split; [intros; reflexivity|].
    unfold newly_filled. simpl. unfold len. simpl. lia.
  - inversion Hr as [|? ? [Hi Hj] Hr']; subst. simpl in Hi, Hj.
    inversion Hnd as [|? ? Hnin Hnd']; subst.
    cbn [scan_cells]. rewrite make_deductive_decision_deduce_one by assumption.
    destruct (deduce_one b i j) as [d b1] eqn:Hd.
    pose proof (deduce_one_cases b i j) as Hcases. rewrite Hd in Hcases.
    cbn [fst snd] in Hcases. cbn [bind].
    destruct Hcases as [(-> & -> & Hc)|[(-> & -> & Hc & Hcand)|[(-> & -> & Hc)|(Hd19 & -> & Hc)]]].
    + (* filled *)
      change (-2 =? -1) with false. change (-2 >? 0) with false. cbv iota.
      destruct (IH Hr' Hnd' n b Hb) as (r & b' & Hs & Hb' & Hk & Hout & Hres).
      exists r, b'. split; [exact Hs|]. split; [exact Hb'|]. split; [exact Hk|].
      split; [intros i' j' Hi' Hj' Hn; apply Hout; auto; intros Hin; apply Hn; now right|].
      destruct r as [|m].
      * destruct Hres as (i' & j' & Hin & H0 & Hcd). exists i', j'. split; [now right | auto].
      * rewrite newly_filled_cons.
        replace (cell b i j =? 0) with false by (symmetry; now apply Z.eqb_neq).
        cbn [andb]. lia.
    + (* contradiction *)
      change (-1 =? -1) with true. cbv iota.
      exists Contradiction, b. split; [reflexivity|]. split; [exact Hb|].
      split; [intros ? ? ? ? ?; reflexivity|]. split; [reflexivity|].
      exists i, j. split; [now left | auto].
    + (* ambiguous *)
      change (0 =? -1) with false. change (0 >? 0) with false. cbv iota.
      destruct (IH Hr' Hnd' n b Hb) as (r & b' & Hs & Hb' & Hk & Hout & Hres).
      exists r, b'. split; [exact Hs|]. split; [exact Hb'|]. split; [exact Hk|].
      split; [intros i' j' Hi' Hj' Hn; apply Hout; auto; intros Hin; apply Hn; now right|].
      destruct r as [|m].
      * destruct Hres as (i' & j' & Hin & H0 & Hcd). exists i', j'. split; [now right | auto].
      * rewrite newly_filled_cons.
        rewrite (Hout i j Hi Hj Hnin), Hc. cbn. lia.
    + (* placed *)
      replace (d =? -1) with false by (symmetry; apply Z.eqb_neq; lia).
      replace (d >? 0) with true by (symmetry; apply Z.gtb_lt; lia).
      assert (Hb1 : is_9x9 (upd b i j d) = true) by (now apply upd_is_9x9).
      destruct (IH Hr' Hnd' (n + 1) (upd b i j d) Hb1)
        as (r & b' & Hs & Hb' & Hk & Hout & Hres).
      assert (Hother : forall i' j', in_range i' -> in_range j' -> (i', j') <> (i, j) ->
                                     cell (upd b i j d) i' j' = cell b i' j')
        by (intros; now apply cell_upd_other).
      assert (Hhere : cell b' i j = d)
        by (rewrite (Hout i j Hi Hj Hnin); now apply cell_upd_same).
      exists r, b'. split; [exact Hs|]. split; [exact Hb'|]. split; [|split].
      * intros i' j' Hi' Hj' Hne.
        assert (Hdiff : (i', j') <> (i, j)) by (intros Heq; injection Heq as -> ->; contradiction).
        rewrite <- (Hother i' j' Hi' Hj' Hdiff) in *. now apply Hk.
      * intros i' j' Hi' Hj' Hn.
        rewrite Hout by (auto; intros Hin; apply Hn; now right).
        apply Hother; auto. intros Heq. apply Hn. left. now symmetry.
      * destruct r as [|m].
        -- destruct Hres as (i' & j' & Hin & H0 & Hcd). exists i', j'. split; [now right | auto].
        -- rewrite newly_filled_cons, Hc, Hhere.
           replace (d =? 0) with false by (symmetry; apply Z.eqb_neq; lia).
           cbn [andb negb Z.eqb].
           rewrite (newly_filled_ext b (upd b i j d) b' rest); [lia|].
           intros i' j' Hin. symmetry. rewrite Forall_forall in Hr'.
           destruct (Hr' _ Hin) as [Hi' Hj']. apply Hother; auto.
           intros Heq. rewrite Heq in Hin. contradiction.
Qed.

Lemma In_range_0_9 (i : Z) : In i (range 0 9) <-> in_range i.
Proof.
  change (range 0 9) with [0; 1; 2; 3; 4; 5; 6; 7; 8]. unfold in_range. simpl. lia.
Qed.

Lemma In_row_major (i j : Z) : In (i, j) row_major <-> in_range i /\ in_range j.
Proof.
  unfold row_major. rewrite in_flat_map. split.
  - intros (x & Hx & Hin). apply in_map_iff in Hin as (y & Heq & Hy).
    injection Heq as <- <-. now rewrite <- !In_range_0_9.
  - intros [Hi Hj]. exists i. split; [now apply In_range_0_9|].
    apply in_map_iff. exists j. split; [reflexivity | now apply In_range_0_9].
Qed.

Lemma row_major_in_range :
  Forall (fun c => in_range (fst c) /\ in_range (snd c)) row_major.
Proof. apply Forall_forall. intros [i j] Hin. now apply In_row_major. Qed.

Lemma row_major_NoDup : NoDup row_major.
Proof.
  assert (H : nodup cell_eq_dec row_major = row_major) by (vm_compute; reflexivity).
  rewrite <- H. apply NoDup_nodup.
Qed.

Lemma row_major_length : length row_major = 81%nat.
Proof. reflexivity. Qed.

Lemma newly_filled_zero (b b' : grid) (i j : Z) (cells : list (Z * Z)) :
  newly_filled b b' cells = 0 -> In (i, j) cells -> cell b i j = 0 -> cell b' i j = 0.
Proof.
  unfold newly_filled. intros H Hin Hc.
  destruct (Z.eq_dec (cell b' i j) 0) as [|Hne]; [assumption|].
  assert (Hf : In (i, j) (filter (fun '(i, j) => (cell b i j =? 0) && negb (cell b' i j =? 0)) cells)).
  { apply filter_In. split; [assumption|]. rewrite Hc.
    replace (cell b' i j =? 0) with false by (symmetry; now apply Z.eqb_neq). reflexivity. }
  destruct (filter _ cells); [contradiction|]. unfold len in H. simpl in H. lia.
Qed.

Lemma spec_pass_deduce_one (i j : Z) (rest : list (Z * Z)) (placed : Z) (b : grid) :
  spec_pass ((i, j) :: rest) placed b =
  (if fst (deduce_one b i j) =? -1 then (Contradiction, snd (deduce_one b i j))
   else spec_pass rest
          (if fst (deduce_one b i j) >? 0 then placed + 1 else placed)
          (snd (deduce_one b i j))).
Proof.
  cbn [spec_pass]. unfold deduce_one.
  destruct (negb (cell b i j =? 0)); [reflexivity|].
  pose proof (candidates_digits b i j) as Hd.
  destruct (candidates b i j) as [|e [|e' l]]; cbn [fst snd]; try reflexivity.
  apply Forall_inv in Hd.
  replace (e =? -1) with false by (symmetry; apply Z.eqb_neq; lia).
  replace (e >? 0) with true by (symmetry; apply Z.gtb_lt; lia).
  reflexivity.
Qed.

Lemma scan_cells_spec_pass (cells : list (Z * Z)) :
  Forall (fun c => in_range (fst c) /\ in_range (snd c)) cells ->
  forall (placed : Z) (b : grid),
  is_9x9 b = true -> scan_cells cells placed b = Ok (spec_pass cells placed b).
Proof.
  induction 1 as [|[i j] rest [Hi Hj] Hrest IH]; intros placed b Hb; [reflexivity|].
  cbn [fst snd] in Hi, Hj. rewrite spec_pass_deduce_one. cbn [scan_cells].
  rewrite make_deductive_decision_deduce_one by assumption.
  assert (Hb1 : is_9x9 (snd (deduce_one b i j)) = true).
  { destruct (deduce_one_cases b i j) as [(_ & -> & _)|[(_ & -> & _)|[(_ & -> & _)|(_ & -> & _)]]];
      auto using upd_is_9x9. }
  destruct (deduce_one b i j) as [decision b1]. cbn [bind fst snd] in *.
  destruct (decision =? -1); [reflexivity|]. now apply IH.
Qed.

Lemma spec_pass_app (c1 c2 : list (Z * Z)) :
  forall (placed : Z) (b : grid),
  spec_pass (c1 ++ c2) placed b =
  match spec_pass c1 placed b with
  | (Contradiction, b1) => (Contradiction, b1)
  | (Placed m, b1) => spec_pass c2 m b1
  end.
Proof.
  induction c1 as [|[i j] c1 IH]; intros placed b; [reflexivity|].
  cbn [app]. rewrite !spec_pass_deduce_one.
  destruct (fst (deduce_one b i j) =? -1); [reflexivity | apply IH].
Qed.

Lemma spec_pass_contradiction (cells : list (Z * Z)) :
  forall (placed : Z) (b b' : grid),
  spec_pass cells placed b = (Contradiction, b') ->
  exists before i j after n,
    cells = before ++ (i, j) :: after /\
    spec_pass before placed b = (Placed n, b') /\
    cell b' i j = 0 /\ candidates b' i j = [].
Proof.
  induction cells as [|[i j] rest IH]; intros placed b b' H; [discriminate|].
  assert (Hstep : forall p b1,
            spec_pass rest p b1 = (Contradiction, b') ->
            spec_pass [(i, j)] placed b = (Placed p, b1) ->
            exists before i0 j0 after n,
              (i, j) :: rest = before ++ (i0, j0) :: after /\
              spec_pass before placed b = (Placed n, b') /\
              cell b' i0 j0 = 0 /\ candidates b' i0 j0 = []).
  { intros p b1 Hr H1. destruct (IH p b1 b' Hr) as (before & i0 & j0 & after & n & -> & Hs & Hc).
    exists ((i, j) :: before), i0, j0, after, n. split; [reflexivity|]. split; [|exact Hc].
    change ((i, j) :: before) with ([(i, j)] ++ before). rewrite spec_pass_app, H1. exact Hs. }
  cbn [spec_pass] in H, Hstep.
  destruct (negb (cell b i j =? 0)) eqn:Hcell; [now apply (Hstep placed b)|].
  destruct (candidates b i j) as [|e [|e' l]] eqn:Hcand.
  - injection H as <-. exists [], i, j, rest, placed. split; [reflexivity|].
    split; [reflexivity|]. split; [|exact Hcand].
    apply negb_false_iff in Hcell. now apply Z.eqb_eq.
  - now apply (Hstep (placed + 1) (upd b i j e)).
  - now apply (Hstep placed b).
Qed.

(** C6. The pass is the scan of the 81 cells in row-major order of the
    specification, [spec_pass], which is stated on the cells and their
    candidates alone. On a 9x9 grid the pass returns what that scan gives.
    When the scan reaches an empty cell without candidate, the pass returns
    -1 at once: the grid it leaves is the grid as it stood at that cell,
    with the digits written earlier in the pass and nothing of the cells
    that follow; a result of -1 arises in no other way. Otherwise the pass
    returns the number of cells it placed, that is, the number of cells
    empty before and filled after, and a count of zero leaves the grid as
    it was. In every case the grid stays 9x9 and keeps its filled cells. *)
Theorem make_deductive_pass_spec (b : grid) :
  is_9x9 b = true ->
  length row_major = 81%nat /\
  make_deductive_pass b =
    Ok (pass_code (fst (spec_pass row_major 0 b)), snd (spec_pass row_major 0 b)) /\
  (forall before i j after n b1,
     row_major = before ++ (i, j) :: after ->
     spec_pass before 0 b = (Placed n, b1) ->
     cell b1 i j = 0 -> candidates b1 i j = [] ->
     make_deductive_pass b = Ok (-1, b1)) /\
  (forall b',
     make_deductive_pass b = Ok (-1, b') ->
     exists before i j after n,
       row_major = before ++ (i, j) :: after /\
       spec_pass before 0 b = (Placed n, b') /\
       cell b' i j = 0 /\ candidates b' i j = []) /\
  (forall n b',
     make_deductive_pass b = Ok (n, b') -> n <> -1 ->
     n = newly_filled b b' row_major /\ 0 <= n /\ (n = 0 -> b' = b)) /\
  exists n b',
    make_deductive_pass b = Ok (n, b') /\ is_9x9 b' = true /\ keeps_filled b b'.
Proof.
  intros Hb.
  destruct (scan_cells_sound row_major row_major_in_range row_major_NoDup 0 b Hb)
    as (r & b2 & Hs & Hb2 & Hk & _ & Hres).
  pose proof (scan_cells_spec_pass row_major row_major_in_range 0 b Hb) as Hspec.
  assert (Hpass : make_deductive_pass b = Ok (pass_code r, b2))
    by (rewrite make_deductive_pass_scan, Hs; reflexivity).
  assert (Hsp : spec_pass row_major 0 b = (r, b2)) by congruence.
  split; [apply row_major_length|].
  split; [rewrite Hsp; exact Hpass|].
  split; [|split; [|split]].
  - intros before i j after n b1 Hsplit Hbefore Hc Hcand.
    rewrite make_deductive_pass_scan, Hspec. cbn [bind].
    rewrite Hsplit, spec_pass_app, Hbefore. cbn [spec_pass].
    rewrite Hc, Hcand. reflexivity.
  - intros b' H. rewrite Hpass in H. injection H as Hcode <-.
    destruct r as [|m].
    + now apply spec_pass_contradiction.
    + cbn [pass_code] in Hcode. pose proof (newly_filled_nonneg b b2 row_major). lia.
  - intros n b' H Hn. rewrite Hpass in H. injection H as <- <-.
    destruct r as [|m]; [now contradiction Hn|]. cbn [pass_code].
    rewrite Z.add_0_l in Hres. split; [exact Hres|].
    split; [rewrite Hres; apply newly_filled_nonneg|].
    intros Hm. symmetry. apply grid_ext; try assumption.
    intros i j Hi Hj. destruct (Z.eq_dec (cell b i j) 0) as [Hc|Hc].
    + rewrite Hc. symmetry. apply (newly_filled_zero b b2 i j row_major).
      * rewrite <- Hres. exact Hm.
      * apply (proj2 (In_row_major i j)). split; assumption.
      * exact Hc.
    + symmetry. now apply Hk.
  - exists (pass_code r), b2. auto.
Qed.

Lemma make_deductive_pass_spec_witness :
  (length row_major = 81%nat /\
   make_deductive_pass puzzle_easy =
     Ok (pass_code (fst (spec_pass row_major 0 puzzle_easy)),
         snd (spec_pass row_major 0 puzzle_easy)) /\
   (forall before i j after n b1,
      row_major = before ++ (i, j) :: after ->
      spec_pass before 0 puzzle_easy = (Placed n, b1) ->
      cell b1 i j = 0 -> candidates b1 i j = [] ->
      make_deductive_pass puzzle_easy = Ok (-1, b1)) /\
   (forall b',
      make_deductive_pass puzzle_easy = Ok (-1, b') ->
      exists before i j after n,
        row_major = before ++ (i, j) :: after /\
        spec_pass before 0 puzzle_easy = (Placed n, b') /\
        cell b' i j = 0 /\ candidates b' i j = []) /\
   (forall n b',
      make_deductive_pass puzzle_easy = Ok (n, b') -> n <> -1 ->
      n = newly_filled puzzle_easy b' row_major /\ 0 <= n /\ (n = 0 -> b' = puzzle_easy)) /\
   exists n b',
     make_deductive_pass puzzle_easy = Ok (n, b') /\ is_9x9 b' = true /\
     keeps_filled puzzle_easy b') /\
  make_deductive_pass grid_dead_after_write = Ok (-1, upd grid_dead_after_write 0 0 1).
Proof.
  split.
  - apply (make_deductive_pass_spec puzzle_easy). reflexivity.
  - apply (proj1 (proj2 (proj2 (make_deductive_pass_spec grid_dead_after_write eq_refl)))
             (map (fun j => (0, j)) (range 0 9)) 1 0 (skipn 10 row_major) 1
             (upd grid_dead_after_write 0 0 1)); reflexivity.
Defined.

(** ** Copies of a grid *)

Lemma zero_board_9x9 : is_9x9 zero_board = true.
Proof. reflexivity. Qed.

Lemma copy_row_spec (other : grid) (i : Z) (js : list Z) :
  in_range i -> Forall in_range js ->
  forall nb, is_9x9 nb = true ->
  match copy_row other nb i js with
  | Ok nb' =>
      is_9x9 nb' = true /\
      (forall j, In j js -> get other i j = Ok (cell nb' i j)) /\
      (forall i' j', in_range i' -> in_range j' -> ~ (i' = i /\ In j' js) ->
                     cell nb' i' j' = cell nb i' j')
  | Raise e => exists j, In j js /\ get other i j = Raise e
  end.
Proof.
  intros Hi Hjs. induction Hjs as [|j js Hj Hjs IH]; intros nb Hnb; cbn [copy_row].
  - split; [exact Hnb|]. split; [intros j []|reflexivity].
  - destruct (get other i j) as [v|e] eqn:Hg; cbn [bind].
    2:{ exists j. split; [now left | exact Hg]. }
    rewrite insert_in_range by assumption. cbn [bind].
    assert (Hnb1 : is_9x9 (upd nb i j v) = true) by (now apply upd_is_9x9).
    specialize (IH _ Hnb1).
    destruct (copy_row other (upd nb i j v) i js) as [nb'|e].
    + destruct IH as (H9 & Hcells & Hframe). split; [exact H9|]. split.
      * intros j' [<-|Hin]; [|now apply Hcells].
        destruct (in_dec Z.eq_dec j js) as [Hin|Hnin]; [now apply Hcells|].
        rewrite Hframe by (auto; tauto). rewrite cell_upd_same by assumption. exact Hg.
      * intros i' j' Hi' Hj' Hn.
        rewrite Hframe by (first [assumption | intros [-> Hin]; apply Hn; split; [reflexivity | now right]]).
        apply cell_upd_other; auto.
        intros Heq. injection Heq as -> ->. apply Hn. split; [reflexivity | now left].
    + destruct IH as (j' & Hin & Hr). exists j'. split; [now right | exact Hr].
Qed.

Lemma copy_rows_spec (other : grid) (ks : list Z) :
  Forall in_range ks ->
  forall nb, is_9x9 nb = true ->
  match copy_rows other nb ks with
  | Ok nb' =>
      is_9x9 nb' = true /\
      (forall i j, In i ks -> in_range j -> get other i j = Ok (cell nb' i j)) /\
      (forall i' j', in_range i' -> in_range j' -> ~ In i' ks -> cell nb' i' j' = cell nb i' j')
  | Raise e => exists i j, In i ks /\ in_range j /\ get other i j = Raise e
  end.
Proof.
  assert (Hall : Forall in_range (range 0 9))
    by (apply Forall_forall; intros j; apply In_range_0_9).
  intros Hks. induction Hks as [|i ks Hi Hks IH]; intros nb Hnb; cbn [copy_rows].
  - split; [exact Hnb|]. split; [intros i j []|reflexivity].
  - pose proof (copy_row_spec other i (range 0 9) Hi Hall nb Hnb) as Hrow.
    destruct (copy_row other nb i (range 0 9)) as [nb1|e]; cbn [bind].
    2:{ destruct Hrow as (j & Hin & Hr). exists i, j.
        split; [now left|]. split; [now apply In_range_0_9 | exact Hr]. }
    destruct Hrow as (Hnb1 & Hcells1 & Hframe1).
    specialize (IH _ Hnb1).
    destruct (copy_rows other nb1 ks) as [nb'|e].
    + destruct IH as (H9 & Hcells & Hframe). split; [exact H9|]. split.
      * intros i' j [<-|Hin] Hj; [|now apply Hcells].
        destruct (in_dec Z.eq_dec i ks) as [Hin|Hnin]; [now apply Hcells|].
        rewrite Hframe by auto. apply Hcells1. now apply In_range_0_9.
      * intros i' j' Hi' Hj' Hn.
        rewrite Hframe by (auto; intros Hin; apply Hn; now right).
        apply Hframe1; auto. intros [-> _]. apply Hn. now left.
    + destruct IH as (i' & j & Hin & Hj & Hr). exists i', j. split; [now right | auto].
Qed.

(** A copy that succeeds is a 9x9 grid with the cells of the original. *)
Lemma copy_board_cells (other nb : grid) :
  copy_board other = Ok nb ->
  is_9x9 nb = true /\
  forall i j, in_range i -> in_range j -> get other i j = Ok (cell nb i j).
Proof.
  intros H. unfold copy_board in H.
  assert (Hall : Forall in_range (range 0 9))
    by (apply Forall_forall; intros j; apply In_range_0_9).
  pose proof (copy_rows_spec other (range 0 9) Hall zero_board zero_board_9x9) as Hs.
  rewrite H in Hs. destruct Hs as (H9 & Hcells & _). split; [exact H9|].
  intros i j Hi Hj. apply Hcells; [now apply In_range_0_9 | exact Hj].
Qed.

(** The copy of a 9x9 grid is that grid. *)
Lemma copy_board_9x9 (g : grid) : is_9x9 g = true -> copy_board g = Ok g.
Proof.
  intros Hg.
  assert (Hall : Forall in_range (range 0 9))
    by (apply Forall_forall; intros j; apply In_range_0_9).
  pose proof (copy_rows_spec g (range 0 9) Hall zero_board zero_board_9x9) as Hs.
  unfold copy_board. destruct (copy_rows g zero_board (range 0 9)) as [nb|e].
  - destruct Hs as (H9 & Hcells & _). f_equal. apply grid_ext; try assumption.
    intros i j Hi Hj.
    assert (Hc : get g i j = Ok (cell nb i j)) by (apply Hcells; [now apply In_range_0_9 | exact Hj]).
    rewrite get_in_range in Hc by assumption. now injection Hc as <-.
  - destruct Hs as (i & j & Hin & Hj & Hr). apply In_range_0_9 in Hin.
    rewrite get_in_range in Hr by assumption. discriminate.
Qed.

Lemma duplicate_board_copy (b : grid) : duplicate_board b = copy_board b.
Proof. reflexivity. Qed.

(** ** The search stack *)

Lemma peek_nil (s : Board) : stack s = [] -> peek s = NegOne.
Proof. unfold peek. intros ->. reflexivity. Qed.

Lemma peek_cons (s : Board) (f : TempBoard) (below : list TempBoard) :
  stack s = f :: below -> peek s = Frame f.
Proof.
  unfold peek. intros ->.
  replace (len (f :: below) =? 0) with false; [reflexivity|].
  symmetry. apply Z.eqb_neq. unfold len. simpl length. lia.
Qed.

Lemma pop_cons (b : grid) (f : TempBoard) (below : list TempBoard) :
  pop (mkBoard b (f :: below)) = (Frame f, mkBoard b below).
Proof.
  unfold pop. cbn [stack board].
  replace (len (f :: below) =? 0) with false; [reflexivity|].
  symmetry. apply Z.eqb_neq. unfold len. simpl length. lia.
Qed.

Lemma del_first_entry_inv (s s1 : Board) :
  del_first_entry s = Ok s1 ->
  exists f below x ve',
    stack s = f :: below /\ valid_entries f = x :: ve' /\
    s1 = mkBoard (board s) (set_valid_entries f ve' :: below).
Proof.
  unfold del_first_entry. destruct (stack s) as [|f below] eqn:Hs.
  - rewrite (peek_nil s Hs). discriminate.
  - rewrite (peek_cons s f below Hs). cbn [attr bind].
    destruct (valid_entries f) as [|x ve'] eqn:Hve; [discriminate|].
    cbn [py_del0 bind]. intros H. injection H as <-.
    exists f, below, x, ve'. auto.
Qed.

Lemma same_frame_refl (f : TempBoard) : same_frame f f.
Proof. unfold same_frame. auto. Qed.

Lemma same_frame_set_valid_entries (f : TempBoard) (ve : list Z) :
  same_frame f (set_valid_entries f ve).
Proof. unfold same_frame. auto. Qed.

Lemma frames_from_refl (stk : list TempBoard) : frames_from stk stk.
Proof.
  apply Forall_forall. intros g Hg. exists g. split; [assumption | apply same_frame_refl].
Qed.

Lemma frames_from_trans (s1 s2 s3 : list TempBoard) :
  frames_from s1 s2 -> frames_from s2 s3 -> frames_from s1 s3.
Proof.
  unfold frames_from. rewrite !Forall_forall. intros H12 H23 g Hg.
  destruct (H23 g Hg) as (f & Hf & Hfg). destruct (H12 f Hf) as (e & He & Hef).
  exists e. split; [assumption|]. unfold same_frame in *. intuition congruence.
Qed.

Lemma frames_from_tail (f : TempBoard) (below : list TempBoard) :
  frames_from (f :: below) below.
Proof.
  apply Forall_forall. intros g Hg. exists g. split; [now right | apply same_frame_refl].
Qed.

Lemma frames_from_head (f f' : TempBoard) (below : list TempBoard) :
  same_frame f f' -> frames_from (f :: below) (f' :: below).
Proof.
  intros Hf. constructor.
  - exists f. split; [now left | assumption].
  - apply Forall_forall. intros g Hg. exists g. split; [now right | apply same_frame_refl].
Qed.

Lemma del_first_entry_frames (s s1 : Board) :
  del_first_entry s = Ok s1 ->
  board s1 = board s /\ frames_from (stack s) (stack s1) /\ stack s1 <> [].
Proof.
  intros H. apply del_first_entry_inv in H as (f & below & x & ve' & Hs & Hve & ->).
  cbn [board stack]. split; [reflexivity|]. rewrite Hs.
  split; [apply frames_from_head, same_frame_set_valid_entries | discriminate].
Qed.

(** Where the loop of [roll_back] stops: on a frame that still has a
    candidate, taken from the stack it started with. *)
Lemma roll_back_while_frames (below : list TempBoard) :
  forall (b : grid) (top : TempBoard) (s2 : Board),
  roll_back_while b top below = Ok s2 ->
  exists g rest,
    stack s2 = g :: rest /\ valid_entries g <> [] /\
    frames_from (top :: below) (stack s2).
Proof.
  induction below as [|f below IH]; intros b top s2; cbn [roll_back_while].
  - destruct (len (valid_entries top) =? 0) eqn:E.
    + rewrite pop_cons. unfold del_first_entry. rewrite peek_nil by reflexivity. discriminate.
    + intros H. injection H as <-. exists top, []. cbn [stack].
      split; [reflexivity|]. split; [|apply frames_from_refl].
      intros Hnil. rewrite Hnil in E. discriminate.
  - destruct (len (valid_entries top) =? 0) eqn:E.
    + rewrite pop_cons.
      destruct (del_first_entry (mkBoard b (f :: below))) as [s1|e] eqn:Hdel; [|discriminate].
      apply del_first_entry_inv in Hdel as (f0 & below0 & x & ve' & Hs & Hve & ->).
      cbn [stack board] in *. injection Hs as <- <-. cbn [bind].
      erewrite peek_cons by reflexivity. cbn [attr bind tb_board set_valid_entries].
      destruct (copy_board (tb_board f)) as [b'|e]; [|discriminate]. cbn [bind].
      intros H. apply IH in H as (g & rest & Hstk & Hne & Hfrom).
      exists g, rest. split; [exact Hstk|]. split; [exact Hne|].
      eapply frames_from_trans; [|exact Hfrom].
      eapply frames_from_trans; [apply frames_from_tail|].
      apply frames_from_head, same_frame_set_valid_entries.
    + intros H. injection H as <-. exists top, (f :: below). cbn [stack].
      split; [reflexivity|]. split; [|apply frames_from_refl].
      intros Hnil. rewrite Hnil in E. discriminate.
Qed.

Lemma roll_back_frames (s s' : Board) :
  roll_back s = Ok s' ->
  exists g rest,
    stack s' = g :: rest /\ valid_entries g <> [] /\
    copy_board (tb_board g) = Ok (board s') /\
    frames_from (stack s) (stack s').
Proof.
  unfold roll_back. intros H.
  destruct (del_first_entry s) as [s1|e] eqn:Hdel; [|discriminate].
  apply del_first_entry_frames in Hdel as (Hb1 & Hfrom1 & Hne1). cbn [bind] in H.
  destruct (stack s1) as [|top below] eqn:Hs1; [contradiction|].
  destruct (roll_back_while (board s1) top below) as [s2|e] eqn:Hw; [|discriminate].
  apply roll_back_while_frames in Hw as (g & rest & Hs2 & Hne & Hfrom2). cbn [bind] in H.
  rewrite (peek_cons s2 g rest Hs2) in H. cbn [attr bind] in H.
  destruct (copy_board (tb_board g)) as [b'|e] eqn:Hcopy; [|discriminate].
  cbn [bind] in H. injection H as <-. cbn [set_board stack board].
  exists g, rest. split; [exact Hs2|]. split; [exact Hne|]. split; [exact Hcopy|].
  eapply frames_from_trans; eassumption.
Qed.

(** C7. When [roll_back] returns, the board is the snapshot of a frame
    that was on the stack before the call: a 9x9 grid whose 81 cells are
    those of the snapshot, and the snapshot itself as soon as that is a 9x9
    grid, as every snapshot taken by [push_state_to_stack] is. *)
Theorem roll_back_restores_snapshot (s s' : Board) :
  roll_back s = Ok s' ->
  exists f,
    In f (stack s) /\
    is_9x9 (board s') = true /\
    (forall i j, in_range i -> in_range j ->
                 get (tb_board f) i j = Ok (cell (board s') i j)) /\
    (is_9x9 (tb_board f) = true -> board s' = tb_board f).
Proof.
  intros H. apply roll_back_frames in H as (g & rest & Hs' & _ & Hcopy & Hfrom).
  unfold frames_from in Hfrom. rewrite Hs' in Hfrom.
  inversion Hfrom as [|? ? (f & Hin & Hbf & _ & _) _]; subst.
  exists f. split; [exact Hin|]. rewrite Hbf.
  destruct (copy_board_cells _ _ Hcopy) as [H9 Hcells].
  split; [exact H9|]. split; [exact Hcells|].
  intros Hg. rewrite (copy_board_9x9 _ Hg) in Hcopy. now injection Hcopy as <-.
Qed.

Lemma roll_back_restores_snapshot_witness :
  exists f,
    In f (stack state_first_guess) /\
    is_9x9 (board state_rolled_back) = true /\
    (forall i j, in_range i -> in_range j ->
                 get (tb_board f) i j = Ok (cell (board state_rolled_back) i j)) /\
    (is_9x9 (tb_board f) = true -> board state_rolled_back = tb_board f).
Proof.
  apply (roll_back_restores_snapshot state_first_guess state_rolled_back).
  vm_compute. reflexivity.
Defined.

Lemma push_state_to_stack_frame (s : Board) (i j r : Z) (s' : Board) :
  push_state_to_stack s i j = Ok (r, s') ->
  exists f,
    s' = mkBoard (board s) (f :: stack s) /\
    i_guess f = i /\ j_guess f = j /\
    get_valid_entries (board s) i j = Ok (valid_entries f) /\
    copy_board (board s) = Ok (tb_board f) /\
    is_9x9 (tb_board f) = true.
Proof.
  unfold push_state_to_stack. intros H.
  destruct (get_valid_entries (board s) i j) as [ve|e] eqn:Hve; [|discriminate].
  cbn [bind] in H. rewrite duplicate_board_copy in H.
  destruct (copy_board (board s)) as [cb|e] eqn:Hcb; [|discriminate].
  cbn [bind] in H.
  exists (mkTempBoard cb i j ve). cbn [i_guess j_guess valid_entries tb_board].
  split; [destruct (len ve =? 0); now injection H as _ <-|].
  repeat split; try reflexivity. now apply copy_board_cells in Hcb.
Qed.

(** ** A guess *)

(** The optional push leaves the board alone; the frame it pushes holds a
    copy of the board and the guessed cell. *)
Lemma push_if_new_spec (s : Board) (i j : Z) (s1 : Board) :
  push_if_new s i j = Ok s1 ->
  board s1 = board s /\
  (s1 = s \/
   exists f, s1 = mkBoard (board s) (f :: stack s) /\
             i_guess f = i /\ j_guess f = j /\
             copy_board (board s) = Ok (tb_board f)).
Proof.
  unfold push_if_new. intros H.
  destruct (if len (stack s) =? 0 then Ok true
            else other <- attr tb_board (peek s) ;;
                 eq <- is_equal_to_board (board s) other ;; Ok (negb eq))
    as [do_push|e]; [|discriminate].
  cbn [bind] in H. destruct do_push; [|injection H as <-; auto].
  destruct (push_state_to_stack s i j) as [[r0 s0]|e] eqn:Hp; [|discriminate].
  cbn [bind] in H. injection H as <-.
  apply push_state_to_stack_frame in Hp as (f & -> & Hfi & Hfj & _ & Hcopy & _).
  split; [reflexivity|]. right. exists f. auto.
Qed.

(** C10. When the candidate list that [make_guess] reads from the top
    frame (after the push, if it pushes) is empty, it returns -1 and the
    board is the one it was called with: nothing is written. *)
Theorem make_guess_empty_candidates (s : Board) (i j : Z) (s1 : Board) :
  push_if_new s i j = Ok s1 ->
  attr valid_entries (peek s1) = Ok [] ->
  make_guess s i j = Ok (Some (-1), s1) /\ board s1 = board s.
Proof.
  intros Hpush Hempty. split.
  - unfold make_guess. rewrite Hpush. cbn [bind]. rewrite Hempty. reflexivity.
  - now apply push_if_new_spec in Hpush.
Qed.

Lemma make_guess_empty_candidates_witness :
  make_guess (new_board grid_no_candidate) 0 0 = Ok (Some (-1), state_no_guess) /\
  board state_no_guess = board (new_board grid_no_candidate).
Proof.
  apply (make_guess_empty_candidates (new_board grid_no_candidate) 0 0 state_no_guess);
    reflexivity.
Defined.

(** ** Validation *)

Lemma py_in_In (x : Z) (l : list Z) : py_in x l = true <-> In x l.
Proof.
  unfold py_in. rewrite existsb_exists. split.
  - intros (y & Hy & E). apply Z.eqb_eq in E. now subst.
  - intros H. exists x. split; [assumption | apply Z.eqb_refl].
Qed.

Lemma py_count_nonneg (x : Z) (l : list Z) : 0 <= py_count x l.
Proof. induction l as [|y t IH]; simpl; [lia|]. destruct (y =? x); lia. Qed.

Lemma py_count_zero (x : Z) (l : list Z) : py_count x l = 0 <-> ~ In x l.
Proof.
  induction l as [|y t IH]; simpl; [tauto|].
  pose proof (py_count_nonneg x t) as Hn.
  destruct (y =? x) eqn:E; [apply Z.eqb_eq in E | apply Z.eqb_neq in E].
  - split; [lia | intros H; exfalso; apply H; now left].
  - rewrite Z.add_0_l, IH. tauto.
Qed.

Lemma is_list_valid_loop_cons (key count : Z) (items : list (Z * Z)) :
  is_list_valid_loop ((key, count) :: items) =
  negb (negb (key =? 0) && (count >? 1)) && is_list_valid_loop items.
Proof. simpl. destruct (negb (key =? 0) && (count >? 1)); reflexivity. Qed.

Lemma dict_set_valid (count_of : Z -> Z) (d : list (Z * Z)) (k : Z) :
  Forall (fun kv => snd kv = count_of (fst kv)) d ->
  Forall (fun kv => snd kv = count_of (fst kv)) (dict_set d k (count_of k)) /\
  is_list_valid_loop (dict_set d k (count_of k)) =
  is_list_valid_loop d && key_ok count_of k.
Proof.
  induction d as [|[k' v'] d IH]; intros Hd.
  - split; [repeat constructor|]. cbn [dict_set]. rewrite is_list_valid_loop_cons.
    unfold key_ok. simpl. now rewrite andb_true_r.
  - inversion Hd as [|? ? Hv Hd']; subst. cbn [fst snd] in Hv. subst v'.
    cbn [dict_set]. destruct (k' =? k) eqn:E.
    + apply Z.eqb_eq in E. subst k'. split; [constructor; auto|].
      rewrite !is_list_valid_loop_cons. unfold key_ok.
      destruct (negb (negb (k =? 0) && (count_of k >? 1))); simpl;
        [now rewrite andb_true_r | reflexivity].
    + destruct (IH Hd') as [IH1 IH2]. split; [constructor; auto|].
      rewrite !is_list_valid_loop_cons, IH2. now rewrite andb_assoc.
Qed.

Lemma fold_dict_set_valid (count_of : Z -> Z) (xs : list Z) (d : list (Z * Z)) :
  Forall (fun kv => snd kv = count_of (fst kv)) d ->
  is_list_valid_loop (fold_left (fun d i => dict_set d i (count_of i)) xs d) =
  is_list_valid_loop d && forallb (key_ok count_of) xs.
Proof.
  revert d. induction xs as [|x xs IH]; intros d Hd; cbn [fold_left forallb].
  - now rewrite andb_true_r.
  - destruct (dict_set_valid count_of d x Hd) as [H1 H2].
    rewrite IH by assumption. rewrite H2. now rewrite andb_assoc.
Qed.

Lemma is_list_valid_forallb (l : list Z) :
  is_list_valid l = forallb (key_ok (fun k => py_count k l)) l.
Proof.
  unfold is_list_valid, element_counts.
  now rewrite (fold_dict_set_valid (fun k => py_count k l)) by constructor.
Qed.

Lemma region_valid_counts (l : list Z) :
  region_valid l = true <-> (forall k, k <> 0 -> py_count k l <= 1).
Proof.
  induction l as [|x t IH]; cbn [region_valid py_count].
  - split; [intros _ k _; lia | reflexivity].
  - rewrite andb_true_iff, IH, orb_true_iff, negb_true_iff, Z.eqb_eq.
    split.
    + intros [Hx Ht] k Hk. specialize (Ht k Hk).
      destruct (x =? k) eqn:E; [|lia]. apply Z.eqb_eq in E. subst k.
      destruct Hx as [Hx|Hx]; [contradiction|].
      assert (Hc : py_count x t = 0).
      { apply py_count_zero. intros Hin. apply py_in_In in Hin. congruence. }
      lia.
    + intros H. split.
      * destruct (Z.eq_dec x 0) as [|Hx]; [now left|]. right.
        specialize (H x Hx). rewrite Z.eqb_refl in H.
        pose proof (py_count_nonneg x t) as Hn.
        destruct (py_in x t) eqn:E; [|reflexivity].
        apply py_in_In in E. apply py_count_zero in E; [contradiction | lia].
      * intros k Hk. specialize (H k Hk). destruct (x =? k); lia.
Qed.

Lemma forallb_key_ok_counts (l : list Z) :
  forallb (key_ok (fun k => py_count k l)) l = true <->
  (forall k, k <> 0 -> py_count k l <= 1).
Proof.
  rewrite forallb_forall. unfold key_ok. split.
  - intros H k Hk. destruct (in_dec Z.eq_dec k l) as [Hin|Hnin].
    + specialize (H k Hin). apply negb_true_iff, andb_false_iff in H as [H|H].
      * apply negb_false_iff, Z.eqb_eq in H. contradiction.
      * rewrite Z.gtb_ltb in H. apply Z.ltb_ge in H. exact H.
    + apply py_count_zero in Hnin. lia.
  - intros H k _. apply negb_true_iff, andb_false_iff.
    destruct (Z.eq_dec k 0) as [->|Hk]; [now left|]. right.
    specialize (H k Hk). rewrite Z.gtb_ltb. apply Z.ltb_ge. exact H.
Qed.

(** [is_list_valid] decides that no non-zero digit is repeated. *)
Lemma is_list_valid_region_valid (l : list Z) : is_list_valid l = region_valid l.
Proof.
  rewrite is_list_valid_forallb.
  destruct (region_valid l) eqn:E.
  - apply (proj2 (forallb_key_ok_counts l)), (proj1 (region_valid_counts l)), E.
  - destruct (forallb _ l) eqn:F; [|reflexivity].
    pose proof (proj1 (forallb_key_ok_counts l) F) as F1.
    pose proof (proj2 (region_valid_counts l) F1) as F2. congruence.
Qed.

Lemma all_filled_row_forallb (b : grid) (i : Z) (js : list Z) :
  is_9x9 b = true -> in_range i -> Forall in_range js ->
  all_filled_row b i js = Ok (forallb (fun j => negb (cell b i j =? 0)) js).
Proof.
  intros Hb Hi Hjs. induction Hjs as [|j js Hj Hjs IH]; cbn [all_filled_row forallb].
  - reflexivity.
  - rewrite get_in_range by assumption. cbn [bind].
    destruct (cell b i j =? 0); [reflexivity | exact IH].
Qed.

Lemma range_0_9_in_range : Forall in_range (range 0 9).
Proof. apply Forall_forall. intros j. apply In_range_0_9. Qed.

Lemma all_filled_forallb (b : grid) (ks : list Z) :
  is_9x9 b = true -> Forall in_range ks ->
  all_filled b ks =
  Ok (forallb (fun i => forallb (fun j => negb (cell b i j =? 0)) (range 0 9)) ks).
Proof.
  intros Hb Hks. induction Hks as [|i ks Hi Hks IH]; cbn [all_filled forallb].
  - reflexivity.
  - rewrite all_filled_row_forallb by (auto using range_0_9_in_range). cbn [bind].
    destruct (forallb _ (range 0 9)); [exact IH | reflexivity].
Qed.

Lemma is_board_valid_loop_forallb (b : grid) (ks : list Z) :
  is_9x9 b = true -> Forall in_range ks ->
  is_board_valid_loop b ks =
  Ok (forallb (fun k => region_valid (row_cells b k)
                        && region_valid (column_cells b k)
                        && region_valid (block_cells b k)) ks).
Proof.
  intros Hb Hks. induction Hks as [|i ks Hi Hks IH]; cbn [is_board_valid_loop forallb].
  - reflexivity.
  - unfold is_row_valid, is_column_valid, is_cell_valid.
    rewrite get_row_cells by assumption. cbn [bind].
    rewrite !is_list_valid_region_valid.
    destruct (region_valid (row_cells b i)); cbn [bind negb andb]; [|reflexivity].
    rewrite get_column_cells by assumption. cbn [bind].
    rewrite !is_list_valid_region_valid.
    destruct (region_valid (column_cells b i)); cbn [bind negb andb]; [|reflexivity].
    rewrite get_cell_block by assumption. cbn [bind].
    rewrite !is_list_valid_region_valid.
    destruct (region_valid (block_cells b i)); cbn [bind negb andb]; [exact IH | reflexivity].
Qed.

Lemma is_board_valid_consistent (b : grid) :
  is_9x9 b = true -> is_board_valid b = Ok (consistent b).
Proof.
  intros Hb. apply is_board_valid_loop_forallb; auto using range_0_9_in_range.
Qed.

(** [is_solved] decides the solved state of a 9x9 grid. *)
Lemma is_solved_solved_state (b : grid) :
  is_9x9 b = true -> is_solved b = Ok (solved_state b).
Proof.
  intros Hb. unfold is_solved, solved_state.
  rewrite all_filled_forallb by (auto using range_0_9_in_range). cbn [bind].
  fold (all_nonzero b). destruct (all_nonzero b); [|reflexivity].
  now apply is_board_valid_consistent.
Qed.

Lemma all_nonzero_cell (b : grid) (i j : Z) :
  all_nonzero b = true -> in_range i -> in_range j -> cell b i j <> 0.
Proof.
  unfold all_nonzero. rewrite forallb_forall. intros H Hi Hj.
  apply In_range_0_9 in Hi, Hj. specialize (H i Hi). rewrite forallb_forall in H.
  specialize (H j Hj). apply negb_true_iff in H. now apply Z.eqb_neq.
Qed.

(** ** The solver *)

Lemma solve_loop_unfold (fuel : nat) (num_steps : Z) (calls : list call) (s : Board) :
  solve_loop fuel num_steps calls s =
  if num_steps <? 10000 then
    match is_solved (board s) with
    | Raise e => Some (Crashed num_steps e)
    | Ok true => Some (Returned num_steps calls s)
    | Ok false =>
        match fuel with
        | O => None
        | S fuel' =>
            match solve_body s with
            | Raise e => Some (Crashed (num_steps + 1) e)
            | Ok (cs, s') => solve_loop fuel' (num_steps + 1) (cs ++ calls) s'
            end
        end
    end
  else Some (Returned num_steps calls s).
Proof. destruct fuel; reflexivity. Qed.

(** C9. On a board that [is_solved] accepts, [solve] leaves the loop at
    its first test: [num_steps] is 0, no deductive pass, guess or rollback
    was called, and the object (board and stack) is returned as it was. *)
Theorem solve_already_solved (s : Board) :
  is_solved (board s) = Ok true ->
  solve s = Some (Returned 0 [] s).
Proof.
  intros H. unfold solve. rewrite solve_loop_unfold, H. reflexivity.
Qed.

Lemma solve_already_solved_witness :
  solve (new_board grid_solved) = Some (Returned 0 [] (new_board grid_solved)).
Proof. apply (solve_already_solved (new_board grid_solved)). reflexivity. Defined.

Lemma find_open_row_spec (b : grid) (i : Z) (js : list Z) :
  is_9x9 b = true -> in_range i -> Forall in_range js ->
  exists r,
    find_open_row b i js = Ok r /\
    match r with
    | Some (i', j') => i' = i /\ In j' js /\ cell b i j' = 0
    | None => forall j, In j js -> cell b i j <> 0
    end.
Proof.
  intros Hb Hi Hjs. induction Hjs as [|j js Hj Hjs IH]; cbn [find_open_row].
  - exists None. split; [reflexivity | intros j []].
  - rewrite get_in_range by assumption. cbn [bind].
    destruct (cell b i j =? 0) eqn:E.
    + apply Z.eqb_eq in E. exists (Some (i, j)). split; [reflexivity|].
      split; [reflexivity|]. split; [now left | exact E].
    + apply Z.eqb_neq in E. destruct IH as (r & Hr & Hspec). exists r.
      split; [exact Hr|]. destruct r as [[i' j']|].
      * destruct Hspec as (-> & Hin & Hc). split; [reflexivity|]. split; [now right | exact Hc].
      * intros j' [<-|Hin]; auto.
Qed.

Lemma find_open_rows_spec (b : grid) (ks : list Z) :
  is_9x9 b = true -> Forall in_range ks ->
  exists r,
    find_open_rows b ks = Ok r /\
    match r with
    | Some (i, j) => In i ks /\ in_range j /\ cell b i j = 0
    | None => forall i j, In i ks -> in_range j -> cell b i j <> 0
    end.
Proof.
  intros Hb Hks. induction Hks as [|i ks Hi Hks IH]; cbn [find_open_rows].
  - exists None. split; [reflexivity | intros i j []].
  - destruct (find_open_row_spec b i (range 0 9) Hb Hi range_0_9_in_range)
      as (r & Hr & Hspec).
    rewrite Hr. cbn [bind]. destruct r as [[i' j']|].
    + destruct Hspec as (-> & Hin & Hc). exists (Some (i, j')). split; [reflexivity|].
      split; [now left|]. split; [now apply In_range_0_9 | exact Hc].
    + destruct IH as (r & Hr' & Hspec'). exists r. split; [exact Hr'|].
      destruct r as [[i' j']|].
      * destruct Hspec' as (Hin & Hj & Hc). split; [now right | auto].
      * intros i' j' [<-|Hin] Hj'; [apply Hspec; now apply In_range_0_9 | now apply Hspec'].
Qed.

(** [find_open_spot] returns an empty cell, or (-1, -1) on a full grid. *)
Lemma find_open_spot_spec (b : grid) :
  is_9x9 b = true ->
  exists i j,
    find_open_spot b = Ok (i, j) /\
    ((i = -1 /\ j = -1 /\ forall i' j', in_range i' -> in_range j' -> cell b i' j' <> 0) \/
     (in_range i /\ in_range j /\ cell b i j = 0)).
Proof.
  intros Hb. unfold find_open_spot.
  destruct (find_open_rows_spec b (range 0 9) Hb range_0_9_in_range) as (r & Hr & Hspec).
  rewrite Hr. cbn [bind]. destruct r as [[i j]|].
  - destruct Hspec as (Hi & Hj & Hc). apply In_range_0_9 in Hi.
    exists i, j. split; [reflexivity|]. right. auto.
  - exists (-1), (-1). split; [reflexivity|]. left. split; [reflexivity|].
    split; [reflexivity|]. intros i' j' Hi' Hj'. apply Hspec; [now apply In_range_0_9 | exact Hj'].
Qed.

(** What a pass does to a 9x9 grid. *)
Lemma make_deductive_pass_sound (b : grid) :
  is_9x9 b = true ->
  exists r b',
    make_deductive_pass b = Ok (pass_code r, b') /\
    is_9x9 b' = true /\ keeps_filled b b' /\
    match r with
    | Contradiction => exists i j, in_range i /\ in_range j /\ cell b' i j = 0
    | Placed n => n = newly_filled b b' row_major
    end.
Proof.
  intros Hb.
  destruct (scan_cells_sound row_major row_major_in_range row_major_NoDup 0 b Hb)
    as (r & b' & Hs & Hb' & Hk & _ & Hres).
  exists r, b'. split; [rewrite make_deductive_pass_scan, Hs; reflexivity|].
  split; [exact Hb'|]. split; [exact Hk|]. destruct r as [|n].
  - destruct Hres as (i & j & Hin & H0 & _). apply In_row_major in Hin as [Hi Hj].
    exists i, j. auto.
  - now rewrite Z.add_0_l in Hres.
Qed.

Lemma newly_filled_full (b b' : grid) (cells : list (Z * Z)) :
  (forall i j, In (i, j) cells -> cell b i j <> 0) -> newly_filled b b' cells = 0.
Proof.
  intros H. unfold newly_filled.
  replace (filter _ cells) with (@nil (Z * Z)); [reflexivity|].
  symmetry. induction cells as [|[i j] rest IH]; [reflexivity|]. cbn [filter].
  replace (cell b i j =? 0) with false
    by (symmetry; apply Z.eqb_neq, H; now left).
  cbn [andb]. apply IH. intros i' j' Hin. apply H. now right.
Qed.

(** On a full grid the pass places nothing and changes nothing. *)
Lemma make_deductive_pass_full (b : grid) :
  is_9x9 b = true -> all_nonzero b = true -> make_deductive_pass b = Ok (0, b).
Proof.
  intros Hb Hfull.
  destruct (make_deductive_pass_sound b Hb) as (r & b' & Hp & Hb' & Hk & Hres).
  assert (Heq : b' = b).
  { symmetry. apply grid_ext; try assumption. intros i j Hi Hj. symmetry.
    apply Hk; auto. now apply all_nonzero_cell. }
  subst b'. rewrite Hp. destruct r as [|n].
  - destruct Hres as (i & j & Hi & Hj & H0). exfalso.
    now apply (all_nonzero_cell b i j Hfull Hi Hj).
  - cbn [pass_code]. rewrite Hres, newly_filled_full; [reflexivity|].
    intros i j Hin. apply In_row_major in Hin as [Hi Hj]. now apply all_nonzero_cell.
Qed.

Lemma find_open_spot_full (b : grid) :
  is_9x9 b = true -> all_nonzero b = true -> find_open_spot b = Ok (-1, -1).
Proof.
  intros Hb Hfull.
  destruct (find_open_spot_spec b Hb) as (i & j & Hf & [(-> & -> & _)|(Hi & Hj & Hc)]).
  - exact Hf.
  - exfalso. now apply (all_nonzero_cell b i j Hfull Hi Hj).
Qed.

(** One round of the loop on a full grid changes neither board nor stack. *)
Lemma solve_body_full (s : Board) :
  is_9x9 (board s) = true -> all_nonzero (board s) = true ->
  solve_body s = Ok ([CallPass], s).
Proof.
  intros Hb Hfull. unfold solve_body.
  rewrite make_deductive_pass_full by assumption. cbn [bind].
  change (0 >? 0) with false. change (0 =? -1) with false. cbv iota.
  assert (Hs : set_board s (board s) = s) by (destruct s; reflexivity).
  rewrite Hs. rewrite find_open_spot_full by assumption. reflexivity.
Qed.

Lemma solve_loop_full (s : Board) (fuel : nat) :
  is_9x9 (board s) = true -> all_nonzero (board s) = true ->
  is_solved (board s) = Ok false ->
  forall (num_steps : Z) (calls : list call),
  num_steps + Z.of_nat fuel = 10000 ->
  solve_loop fuel num_steps calls s =
  Some (Returned 10000 (repeat CallPass fuel ++ calls) s).
Proof.
  intros Hb Hfull Hns. induction fuel as [|fuel IH]; intros n calls Hn.
  - rewrite solve_loop_unfold.
    replace (n <? 10000) with false by (symmetry; apply Z.ltb_ge; lia).
    assert (n = 10000) by lia. subst n. reflexivity.
  - rewrite solve_loop_unfold.
    replace (n <? 10000) with true by (symmetry; apply Z.ltb_lt; lia).
    rewrite Hns, solve_body_full by assumption.
    rewrite IH by lia. f_equal. f_equal.
    cbn [repeat]. rewrite repeat_cons, <- app_assoc. reflexivity.
Qed.

(** C5. A fully filled 9x9 grid in which some row, column or block
    repeats a digit is not solved, and [solve] returns after its 10,000
    rounds with the same board and the same (empty) stack; the caller then
    finds [is_solved] false. Each round was one deductive pass. *)
Theorem solve_full_invalid (b : grid) :
  is_9x9 b = true -> all_nonzero b = true -> consistent b = false ->
  is_solved b = Ok false /\
  solve (new_board b) = Some (Returned 10000 (repeat CallPass cap) (new_board b)).
Proof.
  intros Hb Hfull Hbad.
  assert (Hns : is_solved b = Ok false)
    by (rewrite is_solved_solved_state by assumption; unfold solved_state;
        now rewrite Hfull, Hbad).
  split; [exact Hns|]. unfold solve.
  rewrite (solve_loop_full (new_board b) cap Hb Hfull Hns 0 []) by reflexivity.
  now rewrite app_nil_r.
Qed.

Lemma solve_full_invalid_witness :
  is_solved grid_full_invalid = Ok false /\
  solve (new_board grid_full_invalid) =
  Some (Returned 10000 (repeat CallPass cap) (new_board grid_full_invalid)).
Proof. apply (solve_full_invalid grid_full_invalid); reflexivity. Defined.

(** The loop ends whenever the fuel covers the rounds left before the cap. *)
Lemma solve_loop_terminates (fuel : nat) :
  forall (num_steps : Z) (calls : list call) (s : Board),
  0 <= num_steps -> 10000 - num_steps <= Z.of_nat fuel ->
  exists o,
    solve_loop fuel num_steps calls s = Some o /\
    num_steps <= outcome_steps o /\
    (outcome_steps o <= 10000 \/ outcome_steps o = num_steps) /\
    match o with
    | Returned n _ s' => 10000 <= n \/ is_solved (board s') = Ok true
    | Crashed _ _ => True
    end.
Proof.
  induction fuel as [|fuel IH]; intros n calls s Hn Hfuel; rewrite solve_loop_unfold.
  - replace (n <? 10000) with false by (symmetry; apply Z.ltb_ge; lia).
    exists (Returned n calls s). cbn [outcome_steps]. repeat split; try lia.
  - destruct (n <? 10000) eqn:Hlt.
    + apply Z.ltb_lt in Hlt.
      destruct (is_solved (board s)) as [[|]|e] eqn:Hsolved.
      * exists (Returned n calls s). cbn [outcome_steps]. repeat split; try lia. now right.
      * destruct (solve_body s) as [[cs s']|e].
        -- destruct (IH (n + 1) (cs ++ calls) s') as (o & Ho & Hlo & Hhi & Hres); try lia.
           exists o. split; [exact Ho|]. split; [lia|]. split; [lia | exact Hres].
        -- exists (Crashed (n + 1) e). cbn [outcome_steps]. repeat split; lia.
      * exists (Crashed n e). cbn [outcome_steps]. repeat split; lia.
    + apply Z.ltb_ge in Hlt. exists (Returned n calls s). cbn [outcome_steps].
      repeat split; try lia.
Qed.



(** When every frame of the stack is down to its last candidate, the
    unwinding of [roll_back] empties the stack and asks the int -1 returned
    by [peek] for its [valid_entries]. *)
Lemma roll_back_while_exhausted (below : list TempBoard) :
  Forall (fun f => length (valid_entries f) = 1%nat /\ is_9x9 (tb_board f) = true) below ->
  forall (b : grid) (top : TempBoard),
  valid_entries top = [] ->
  roll_back_while b top below = Raise AttributeError.
Proof.
  induction 1 as [|f below [Hlen H9] Hbelow IH]; intros b top Htop;
    cbn [roll_back_while]; rewrite Htop; change (len [] =? 0) with true; cbv iota;
    rewrite pop_cons.
  - reflexivity.
  - unfold del_first_entry. erewrite peek_cons by reflexivity. cbn [attr bind stack board].
    destruct (valid_entries f) as [|x [|y ve]] eqn:Hve; try discriminate.
    cbn [py_del0 bind]. erewrite peek_cons by reflexivity.
    cbn [attr bind tb_board set_valid_entries stack].
    rewrite copy_board_9x9 by assumption. cbn [bind].
    apply IH. reflexivity.
Qed.

Lemma roll_back_exhausted (s : Board) :
  Forall (fun f => length (valid_entries f) = 1%nat /\ is_9x9 (tb_board f) = true) (stack s) ->
  roll_back s = Raise AttributeError.
Proof.
  intros H. unfold roll_back, del_first_entry.
  destruct (stack s) as [|f below] eqn:Hs.
  - rewrite (peek_nil s Hs). reflexivity.
  - rewrite (peek_cons s f below Hs). cbn [attr bind].
    inversion H as [|? ? [Hlen H9] Hbelow]; subst.
    destruct (valid_entries f) as [|x [|y ve]] eqn:Hve; try discriminate.
    cbn [py_del0 bind stack board]. rewrite roll_back_while_exhausted; auto.
Qed.

(** C2: what the code does on [puzzle_dead_end]. The guess 1, then the
    guess 2, for cell (0, 0) lead to a contradiction. The second call of
    [roll_back] deletes the last candidate of the only frame and pops it:
    the stack is empty, and the call ends with AttributeError instead of a
    failure that [solve] could report. The run ends in its third round with
    that exception, not with a return. *)
Theorem solve_unsolvable_raises :
  roll_back state_second_guess = Raise AttributeError /\
  solve (new_board puzzle_dead_end) = Some (Crashed 3 AttributeError).
Proof. split; vm_compute; reflexivity. Qed.

(** ** The givens are never overwritten *)

Lemma keeps_filled_refl (b : grid) : keeps_filled b b.
Proof. intros i j _ _ _. reflexivity. Qed.

Lemma keeps_filled_trans (b0 b1 b2 : grid) :
  keeps_filled b0 b1 -> keeps_filled b1 b2 -> keeps_filled b0 b2.
Proof.
  intros H01 H12 i j Hi Hj Hc.
  rewrite <- (H01 i j Hi Hj Hc). apply H12; auto. now rewrite (H01 i j Hi Hj Hc).
Qed.

Section Givens.

(** The input of the run. *)
Variable b0 : grid.
Hypothesis b0_9x9 : is_9x9 b0 = true.

(** Writing into an empty cell keeps the givens. *)
Lemma keeps_filled_upd (b : grid) (i j v : Z) :
  is_9x9 b = true -> in_range i -> in_range j ->
  keeps_filled b0 b -> cell b i j = 0 -> keeps_filled b0 (upd b i j v).
Proof.
  intros Hb Hi Hj Hk Hc i' j' Hi' Hj' Hne.
  rewrite cell_upd_other; auto.
  intros Heq. injection Heq as -> ->. rewrite (Hk i j Hi Hj Hne) in Hc. contradiction.
Qed.

Lemma frame_ok_same_frame (f g : TempBoard) :
  same_frame f g -> frame_ok b0 f -> frame_ok b0 g.
Proof.
  unfold same_frame, frame_ok. intros (Hb & Hi & Hj). now rewrite Hb, Hi, Hj.
Qed.

Lemma frames_from_ok (stk stk' : list TempBoard) :
  frames_from stk stk' -> Forall (frame_ok b0) stk -> Forall (frame_ok b0) stk'.
Proof.
  unfold frames_from. rewrite !Forall_forall. intros Hfrom Hok g Hg.
  destruct (Hfrom g Hg) as (f & Hf & Hfg). eapply frame_ok_same_frame; eauto.
Qed.

Lemma make_guess_inv (s : Board) (i j : Z) (r : option Z) (s' : Board) :
  solver_inv b0 s -> in_range i -> in_range j -> cell (board s) i j = 0 ->
  make_guess s i j = Ok (r, s') -> solver_inv b0 s'.
Proof.
  intros (Hb & Hk & Hstk) Hi Hj Hc. unfold make_guess. intros H.
  destruct (push_if_new s i j) as [s1|e] eqn:Hpush; [|discriminate].
  cbn [bind] in H.
  destruct (push_if_new_spec s i j s1 Hpush) as [Hb1 Hcase].
  assert (Hstk1 : Forall (frame_ok b0) (stack s1)).
  { destruct Hcase as [->|(f & -> & Hfi & Hfj & Hcopy)]; [assumption|].
    cbn [stack]. constructor; [|assumption].
    rewrite copy_board_9x9 in Hcopy by assumption. injection Hcopy as Hcopy.
    unfold frame_ok. rewrite <- Hcopy, Hfi, Hfj. auto. }
  destruct (attr valid_entries (peek s1)) as [ve|e]; [|discriminate].
  cbn [bind] in H.
  destruct (len ve =? 0).
  - injection H as _ <-. unfold solver_inv. rewrite Hb1. auto.
  - destruct (py_getitem ve 0) as [guess|e]; [|discriminate]. cbn [bind] in H.
    rewrite Hb1, insert_in_range in H by assumption. cbn [bind] in H.
    injection H as _ <-. unfold solver_inv. cbn [set_board board stack].
    split; [now apply upd_is_9x9|]. split; [now apply keeps_filled_upd | assumption].
Qed.

Lemma roll_back_inv (s s' : Board) :
  solver_inv b0 s -> roll_back s = Ok s' ->
  solver_inv b0 s' /\
  exists g rest,
    stack s' = g :: rest /\ in_range (i_guess g) /\ in_range (j_guess g) /\
    cell (board s') (i_guess g) (j_guess g) = 0.
Proof.
  intros (Hb & Hk & Hstk) H.
  apply roll_back_frames in H as (g & rest & Hs' & _ & Hcopy & Hfrom).
  pose proof (frames_from_ok _ _ Hfrom Hstk) as Hstk'.
  assert (Hg : frame_ok b0 g) by (rewrite Hs' in Hstk'; now inversion Hstk').
  destruct Hg as (Hg9 & Hgk & Hgi & Hgj & Hgc).
  rewrite copy_board_9x9 in Hcopy by assumption. injection Hcopy as Hcopy.
  split.
  - unfold solver_inv. rewrite <- Hcopy. split; [exact Hg9|]. split; [exact Hgk | exact Hstk'].
  - exists g, rest. rewrite <- Hcopy. split; [exact Hs'|]. split; [exact Hgi|]. split; [exact Hgj | exact Hgc].
Qed.

Lemma solve_body_inv (s : Board) (cs : list call) (s' : Board) :
  solver_inv b0 s -> solve_body s = Ok (cs, s') -> solver_inv b0 s'.
Proof.
  intros (Hb & Hk & Hstk). unfold solve_body. intros H.
  destruct (make_deductive_pass_sound (board s) Hb) as (r & b1 & Hp & Hb1 & Hk1 & _).
  rewrite Hp in H. cbn [bind] in H.
  assert (Hinv1 : solver_inv b0 (set_board s b1)).
  { unfold solver_inv. cbn [set_board board stack].
    split; [exact Hb1|]. split; [eapply keeps_filled_trans; eassumption | exact Hstk]. }
  destruct (pass_code r >? 0); [now injection H as _ <-|].
  destruct (pass_code r =? -1).
  - destruct (roll_back (set_board s b1)) as [s2|e] eqn:Hrb; [|discriminate].
    cbn [bind] in H.
    destruct (roll_back_inv _ _ Hinv1 Hrb) as (Hinv2 & g & rest & Hs2 & Hgi & Hgj & Hgc).
    rewrite (peek_cons s2 g rest Hs2) in H. cbn [attr bind] in H.
    destruct (make_guess s2 (i_guess g) (j_guess g)) as [[r3 s3]|e] eqn:Hmg; [|discriminate].
    cbn [bind] in H. injection H as _ <-.
    exact (make_guess_inv s2 _ _ r3 s3 Hinv2 Hgi Hgj Hgc Hmg).
  - destruct (find_open_spot_spec b1 Hb1) as (i & j & Hf & Hcase).
    change (board (set_board s b1)) with b1 in H. rewrite Hf in H. cbn [bind] in H.
    destruct Hcase as [(-> & -> & _)|(Hi & Hj & Hc)].
    + change ((-1 =? -1) || (-1 =? -1)) with true in H. now injection H as _ <-.
    + destruct ((i =? -1) || (j =? -1)); [now injection H as _ <-|].
      destruct (make_guess (set_board s b1) i j) as [[r3 s3]|e] eqn:Hmg; [|discriminate].
      cbn [bind] in H. injection H as _ <-.
      exact (make_guess_inv (set_board s b1) i j r3 s3 Hinv1 Hi Hj Hc Hmg).
Qed.

Lemma solve_loop_inv (fuel : nat) :
  forall (num_steps : Z) (calls : list call) (s : Board) (n : Z) (calls' : list call)
         (s' : Board),
  solver_inv b0 s ->
  solve_loop fuel num_steps calls s = Some (Returned n calls' s') ->
  solver_inv b0 s'.
Proof.
  induction fuel as [|fuel IH]; intros num_steps calls s n calls' s' Hinv;
    rewrite solve_loop_unfold; destruct (num_steps <? 10000);
    try (intros H; injection H as _ _ <-; exact Hinv);
    destruct (is_solved (board s)) as [[|]|e]; try discriminate;
    try (intros H; injection H as _ _ <-; exact Hinv).
  destruct (solve_body s) as [[cs s1]|e] eqn:Hbody; [|discriminate].
  apply IH. eapply solve_body_inv; eauto.
Qed.

Lemma solver_inv_new_board : solver_inv b0 (new_board b0).
Proof.
  unfold solver_inv, new_board. cbn [board stack].
  split; [exact b0_9x9|]. split; [apply keeps_filled_refl | constructor].
Qed.

End Givens.

(** A run that returns leaves a 9x9 board that keeps every given. *)
Lemma solve_keeps_givens (input : grid) (n : Z) (calls : list call) (s' : Board) :
  is_9x9 input = true ->
  solve (new_board input) = Some (Returned n calls s') ->
  is_9x9 (board s') = true /\ keeps_filled input (board s').
Proof.
  intros Hb H. unfold solve in H.
  apply (solve_loop_inv input) in H; [|now apply solver_inv_new_board].
  destruct H as (H9 & Hk & _). auto.
Qed.

(** C1. When [solve] returns on a 9x9 input and the final board is in a
    solved state (every cell filled, no digit repeated in a row, column or
    block), [is_solved] holds of the final board, and every cell that was
    non-zero in the input holds the same digit in the final board. *)
Theorem solve_solved_keeps_givens (input : grid) (n : Z) (calls : list call) (s' : Board) :
  is_9x9 input = true ->
  solve (new_board input) = Some (Returned n calls s') ->
  solved_state (board s') = true ->
  is_solved (board s') = Ok true /\
  forall i j v, in_range i -> in_range j ->
                get input i j = Ok v -> v <> 0 -> get (board s') i j = Ok v.
Proof.
  intros Hb H Hsolved.
  destruct (solve_keeps_givens input n calls s' Hb H) as [H9 Hk].
  split.
  - rewrite is_solved_solved_state by assumption. now rewrite Hsolved.
  - intros i j v Hi Hj Hg Hv.
    rewrite get_in_range in Hg by assumption. injection Hg as <-.
    rewrite get_in_range by assumption. f_equal. now apply Hk.
Qed.

Lemma solve_solved_keeps_givens_witness :
  is_solved (board guess_final) = Ok true /\
  forall i j v, in_range i -> in_range j ->
                get puzzle_guess i j = Ok v -> v <> 0 -> get (board guess_final) i j = Ok v.
Proof.
  apply (solve_solved_keeps_givens puzzle_guess 13 guess_calls guess_final);
    vm_compute; reflexivity.
Defined.

(** ** Further properties of the grid accessors *)

Lemma region_valid_NoDup (l : list Z) : region_valid l = true <-> NoDup (nonzero l).
Proof.
  unfold nonzero. induction l as [|x t IH]; cbn [region_valid filter].
  - split; [constructor | reflexivity].
  - rewrite andb_true_iff, IH, orb_true_iff, negb_true_iff, Z.eqb_eq.
    destruct (x =? 0) eqn:E; cbn [negb].
    + apply Z.eqb_eq in E. tauto.
    + apply Z.eqb_neq in E. rewrite NoDup_cons_iff, filter_In.
      replace (negb (x =? 0)) with true by (symmetry; apply negb_true_iff, Z.eqb_neq, E).
      split.
      * intros [[H|H] Ht]; [contradiction|]. split; [|exact Ht].
        intros [Hin _]. apply py_in_In in Hin. congruence.
      * intros [Hn Ht]. split; [|exact Ht]. right.
        destruct (py_in x t) eqn:Hin; [|reflexivity].
        apply py_in_In in Hin. exfalso. apply Hn. auto.
Qed.

(** X1. [is_list_valid] accepts a list, of any length, exactly when its
    non-zero entries are pairwise distinct; zeros may repeat. *)
Theorem is_list_valid_iff_NoDup (l : list Z) :
  is_list_valid l = true <-> NoDup (nonzero l).
Proof. rewrite is_list_valid_region_valid. apply region_valid_NoDup. Qed.

Lemma row_cells_length (b : grid) (i : Z) : length (row_cells b i) = 9%nat.
Proof. reflexivity. Qed.

Lemma column_cells_length (b : grid) (j : Z) : length (column_cells b j) = 9%nat.
Proof. reflexivity. Qed.

Lemma block_cells_length (b : grid) (k : Z) : length (block_cells b k) = 9%nat.
Proof. reflexivity. Qed.

Lemma py_getitem_row_cells (b : grid) (i j : Z) :
  in_range j -> py_getitem (row_cells b i) j = Ok (cell b i j).
Proof.
  intros Hj. rewrite (py_getitem_in_bounds _ _ 0)
    by (unfold len; rewrite row_cells_length; unfold in_range in Hj; lia).
  f_equal. cases9 j Hj; reflexivity.
Qed.

Lemma py_getitem_column_cells (b : grid) (i j : Z) :
  in_range i -> py_getitem (column_cells b j) i = Ok (cell b i j).
Proof.
  intros Hi. rewrite (py_getitem_in_bounds _ _ 0)
    by (unfold len; rewrite column_cells_length; unfold in_range in Hi; lia).
  f_equal. cases9 i Hi; reflexivity.
Qed.

(** X2. On a 9x9 grid the row [i] and the column [j] are lists of nine
    cells that cross at the cell read by [get]: entry [j] of [get_row(i)]
    and entry [i] of [get_column(j)] are both [get(i, j)]. *)
Theorem row_column_cross (b : grid) (i j : Z) :
  is_9x9 b = true -> in_range i -> in_range j ->
  exists row column,
    get_row b i = Ok row /\ get_column b j = Ok column /\
    length row = 9%nat /\ length column = 9%nat /\
    py_getitem row j = get b i j /\ py_getitem column i = get b i j.
Proof.
  intros Hb Hi Hj. exists (row_cells b i), (column_cells b j).
  rewrite get_in_range by assumption.
  split; [now apply get_row_cells|]. split; [now apply get_column_cells|].
  split; [reflexivity|]. split; [reflexivity|].
  split; [now apply py_getitem_row_cells | now apply py_getitem_column_cells].
Qed.

Lemma row_column_cross_witness :
  exists row column,
    get_row puzzle_easy 1 = Ok row /\ get_column puzzle_easy 3 = Ok column /\
    length row = 9%nat /\ length column = 9%nat /\
    py_getitem row 3 = get puzzle_easy 1 3 /\ py_getitem column 1 = get puzzle_easy 1 3.
Proof.
  apply (row_column_cross puzzle_easy 1 3); [reflexivity | |]; unfold in_range; lia.
Defined.

(** X3. On a 9x9 grid [get_cell(k)] is the 3x3 block [k], row by row: its
    entry [3*r + c] is the cell in row [3*(k/3) + r] and column
    [3*(k mod 3) + c]. The block of the cell [(i, j)] is the one numbered
    [get_meta_cell_index(i, j)], where the cell sits at entry
    [3*(i mod 3) + j mod 3]. *)
Theorem get_cell_layout (b : grid) (i j : Z) :
  is_9x9 b = true -> in_range i -> in_range j ->
  in_range (get_meta_cell_index i j) /\
  exists blk,
    get_cell b (get_meta_cell_index i j) = Ok blk /\
    length blk = 9%nat /\
    py_getitem blk (3 * (i mod 3) + j mod 3) = get b i j /\
    (forall r c, 0 <= r < 3 -> 0 <= c < 3 ->
       py_getitem blk (3 * r + c) = get b (3 * (i / 3) + r) (3 * (j / 3) + c)).
Proof.
  intros Hb Hi Hj. rewrite get_meta_cell_index_block.
  split; [now apply block_of_in_range|].
  exists (block_cells b (block_of i j)).
  split; [apply get_cell_block; auto using block_of_in_range|].
  split; [reflexivity|]. split.
  - rewrite get_in_range by assumption.
    cases9 i Hi; cases9 j Hj; reflexivity.
  - intros r c Hr Hc.
    assert (Hr' : r = 0 \/ r = 1 \/ r = 2) by lia.
    assert (Hc' : c = 0 \/ c = 1 \/ c = 2) by lia.
    rewrite get_in_range;
      [| assumption
       | unfold in_range in *; Z.div_mod_to_equations; lia
       | unfold in_range in *; Z.div_mod_to_equations; lia].
    cases9 i Hi; cases9 j Hj;
      destruct Hr' as [->|[->| ->]]; destruct Hc' as [->|[->| ->]]; reflexivity.
Qed.

Lemma get_cell_layout_witness :
  in_range (get_meta_cell_index 4 8) /\
  exists blk,
    get_cell puzzle_easy (get_meta_cell_index 4 8) = Ok blk /\
    length blk = 9%nat /\
    py_getitem blk (3 * (4 mod 3) + 8 mod 3) = get puzzle_easy 4 8 /\
    (forall r c, 0 <= r < 3 -> 0 <= c < 3 ->
       py_getitem blk (3 * r + c) = get puzzle_easy (3 * (4 / 3) + r) (3 * (8 / 3) + c)).
Proof.
  apply (get_cell_layout puzzle_easy 4 8); [reflexivity | |]; unfold in_range; lia.
Defined.

Lemma py_setitem_out_of_bounds {A : Type} (l : list A) (i : Z) (v : A) :
  i < - len l \/ len l <= i -> py_setitem l i v = Raise IndexError.
Proof.
  intros Hi. unfold py_setitem. pose proof (len_nonneg l) as Hl.
  destruct (i <? 0) eqn:Hneg.
  - apply Z.ltb_lt in Hneg.
    replace (0 <=? i + len l) with false by (symmetry; apply Z.leb_gt; lia).
    reflexivity.
  - apply Z.ltb_ge in Hneg.
    replace (i <? len l) with false by (symmetry; apply Z.ltb_ge; lia).
    rewrite andb_false_r. reflexivity.
Qed.

(** X4. On a 9x9 grid [insert(i, j, v)] with indices in [0,8] succeeds
    and leaves a 9x9 grid in which [get(i, j)] is [v] and every other cell
    reads as before. With an index below -9 or above 8 it raises
    IndexError. *)
Theorem insert_then_get (b : grid) (i j v : Z) :
  is_9x9 b = true ->
  (in_range i -> in_range j ->
   exists b',
     insert b i j v = Ok b' /\ is_9x9 b' = true /\ get b' i j = Ok v /\
     forall i' j', in_range i' -> in_range j' -> (i', j') <> (i, j) ->
                   get b' i' j' = get b i' j') /\
  (i < -9 \/ 9 <= i \/ j < -9 \/ 9 <= j -> insert b i j v = Raise IndexError).
Proof.
  intros Hb. split.
  - intros Hi Hj. exists (upd b i j v).
    assert (H9 : is_9x9 (upd b i j v) = true) by (now apply upd_is_9x9).
    split; [now apply insert_in_range|]. split; [exact H9|]. split.
    + rewrite get_in_range by assumption. f_equal. now apply cell_upd_same.
    + intros i' j' Hi' Hj' Hne. rewrite !get_in_range by assumption.
      f_equal. now apply cell_upd_other.
  - intros Hout. unfold insert.
    destruct (Z_lt_dec i (-9)) as [Hlo|Hlo];
      [rewrite py_getitem_out_of_bounds; [reflexivity|];
       unfold len; rewrite (is_9x9_rows b Hb); lia|].
    destruct (Z_le_dec 9 i) as [Hhi|Hhi];
      [rewrite py_getitem_out_of_bounds; [reflexivity|];
       unfold len; rewrite (is_9x9_rows b Hb); lia|].
    rewrite (py_getitem_wrap b i []) by (auto using is_9x9_rows; lia). cbn [bind].
    rewrite py_setitem_out_of_bounds; [reflexivity|].
    unfold len. rewrite is_9x9_row_length; [lia | assumption|].
    apply wrap_in_range. lia.
Qed.

Lemma insert_then_get_witness :
  (in_range 0 -> in_range 1 ->
   exists b',
     insert puzzle_easy 0 1 8 = Ok b' /\ is_9x9 b' = true /\ get b' 0 1 = Ok 8 /\
     forall i' j', in_range i' -> in_range j' -> (i', j') <> (0, 1) ->
                   get b' i' j' = get puzzle_easy i' j') /\
  (0 < -9 \/ 9 <= 0 \/ 1 < -9 \/ 9 <= 1 -> insert puzzle_easy 0 1 8 = Raise IndexError).
Proof. apply (insert_then_get puzzle_easy 0 1 8). reflexivity. Defined.

(** ** Validation, in terms of the regions *)

Lemma consistent_iff (b : grid) :
  consistent b = true <->
  (forall k, in_range k ->
     NoDup (nonzero (row_cells b k)) /\
     NoDup (nonzero (column_cells b k)) /\
     NoDup (nonzero (block_cells b k))).
Proof.
  unfold consistent. rewrite forallb_forall. split.
  - intros H k Hk. apply In_range_0_9 in Hk. specialize (H k Hk).
    apply andb_true_iff in H as [H H3]. apply andb_true_iff in H as [H1 H2].
    now rewrite <- !region_valid_NoDup.
  - intros H k Hk. apply In_range_0_9 in Hk. destruct (H k Hk) as (H1 & H2 & H3).
    rewrite <- !region_valid_NoDup in *. now rewrite H1, H2, H3.
Qed.

(** X5. On a 9x9 grid, filled or not, [is_board_valid] returns True
    exactly when no row, column or block holds the same non-zero digit
    twice; empty cells are ignored. *)
Theorem is_board_valid_iff (b : grid) :
  is_9x9 b = true ->
  exists r,
    is_board_valid b = Ok r /\
    (r = true <->
     forall k, in_range k ->
       NoDup (nonzero (row_cells b k)) /\
       NoDup (nonzero (column_cells b k)) /\
       NoDup (nonzero (block_cells b k))).
Proof.
  intros Hb. exists (consistent b).
  split; [now apply is_board_valid_consistent | apply consistent_iff].
Qed.

Lemma is_board_valid_iff_witness :
  exists r,
    is_board_valid puzzle_easy = Ok r /\
    (r = true <->
     forall k, in_range k ->
       NoDup (nonzero (row_cells puzzle_easy k)) /\
       NoDup (nonzero (column_cells puzzle_easy k)) /\
       NoDup (nonzero (block_cells puzzle_easy k))).
Proof. apply (is_board_valid_iff puzzle_easy). reflexivity. Defined.

Lemma In_row_cells (b : grid) (i : Z) (x : Z) :
  In x (row_cells b i) <-> exists j, in_range j /\ x = cell b i j.
Proof.
  unfold row_cells. rewrite in_map_iff. split.
  - intros (j & <- & Hj). exists j. split; [now apply In_range_0_9 | reflexivity].
  - intros (j & Hj & ->). exists j. split; [reflexivity | now apply In_range_0_9].
Qed.

Lemma In_column_cells (b : grid) (j : Z) (x : Z) :
  In x (column_cells b j) <-> exists i, in_range i /\ x = cell b i j.
Proof.
  unfold column_cells. rewrite in_map_iff. split.
  - intros (i & <- & Hi). exists i. split; [now apply In_range_0_9 | reflexivity].
  - intros (i & Hi & ->). exists i. split; [reflexivity | now apply In_range_0_9].
Qed.

Lemma In_block_cells (b : grid) (k : Z) (x : Z) :
  in_range k -> In x (block_cells b k) ->
  exists i j, in_range i /\ in_range j /\ x = cell b i j.
Proof.
  intros Hk. unfold block_cells. rewrite in_flat_map.
  intros (r & Hr & Hin). apply in_map_iff in Hin as (c & <- & Hc).
  change (range 0 3) with [0; 1; 2] in Hr, Hc. simpl in Hr, Hc.
  exists (3 * (k / 3) + r), (3 * (k mod 3) + c).
  split; [|split; [|reflexivity]]; unfold in_range in *; Z.div_mod_to_equations; lia.
Qed.

Lemma all_nonzero_iff (b : grid) :
  all_nonzero b = true <-> (forall i j, in_range i -> in_range j -> cell b i j <> 0).
Proof.
  split; [intros H i j; now apply all_nonzero_cell|].
  intros H. unfold all_nonzero. apply forallb_forall. intros i Hi.
  apply forallb_forall. intros j Hj. apply In_range_0_9 in Hi, Hj.
  apply negb_true_iff, Z.eqb_neq. now apply H.
Qed.

Lemma nonzero_all (l : list Z) : (forall x, In x l -> x <> 0) -> nonzero l = l.
Proof.
  intros H. unfold nonzero. induction l as [|x t IH]; [reflexivity|]. cbn [filter].
  replace (x =? 0) with false by (symmetry; apply Z.eqb_neq, H; now left).
  cbn [negb]. f_equal. apply IH. intros y Hy. apply H. now right.
Qed.

(** Nine distinct digits between 1 and 9 are the digits 1 to 9. *)
Lemma nine_digits_permutation (l : list Z) :
  length l = 9%nat -> NoDup l -> (forall x, In x l -> 1 <= x <= 9) ->
  Permutation l (range 1 10).
Proof.
  intros Hlen Hnd Hd. apply NoDup_Permutation_bis; [exact Hnd | rewrite Hlen; reflexivity|].
  intros x Hx. specialize (Hd x Hx).
  change (range 1 10) with [1; 2; 3; 4; 5; 6; 7; 8; 9]. simpl. lia.
Qed.

Lemma permutation_digits_nonzero (l : list Z) (x : Z) :
  Permutation l (range 1 10) -> In x l -> x <> 0.
Proof.
  intros Hp Hx. apply (Permutation_in _ Hp) in Hx.
  change (range 1 10) with [1; 2; 3; 4; 5; 6; 7; 8; 9] in Hx. simpl in Hx. lia.
Qed.

Lemma permutation_digits_NoDup (l : list Z) :
  Permutation l (range 1 10) -> NoDup (nonzero l).
Proof.
  intros Hp. unfold nonzero. apply NoDup_filter.
  apply (Permutation_NoDup (Permutation_sym Hp)), range_1_10_NoDup.
Qed.

Lemma solved_state_iff (b : grid) :
  is_9x9 b = true -> digits_ok b = true ->
  (solved_state b = true <->
   forall k, in_range k ->
     Permutation (row_cells b k) (range 1 10) /\
     Permutation (column_cells b k) (range 1 10) /\
     Permutation (block_cells b k) (range 1 10)).
Proof.
  intros Hb Hd. unfold solved_state. rewrite andb_true_iff, all_nonzero_iff, consistent_iff.
  split.
  - intros [Hnz Hc] k Hk. destruct (Hc k Hk) as (H1 & H2 & H3).
    assert (Hcell : forall i j, in_range i -> in_range j -> 1 <= cell b i j <= 9).
    { intros i j Hi Hj. pose proof (digits_ok_cell b i j Hb Hd Hi Hj).
      pose proof (Hnz i j Hi Hj). lia. }
    split; [|split]; apply nine_digits_permutation; try reflexivity.
    + rewrite nonzero_all in H1; [exact H1|].
      intros x Hx. apply In_row_cells in Hx as (j & Hj & ->). now apply Hnz.
    + intros x Hx. apply In_row_cells in Hx as (j & Hj & ->). now apply Hcell.
    + rewrite nonzero_all in H2; [exact H2|].
      intros x Hx. apply In_column_cells in Hx as (i & Hi & ->). now apply Hnz.
    + intros x Hx. apply In_column_cells in Hx as (i & Hi & ->). now apply Hcell.
    + rewrite nonzero_all in H3; [exact H3|].
      intros x Hx. apply (In_block_cells b k x Hk) in Hx as (i & j & Hi & Hj & ->).
      now apply Hnz.
    + intros x Hx. apply (In_block_cells b k x Hk) in Hx as (i & j & Hi & Hj & ->).
      now apply Hcell.
  - intros H. split.
    + intros i j Hi Hj. destruct (H i Hi) as (Hrow & _ & _).
      apply (permutation_digits_nonzero _ _ Hrow). apply In_row_cells. now exists j.
    + intros k Hk. destruct (H k Hk) as (H1 & H2 & H3).
      auto using permutation_digits_NoDup.
Qed.

(** X6. On a 9x9 grid of digits [is_solved] returns True exactly when
    every row, every column and every block is a permutation of the digits
    1 to 9. *)
Theorem is_solved_iff_permutations (b : grid) :
  is_9x9 b = true -> digits_ok b = true ->
  exists r,
    is_solved b = Ok r /\
    (r = true <->
     forall k, in_range k ->
       Permutation (row_cells b k) (range 1 10) /\
       Permutation (column_cells b k) (range 1 10) /\
       Permutation (block_cells b k) (range 1 10)).
Proof.
  intros Hb Hd. exists (solved_state b).
  split; [now apply is_solved_solved_state | now apply solved_state_iff].
Qed.

Lemma is_solved_iff_permutations_witness :
  exists r,
    is_solved grid_solved = Ok r /\
    (r = true <->
     forall k, in_range k ->
       Permutation (row_cells grid_solved k) (range 1 10) /\
       Permutation (column_cells grid_solved k) (range 1 10) /\
       Permutation (block_cells grid_solved k) (range 1 10)).
Proof. apply (is_solved_iff_permutations grid_solved); reflexivity. Defined.

(** X7. The contract of [make_deductive_decision] on a 9x9 grid: a filled
    cell gives -2, an empty cell without candidate gives -1, an empty cell
    with several candidates gives 0, all three without a write; an empty
    cell with the single candidate [e] gives [e], a digit between 1 and 9,
    and [e] is written into the cell. *)
Theorem make_deductive_decision_contract (b : grid) (i j : Z) :
  is_9x9 b = true -> in_range i -> in_range j ->
  (cell b i j <> 0 -> make_deductive_decision b i j = Ok (-2, b)) /\
  (cell b i j = 0 -> candidates b i j = [] ->
   make_deductive_decision b i j = Ok (-1, b)) /\
  (cell b i j = 0 -> (2 <= length (candidates b i j))%nat ->
   make_deductive_decision b i j = Ok (0, b)) /\
  (forall e, cell b i j = 0 -> candidates b i j = [e] ->
   1 <= e <= 9 /\ make_deductive_decision b i j = Ok (e, upd b i j e)).
Proof.
  intros Hb Hi Hj. rewrite make_deductive_decision_deduce_one by assumption.
  unfold deduce_one. repeat split.
  - intros Hc. now replace (cell b i j =? 0) with false by (symmetry; now apply Z.eqb_neq).
  - intros -> ->. reflexivity.
  - intros -> Hlen. destruct (candidates b i j) as [|x [|y l]]; simpl in Hlen; try lia.
    reflexivity.
  - pose proof (candidates_digits b i j) as Hd. rewrite H0 in Hd.
    inversion Hd; subst. lia.
  - pose proof (candidates_digits b i j) as Hd. rewrite H0 in Hd.
    inversion Hd; subst. lia.
  - rewrite H, H0. reflexivity.
Qed.

Lemma make_deductive_decision_contract_witness :
  (cell grid_one_candidate 0 0 <> 0 ->
   make_deductive_decision grid_one_candidate 0 0 = Ok (-2, grid_one_candidate)) /\
  (cell grid_one_candidate 0 0 = 0 -> candidates grid_one_candidate 0 0 = [] ->
   make_deductive_decision grid_one_candidate 0 0 = Ok (-1, grid_one_candidate)) /\
  (cell grid_one_candidate 0 0 = 0 ->
   (2 <= length (candidates grid_one_candidate 0 0))%nat ->
   make_deductive_decision grid_one_candidate 0 0 = Ok (0, grid_one_candidate)) /\
  (forall e, cell grid_one_candidate 0 0 = 0 -> candidates grid_one_candidate 0 0 = [e] ->
   1 <= e <= 9 /\
   make_deductive_decision grid_one_candidate 0 0 = Ok (e, upd grid_one_candidate 0 0 e)).
Proof.
  apply (make_deductive_decision_contract grid_one_candidate 0 0);
    [reflexivity | |]; unfold in_range; lia.
Defined.

(** ** Copies and comparison of grids *)

Lemma py_getitem_raises {A : Type} (l : list A) (i : Z) (e : exn) :
  py_getitem l i = Raise e -> e = IndexError.
Proof.
  unfold py_getitem. destruct (_ && _); [destruct (nth_error l _)|];
    intros H; try discriminate; now injection H as <-.
Qed.

Lemma get_raises (b : grid) (i j : Z) (e : exn) :
  get b i j = Raise e -> e = IndexError.
Proof.
  unfold get. destruct (py_getitem b i) as [row|e'] eqn:Hrow; cbn [bind].
  - apply py_getitem_raises.
  - intros H. injection H as <-. now apply py_getitem_raises in Hrow.
Qed.

(** X8. [copy_board] and [duplicate_board] return the grid itself when it
    is 9x9. On any other grid a copy that succeeds is the 9x9 corner of the
    original (the cells of rows and columns 0 to 8), and a copy fails, with
    IndexError, only when one of these 81 cells cannot be read. *)
Theorem copy_board_spec (g : grid) :
  (is_9x9 g = true -> copy_board g = Ok g /\ duplicate_board g = Ok g) /\
  (forall nb, copy_board g = Ok nb ->
     is_9x9 nb = true /\
     forall i j, in_range i -> in_range j -> get g i j = Ok (cell nb i j)) /\
  (forall e, copy_board g = Raise e ->
     e = IndexError /\
     exists i j, in_range i /\ in_range j /\ get g i j = Raise IndexError).
Proof.
  split; [|split].
  - intros Hg. change (duplicate_board g) with (copy_board g). split; now apply copy_board_9x9.
  - intros nb H. now apply copy_board_cells.
  - intros e H. unfold copy_board in H.
    pose proof (copy_rows_spec g (range 0 9) range_0_9_in_range zero_board zero_board_9x9) as Hs.
    rewrite H in Hs. destruct Hs as (i & j & Hi & Hj & Hr).
    pose proof (get_raises _ _ _ _ Hr) as ->. split; [reflexivity|].
    exists i, j. split; [now apply In_range_0_9 | auto].
Qed.

Lemma copy_board_spec_witness :
  copy_board puzzle_easy = Ok puzzle_easy /\ duplicate_board puzzle_easy = Ok puzzle_easy.
Proof. apply (proj1 (copy_board_spec puzzle_easy)). reflexivity. Defined.

Lemma equal_row_forallb (b other : grid) (i : Z) (js : list Z) :
  is_9x9 b = true -> is_9x9 other = true -> in_range i -> Forall in_range js ->
  equal_row b other i js = Ok (forallb (fun j => cell b i j =? cell other i j) js).
Proof.
  intros Hb Ho Hi Hjs. induction Hjs as [|j js Hj Hjs IH]; cbn [equal_row forallb].
  - reflexivity.
  - rewrite !get_in_range by assumption. cbn [bind].
    destruct (cell b i j =? cell other i j); [exact IH | reflexivity].
Qed.

Lemma equal_rows_forallb (b other : grid) (ks : list Z) :
  is_9x9 b = true -> is_9x9 other = true -> Forall in_range ks ->
  equal_rows b other ks =
  Ok (forallb (fun i => forallb (fun j => cell b i j =? cell other i j) (range 0 9)) ks).
Proof.
  intros Hb Ho Hks. induction Hks as [|i ks Hi Hks IH]; cbn [equal_rows forallb].
  - reflexivity.
  - rewrite equal_row_forallb by (auto using range_0_9_in_range). cbn [bind].
    destruct (forallb _ (range 0 9)); [exact IH | reflexivity].
Qed.

Lemma is_equal_to_board_refl (b : grid) :
  is_9x9 b = true -> is_equal_to_board b b = Ok true.
Proof.
  intros Hb. unfold is_equal_to_board.
  rewrite equal_rows_forallb by (auto using range_0_9_in_range). f_equal.
  apply forallb_forall. intros i _. apply forallb_forall. intros j _. apply Z.eqb_refl.
Qed.

Lemma is_equal_to_board_true (b other : grid) :
  is_9x9 b = true -> is_9x9 other = true ->
  is_equal_to_board b other = Ok true -> b = other.
Proof.
  intros Hb Ho H. unfold is_equal_to_board in H.
  rewrite equal_rows_forallb in H by (auto using range_0_9_in_range).
  destruct (forallb _ (range 0 9)) eqn:E in H; [clear H; rename E into H | discriminate].
  rewrite forallb_forall in H.
  apply grid_ext; try assumption. intros i j Hi Hj.
  apply In_range_0_9 in Hi, Hj. specialize (H i Hi). rewrite forallb_forall in H.
  now apply Z.eqb_eq, H.
Qed.

Lemma is_equal_to_board_decides (b other : grid) :
  is_9x9 b = true -> is_9x9 other = true ->
  exists r, is_equal_to_board b other = Ok r /\ (r = true <-> b = other).
Proof.
  intros Hb Ho.
  destruct (is_equal_to_board b other) as [r|e] eqn:H.
  - exists r. split; [reflexivity|]. split.
    + intros ->. now apply is_equal_to_board_true.
    + intros <-. rewrite is_equal_to_board_refl in H by assumption. now injection H as <-.
  - unfold is_equal_to_board in H.
    rewrite equal_rows_forallb in H by (auto using range_0_9_in_range). discriminate.
Qed.

(** X9. On two 9x9 grids [is_equal_to_board] returns True exactly when
    the grids are equal. *)
Theorem is_equal_to_board_iff (b other : grid) :
  is_9x9 b = true -> is_9x9 other = true ->
  exists r, is_equal_to_board b other = Ok r /\ (r = true <-> b = other).
Proof. exact (is_equal_to_board_decides b other). Qed.

Lemma is_equal_to_board_iff_witness :
  exists r, is_equal_to_board puzzle_easy grid_solved = Ok r /\
            (r = true <-> puzzle_easy = grid_solved).
Proof. apply (is_equal_to_board_iff puzzle_easy grid_solved); reflexivity. Defined.

(** ** The stack operations *)

Lemma get_valid_entries_total (b : grid) (i j : Z) :
  is_9x9 b = true -> in_range i -> in_range j ->
  exists ve,
    get_valid_entries b i j = Ok ve /\
    (cell b i j = 0 -> ve = candidates b i j) /\
    (cell b i j <> 0 -> ve = [cell b i j]).
Proof.
  intros Hb Hi Hj. destruct (Z.eq_dec (cell b i j) 0) as [Hc|Hc].
  - exists (candidates b i j). split; [now apply get_valid_entries_empty|].
    split; [reflexivity | contradiction].
  - exists [cell b i j]. split; [now apply get_valid_entries_filled|].
    split; [contradiction | reflexivity].
Qed.

Lemma push_state_to_stack_9x9 (b : grid) (stk : list TempBoard) (i j : Z) (ve : list Z) :
  is_9x9 b = true -> get_valid_entries b i j = Ok ve ->
  push_state_to_stack (mkBoard b stk) i j =
  Ok (if len ve =? 0 then -1 else 1, mkBoard b (mkTempBoard b i j ve :: stk)).
Proof.
  intros Hb Hve. unfold push_state_to_stack. cbn [board stack].
  rewrite Hve. cbn [bind]. change (duplicate_board b) with (copy_board b).
  rewrite copy_board_9x9 by assumption.
  cbn [bind]. destruct (len ve =? 0); reflexivity.
Qed.

(** X10. On a 9x9 board [push_state_to_stack(i, j)] always pushes one
    frame: a snapshot equal to the board, the coordinates and the candidates
    of the cell. It returns -1 when there is no candidate and 1 otherwise,
    and leaves the board as it is. [peek] then returns the new frame, and
    [pop] returns it and leaves the object as it was before the push. *)
Theorem push_peek_pop (b : grid) (stk : list TempBoard) (i j : Z) :
  is_9x9 b = true -> in_range i -> in_range j ->
  exists ve,
    get_valid_entries b i j = Ok ve /\
    push_state_to_stack (mkBoard b stk) i j =
      Ok (if len ve =? 0 then -1 else 1, mkBoard b (mkTempBoard b i j ve :: stk)) /\
    peek (mkBoard b (mkTempBoard b i j ve :: stk)) = Frame (mkTempBoard b i j ve) /\
    pop (mkBoard b (mkTempBoard b i j ve :: stk)) =
      (Frame (mkTempBoard b i j ve), mkBoard b stk).
Proof.
  intros Hb Hi Hj. destruct (get_valid_entries_total b i j Hb Hi Hj) as (ve & Hve & _).
  exists ve. split; [exact Hve|]. split; [now apply push_state_to_stack_9x9|].
  split; [now apply (peek_cons _ _ stk) | apply pop_cons].
Qed.

Lemma push_peek_pop_witness :
  exists ve,
    get_valid_entries grid_no_candidate 0 0 = Ok ve /\
    push_state_to_stack (mkBoard grid_no_candidate []) 0 0 =
      Ok (if len ve =? 0 then -1 else 1,
          mkBoard grid_no_candidate [mkTempBoard grid_no_candidate 0 0 ve]) /\
    peek (mkBoard grid_no_candidate [mkTempBoard grid_no_candidate 0 0 ve]) =
      Frame (mkTempBoard grid_no_candidate 0 0 ve) /\
    pop (mkBoard grid_no_candidate [mkTempBoard grid_no_candidate 0 0 ve]) =
      (Frame (mkTempBoard grid_no_candidate 0 0 ve), mkBoard grid_no_candidate []).
Proof.
  apply (push_peek_pop grid_no_candidate [] 0 0); [reflexivity | |]; unfold in_range; lia.
Defined.

(** One round of the loop of [roll_back]. *)
Lemma roll_back_while_step (b : grid) (top g : TempBoard) (rest : list TempBoard) :
  valid_entries top = [] ->
  roll_back_while b top (g :: rest) =
  (ve' <- py_del0 (valid_entries g) ;;
   b' <- copy_board (tb_board g) ;;
   roll_back_while b' (set_valid_entries g ve') rest).
Proof.
  intros Htop. cbn [roll_back_while]. rewrite Htop.
  change (len (@nil Z) =? 0) with true. cbv iota. rewrite pop_cons.
  unfold del_first_entry. erewrite peek_cons by reflexivity. cbn [attr bind stack board].
  destruct (py_del0 (valid_entries g)) as [ve'|e]; [|reflexivity]. cbn [bind].
  erewrite peek_cons by reflexivity. cbn [attr bind tb_board set_valid_entries stack].
  destruct (copy_board (tb_board g)); reflexivity.
Qed.

Lemma roll_back_while_stop (b : grid) (top : TempBoard) (below : list TempBoard) :
  valid_entries top <> [] -> roll_back_while b top below = Ok (mkBoard b (top :: below)).
Proof.
  intros Hne.
  assert (E : (len (valid_entries top) =? 0) = false).
  { apply Z.eqb_neq. destruct (valid_entries top); [contradiction|].
    unfold len. simpl length. lia. }
  destruct below; cbn [roll_back_while]; now rewrite E.
Qed.

Lemma roll_back_while_unwinds (popped below : list TempBoard) (f : TempBoard)
      (x y : Z) (ve : list Z) :
  Forall (fun g => length (valid_entries g) = 1%nat /\ is_9x9 (tb_board g) = true) popped ->
  is_9x9 (tb_board f) = true -> valid_entries f = x :: y :: ve ->
  forall (b : grid) (top : TempBoard),
  valid_entries top = [] ->
  roll_back_while b top (popped ++ f :: below) =
  Ok (mkBoard (tb_board f) (set_valid_entries f (y :: ve) :: below)).
Proof.
  intros Hpopped Hf9 Hfve.
  induction Hpopped as [|g popped [Hlen Hg9] Hpopped IH]; intros b top Htop;
    cbn [app]; rewrite roll_back_while_step by assumption.
  - rewrite Hfve. cbn [py_del0 bind]. rewrite copy_board_9x9 by assumption. cbn [bind].
    apply roll_back_while_stop. cbn [valid_entries set_valid_entries]. discriminate.
  - destruct (valid_entries g) as [|z [|z' l]] eqn:Hg; try discriminate.
    cbn [py_del0 bind]. rewrite copy_board_9x9 by assumption. cbn [bind].
    apply IH. reflexivity.
Qed.

Lemma roll_back_chain (b : grid) (popped below : list TempBoard) (f : TempBoard)
        (x y : Z) (ve : list Z) :
  Forall (fun g => length (valid_entries g) = 1%nat /\ is_9x9 (tb_board g) = true) popped ->
  is_9x9 (tb_board f) = true -> valid_entries f = x :: y :: ve ->
  roll_back (mkBoard b (popped ++ f :: below)) =
  Ok (mkBoard (tb_board f) (set_valid_entries f (y :: ve) :: below)).
Proof.
  intros Hpopped Hf9 Hfve. unfold roll_back, del_first_entry.
  destruct popped as [|g popped]; cbn [app].
  - erewrite peek_cons by reflexivity. cbn [attr bind stack board].
    rewrite Hfve. cbn [py_del0 bind stack board].
    rewrite roll_back_while_stop by (cbn [valid_entries set_valid_entries]; discriminate).
    cbn [bind]. erewrite peek_cons by reflexivity.
    cbn [attr bind tb_board set_valid_entries]. rewrite copy_board_9x9 by assumption.
    reflexivity.
  - inversion Hpopped as [|? ? [Hlen Hg9] Hpopped']; subst.
    erewrite peek_cons by reflexivity. cbn [attr bind stack board].
    destruct (valid_entries g) as [|z [|z' l]] eqn:Hg; try discriminate.
    cbn [py_del0 bind stack board].
    rewrite (roll_back_while_unwinds popped below f x y ve) by auto.
    cbn [bind]. erewrite peek_cons by reflexivity.
    cbn [attr bind tb_board set_valid_entries]. rewrite copy_board_9x9 by assumption.
    reflexivity.
Qed.

(** X11. Chained backtracking. When the frames on top of the stack are
    each down to their last candidate and the first frame under them has at
    least two, [roll_back] pops the former, drops the first candidate of the
    latter, leaves the frames below untouched and makes the board the
    snapshot of the frame now on top (the snapshots being 9x9 grids). *)
Theorem roll_back_unwinds (b : grid) (popped below : list TempBoard) (f : TempBoard)
        (x y : Z) (ve : list Z) :
  Forall (fun g => length (valid_entries g) = 1%nat /\ is_9x9 (tb_board g) = true) popped ->
  is_9x9 (tb_board f) = true -> valid_entries f = x :: y :: ve ->
  roll_back (mkBoard b (popped ++ f :: below)) =
  Ok (mkBoard (tb_board f) (set_valid_entries f (y :: ve) :: below)).
Proof. exact (roll_back_chain b popped below f x y ve). Qed.

Lemma roll_back_unwinds_witness :
  roll_back (mkBoard grid_solved
               ([mkTempBoard puzzle_guess 0 2 [7]] ++
                mkTempBoard puzzle_easy 0 1 [4; 5; 7] :: [])) =
  Ok (mkBoard puzzle_easy
        [set_valid_entries (mkTempBoard puzzle_easy 0 1 [4; 5; 7]) [5; 7]]).
Proof.
  apply (roll_back_unwinds grid_solved [mkTempBoard puzzle_guess 0 2 [7]] []
           (mkTempBoard puzzle_easy 0 1 [4; 5; 7]) 4 5 [7]).
  - repeat constructor.
  - reflexivity.
  - reflexivity.
Defined.

(** X12. How [roll_back] fails. When every frame of the stack is down to
    its last candidate (an empty stack included) the unwinding empties the
    stack and the call ends with AttributeError; when the frame on top has
    no candidate at all it ends with IndexError. *)
Theorem roll_back_failures (s : Board) :
  (Forall (fun f => length (valid_entries f) = 1%nat /\ is_9x9 (tb_board f) = true)
          (stack s) ->
   roll_back s = Raise AttributeError) /\
  (forall f below, stack s = f :: below -> valid_entries f = [] ->
                   roll_back s = Raise IndexError).
Proof.
  split; [apply roll_back_exhausted|].
  intros f below Hs Hve. unfold roll_back, del_first_entry.
  rewrite (peek_cons s f below Hs). cbn [attr bind]. rewrite Hve. reflexivity.
Qed.

Lemma roll_back_failures_witness :
  roll_back state_second_guess = Raise AttributeError /\
  roll_back state_no_guess = Raise IndexError.
Proof.
  split.
  - apply (proj1 (roll_back_failures state_second_guess)). repeat constructor.
  - apply (proj2 (roll_back_failures state_no_guess)
             (mkTempBoard grid_no_candidate 0 0 []) []); reflexivity.
Defined.

(** ** Guesses *)

Lemma len_cons_eqb {A : Type} (x : A) (l : list A) : (len (x :: l) =? 0) = false.
Proof. apply Z.eqb_neq. unfold len. simpl length. lia. Qed.

Lemma push_if_new_pushes (b : grid) (stk : list TempBoard) (i j : Z) (ve : list Z) :
  is_9x9 b = true -> get_valid_entries b i j = Ok ve ->
  stk = [] \/
  (exists f below, stk = f :: below /\ is_9x9 (tb_board f) = true /\ tb_board f <> b) ->
  push_if_new (mkBoard b stk) i j = Ok (mkBoard b (mkTempBoard b i j ve :: stk)).
Proof.
  intros Hb Hve Hstk. unfold push_if_new. cbn [stack board].
  destruct Hstk as [->|(f & below & -> & Hf & Hne)].
  - change (len (@nil TempBoard) =? 0) with true. cbv iota. cbn [bind].
    rewrite (push_state_to_stack_9x9 b [] i j ve) by assumption. reflexivity.
  - rewrite len_cons_eqb. erewrite peek_cons by reflexivity. cbn [attr bind].
    destruct (is_equal_to_board_decides b (tb_board f) Hb Hf) as (r & Hr & Hiff).
    rewrite Hr. cbn [bind]. destruct r.
    + exfalso. apply Hne. symmetry. now apply Hiff.
    + cbn [negb]. rewrite (push_state_to_stack_9x9 b _ i j ve) by assumption. reflexivity.
Qed.

Lemma push_if_new_keeps (f : TempBoard) (below : list TempBoard) (i j : Z) :
  is_9x9 (tb_board f) = true ->
  push_if_new (mkBoard (tb_board f) (f :: below)) i j = Ok (mkBoard (tb_board f) (f :: below)).
Proof.
  intros Hf. unfold push_if_new. cbn [stack board].
  rewrite len_cons_eqb. erewrite peek_cons by reflexivity. cbn [attr bind].
  rewrite is_equal_to_board_refl by assumption. reflexivity.
Qed.

Lemma make_guess_pushes (b : grid) (stk : list TempBoard) (i j x : Z) (ve : list Z) :
  is_9x9 b = true -> in_range i -> in_range j ->
  cell b i j = 0 -> candidates b i j = x :: ve ->
  stk = [] \/
  (exists f below, stk = f :: below /\ is_9x9 (tb_board f) = true /\ tb_board f <> b) ->
  make_guess (mkBoard b stk) i j =
  Ok (None, mkBoard (upd b i j x) (mkTempBoard b i j (x :: ve) :: stk)).
Proof.
  intros Hb Hi Hj Hc Hcand Hstk. unfold make_guess.
  rewrite (push_if_new_pushes b stk i j (x :: ve)); auto.
  2:{ rewrite get_valid_entries_empty by assumption. now rewrite Hcand. }
  cbn [bind]. erewrite peek_cons by reflexivity. cbn [attr bind valid_entries].
  rewrite len_cons_eqb. change (py_getitem (x :: ve) 0) with (Ok x). cbn [bind board].
  rewrite insert_in_range by assumption. reflexivity.
Qed.

(** X13. A guess on a new board state. On a 9x9 board, when the stack is
    empty or the board differs from the snapshot on top, [make_guess(i, j)]
    for an empty cell with candidates [x :: ve] pushes the frame (board,
    i, j, candidates), writes the smallest candidate [x] into the cell and
    returns None; the candidate stays at the head of the frame's list. *)
Theorem make_guess_new_state (b : grid) (stk : list TempBoard) (i j x : Z) (ve : list Z) :
  is_9x9 b = true -> in_range i -> in_range j ->
  cell b i j = 0 -> candidates b i j = x :: ve ->
  stk = [] \/
  (exists f below, stk = f :: below /\ is_9x9 (tb_board f) = true /\ tb_board f <> b) ->
  make_guess (mkBoard b stk) i j =
  Ok (None, mkBoard (upd b i j x) (mkTempBoard b i j (x :: ve) :: stk)).
Proof. exact (make_guess_pushes b stk i j x ve). Qed.

Lemma make_guess_new_state_witness :
  make_guess (mkBoard puzzle_dead_end []) 0 0 =
  Ok (None, mkBoard (upd puzzle_dead_end 0 0 1) [mkTempBoard puzzle_dead_end 0 0 [1; 2]]).
Proof.
  apply (make_guess_new_state puzzle_dead_end [] 0 0 1 [2]);
    try reflexivity; try (unfold in_range; lia). now left.
Defined.

Lemma make_guess_reuses (f : TempBoard) (below : list TempBoard) (i j x : Z)
        (ve : list Z) :
  is_9x9 (tb_board f) = true -> in_range i -> in_range j ->
  valid_entries f = x :: ve ->
  make_guess (mkBoard (tb_board f) (f :: below)) i j =
  Ok (None, mkBoard (upd (tb_board f) i j x) (f :: below)).
Proof.
  intros Hf Hi Hj Hve. unfold make_guess. rewrite push_if_new_keeps by assumption.
  cbn [bind]. erewrite peek_cons by reflexivity. cbn [attr bind]. rewrite Hve.
  rewrite len_cons_eqb. change (py_getitem (x :: ve) 0) with (Ok x). cbn [bind board].
  rewrite insert_in_range by assumption. reflexivity.
Qed.

(** X14. A guess on the board state that is already on the stack. When
    the board is the (9x9) snapshot of the frame on top, [make_guess(i, j)]
    pushes nothing: it writes the first candidate of that frame into the
    cell [(i, j)] it is given and leaves the stack as it is. *)
Theorem make_guess_same_state (f : TempBoard) (below : list TempBoard) (i j x : Z)
        (ve : list Z) :
  is_9x9 (tb_board f) = true -> in_range i -> in_range j ->
  valid_entries f = x :: ve ->
  make_guess (mkBoard (tb_board f) (f :: below)) i j =
  Ok (None, mkBoard (upd (tb_board f) i j x) (f :: below)).
Proof. exact (make_guess_reuses f below i j x ve). Qed.

Lemma make_guess_same_state_witness :
  make_guess (mkBoard (tb_board (mkTempBoard puzzle_dead_end 0 0 [2]))
                      [mkTempBoard puzzle_dead_end 0 0 [2]]) 0 0 =
  Ok (None, mkBoard (upd (tb_board (mkTempBoard puzzle_dead_end 0 0 [2])) 0 0 2)
                    [mkTempBoard puzzle_dead_end 0 0 [2]]).
Proof.
  apply (make_guess_same_state (mkTempBoard puzzle_dead_end 0 0 [2]) [] 0 0 2 []);
    try reflexivity; unfold in_range; lia.
Defined.

(** X15. Rollback followed by the guess that [solve] makes from the
    rollback spot. Under the conditions of the chained backtracking, the two
    calls leave the stack that [roll_back] left and the snapshot of its top
    frame with that frame's next candidate written into its cell: no frame
    is pushed for the restored state. *)
Theorem roll_back_then_guess (b : grid) (popped below : list TempBoard) (f : TempBoard)
        (x y : Z) (ve : list Z) :
  Forall (fun g => length (valid_entries g) = 1%nat /\ is_9x9 (tb_board g) = true) popped ->
  is_9x9 (tb_board f) = true -> valid_entries f = x :: y :: ve ->
  in_range (i_guess f) -> in_range (j_guess f) ->
  (s1 <- roll_back (mkBoard b (popped ++ f :: below)) ;;
   i <- attr i_guess (peek s1) ;;
   j <- attr j_guess (peek s1) ;;
   make_guess s1 i j) =
  Ok (None, mkBoard (upd (tb_board f) (i_guess f) (j_guess f) y)
                    (set_valid_entries f (y :: ve) :: below)).
Proof.
  intros Hpopped Hf Hve Hi Hj.
  rewrite (roll_back_chain b popped below f x y ve) by assumption. cbn [bind].
  erewrite peek_cons by reflexivity. cbn [attr bind i_guess j_guess set_valid_entries].
  apply (make_guess_reuses (set_valid_entries f (y :: ve)) below _ _ y ve); auto.
Qed.

Lemma roll_back_then_guess_witness :
  (s1 <- roll_back (mkBoard (board state_first_guess)
                            ([] ++ mkTempBoard puzzle_dead_end 0 0 [1; 2] :: [])) ;;
   i <- attr i_guess (peek s1) ;;
   j <- attr j_guess (peek s1) ;;
   make_guess s1 i j) =
  Ok (None, mkBoard (upd (tb_board (mkTempBoard puzzle_dead_end 0 0 [1; 2]))
                         (i_guess (mkTempBoard puzzle_dead_end 0 0 [1; 2]))
                         (j_guess (mkTempBoard puzzle_dead_end 0 0 [1; 2])) 2)
                    (set_valid_entries (mkTempBoard puzzle_dead_end 0 0 [1; 2]) [2] :: [])).
Proof.
  apply (roll_back_then_guess (board state_first_guess) [] []
           (mkTempBoard puzzle_dead_end 0 0 [1; 2]) 1 2 []);
    try reflexivity; try (unfold in_range; cbn; lia). constructor.
Defined.

(** ** The first empty cell *)

Lemma find_open_row_first (b : grid) (i : Z) (js : list Z) :
  is_9x9 b = true -> in_range i -> Forall in_range js ->
  exists r,
    find_open_row b i js = Ok r /\
    match r with
    | Some (i', j') =>
        i' = i /\ cell b i j' = 0 /\
        exists pre post, js = pre ++ j' :: post /\ forall j, In j pre -> cell b i j <> 0
    | None => forall j, In j js -> cell b i j <> 0
    end.
Proof.
  intros Hb Hi Hjs. induction Hjs as [|j js Hj Hjs IH]; cbn [find_open_row].
  - exists None. split; [reflexivity | intros j []].
  - rewrite get_in_range by assumption. cbn [bind].
    destruct (cell b i j =? 0) eqn:E.
    + apply Z.eqb_eq in E. exists (Some (i, j)). split; [reflexivity|].
      split; [reflexivity|]. split; [exact E|].
      exists [], js. split; [reflexivity | intros j0 []].
    + apply Z.eqb_neq in E. destruct IH as (r & Hr & Hspec). exists r.
      split; [exact Hr|]. destruct r as [[i' j']|].
      * destruct Hspec as (-> & Hc & pre & post & -> & Hpre).
        split; [reflexivity|]. split; [exact Hc|].
        exists (j :: pre), post. split; [reflexivity|].
        intros j0 [<-|Hin]; auto.
      * intros j' [<-|Hin]; auto.
Qed.

Lemma find_open_rows_first (b : grid) (ks : list Z) :
  is_9x9 b = true -> Forall in_range ks ->
  exists r,
    find_open_rows b ks = Ok r /\
    match r with
    | Some (i, j) =>
        in_range j /\ cell b i j = 0 /\
        (exists pre post, range 0 9 = pre ++ j :: post /\
                          forall j', In j' pre -> cell b i j' <> 0) /\
        exists pre post, ks = pre ++ i :: post /\
                         forall i' j', In i' pre -> in_range j' -> cell b i' j' <> 0
    | None => forall i j, In i ks -> in_range j -> cell b i j <> 0
    end.
Proof.
  intros Hb Hks. induction Hks as [|i ks Hi Hks IH]; cbn [find_open_rows].
  - exists None. split; [reflexivity | intros i j []].
  - destruct (find_open_row_first b i (range 0 9) Hb Hi range_0_9_in_range)
      as (r & Hr & Hspec).
    rewrite Hr. cbn [bind]. destruct r as [[i' j']|].
    + destruct Hspec as (-> & Hc & pre & post & Hsplit & Hpre).
      exists (Some (i, j')). split; [reflexivity|].
      split; [apply In_range_0_9; rewrite Hsplit; apply in_elt|].
      split; [exact Hc|]. split; [exists pre, post; auto|].
      exists [], ks. split; [reflexivity | intros i0 j0 []].
    + destruct IH as (r & Hr' & Hspec'). exists r. split; [exact Hr'|].
      destruct r as [[i' j']|].
      * destruct Hspec' as (Hj & Hc & Hrow & pre & post & -> & Hpre).
        split; [exact Hj|]. split; [exact Hc|]. split; [exact Hrow|].
        exists (i :: pre), post. split; [reflexivity|].
        intros i0 j0 [<-|Hin] Hj0; [apply Hspec; now apply In_range_0_9 | now apply Hpre].
      * intros i0 j0 [<-|Hin] Hj0; [apply Hspec; now apply In_range_0_9 | now apply Hspec'].
Qed.

(** In [range(0, 9)] the indices before [j] are those smaller than [j]. *)
Lemma range_0_9_before (pre post : list Z) (j j' : Z) :
  range 0 9 = pre ++ j :: post -> in_range j' -> j' < j -> In j' pre.
Proof.
  intros Hsplit Hj' Hlt.
  assert (Hin : In j' (pre ++ j :: post)) by (rewrite <- Hsplit; now apply In_range_0_9).
  apply in_app_or in Hin as [Hin|[Heq|Hin]]; [exact Hin | lia|].
  exfalso.
  assert (Hs : StronglySorted Z.lt (pre ++ j :: post)).
  { rewrite <- Hsplit. change (range 0 9) with [0; 1; 2; 3; 4; 5; 6; 7; 8].
    repeat (constructor; [|repeat (constructor; [lia|]); constructor]). constructor. }
  clear Hsplit. induction pre as [|p pre IH]; cbn [app] in Hs.
  - inversion Hs as [|? ? _ Hall]; subst. rewrite Forall_forall in Hall.
    specialize (Hall j' Hin). lia.
  - inversion Hs; subst. auto.
Qed.

(** X16. On a 9x9 grid [find_open_spot] returns the first empty cell in
    row-major order: the cell returned is empty and every cell before it is
    filled. It returns (-1, -1) exactly when no cell is empty. *)
Theorem find_open_spot_first (b : grid) :
  is_9x9 b = true ->
  exists i j,
    find_open_spot b = Ok (i, j) /\
    ((i = -1 /\ j = -1 /\
      forall i' j', in_range i' -> in_range j' -> cell b i' j' <> 0) \/
     (in_range i /\ in_range j /\ cell b i j = 0 /\
      forall i' j', in_range i' -> in_range j' ->
                    i' < i \/ (i' = i /\ j' < j) -> cell b i' j' <> 0)).
Proof.
  intros Hb. unfold find_open_spot.
  destruct (find_open_rows_first b (range 0 9) Hb range_0_9_in_range) as (r & Hr & Hspec).
  rewrite Hr. cbn [bind]. destruct r as [[i j]|].
  - destruct Hspec as (Hj & Hc & (pre & post & Hsplit & Hpre)
                       & pre' & post' & Hsplit' & Hpre').
    exists i, j. split; [reflexivity|]. right.
    split; [apply In_range_0_9; rewrite Hsplit'; apply in_elt|].
    split; [exact Hj|]. split; [exact Hc|].
    intros i' j' Hi' Hj' [Hlt|[-> Hlt]].
    + apply Hpre'; [|exact Hj']. now apply (range_0_9_before pre' post' i i').
    + apply Hpre. now apply (range_0_9_before pre post j j').
  - exists (-1), (-1). split; [reflexivity|]. left. split; [reflexivity|].
    split; [reflexivity|]. intros i' j' Hi' Hj'. apply Hspec; [now apply In_range_0_9 | exact Hj'].
Qed.

Lemma find_open_spot_first_witness :
  exists i j,
    find_open_spot puzzle_guess = Ok (i, j) /\
    ((i = -1 /\ j = -1 /\
      forall i' j', in_range i' -> in_range j' -> cell puzzle_guess i' j' <> 0) \/
     (in_range i /\ in_range j /\ cell puzzle_guess i j = 0 /\
      forall i' j', in_range i' -> in_range j' ->
                    i' < i \/ (i' = i /\ j' < j) -> cell puzzle_guess i' j' <> 0)).
Proof. apply (find_open_spot_first puzzle_guess). reflexivity. Defined.

(** ** The run of the solver on a well-formed puzzle *)

Lemma digits_ok_cells_digits (b : grid) :
  is_9x9 b = true -> digits_ok b = true -> cells_digits b.
Proof. intros Hb Hd i j Hi Hj. now apply digits_ok_cell. Qed.

Lemma cells_digits_digits_ok (b : grid) :
  is_9x9 b = true -> cells_digits b -> digits_ok b = true.
Proof.
  intros Hb Hc. unfold digits_ok. apply forallb_forall. intros row Hrow.
  apply forallb_forall. intros x Hx.
  apply (In_nth _ _ []) in Hrow as (n & Hn & <-).
  rewrite (is_9x9_rows b Hb) in Hn.
  assert (Hi : in_range (Z.of_nat n)) by (unfold in_range; lia).
  apply (In_nth _ _ 0) in Hx as (m & Hm & <-).
  pose proof (is_9x9_row_length b (Z.of_nat n) Hb Hi) as Hlen.
  rewrite Nat2Z.id in Hlen. rewrite Hlen in Hm.
  assert (Hj : in_range (Z.of_nat m)) by (unfold in_range; lia).
  specialize (Hc _ _ Hi Hj). unfold cell in Hc. rewrite !Nat2Z.id in Hc.
  apply andb_true_iff. split; [apply Z.leb_le | apply Z.leb_le]; lia.
Qed.

Lemma cells_digits_upd (b : grid) (i j v : Z) :
  is_9x9 b = true -> in_range i -> in_range j -> 0 <= v <= 9 ->
  cells_digits b -> cells_digits (upd b i j v).
Proof.
  intros Hb Hi Hj Hv Hc i' j' Hi' Hj'.
  destruct (Z.eq_dec i' i) as [->|Hni].
  - destruct (Z.eq_dec j' j) as [->|Hnj].
    + now rewrite cell_upd_same.
    + rewrite cell_upd_other; auto. congruence.
  - rewrite cell_upd_other; auto. congruence.
Qed.

Lemma deduce_one_digits (b : grid) (i j : Z) :
  is_9x9 b = true -> in_range i -> in_range j -> cells_digits b ->
  cells_digits (snd (deduce_one b i j)).
Proof.
  intros Hb Hi Hj Hc.
  destruct (deduce_one_cases b i j)
    as [(_ & -> & _)|[(_ & -> & _)|[(_ & -> & _)|(Hd & -> & _)]]]; auto.
  apply cells_digits_upd; auto. lia.
Qed.

Lemma deduce_one_9x9 (b : grid) (i j : Z) :
  is_9x9 b = true -> in_range i -> is_9x9 (snd (deduce_one b i j)) = true.
Proof.
  intros Hb Hi.
  destruct (deduce_one_cases b i j)
    as [(_ & -> & _)|[(_ & -> & _)|[(_ & -> & _)|(Hd & -> & _)]]]; auto.
  now apply upd_is_9x9.
Qed.

Lemma scan_cells_digits (cells : list (Z * Z)) :
  Forall (fun c => in_range (fst c) /\ in_range (snd c)) cells ->
  forall (n : Z) (b : grid) (r : PassResult) (b' : grid),
  is_9x9 b = true -> cells_digits b ->
  scan_cells cells n b = Ok (r, b') -> cells_digits b'.
Proof.
  induction 1 as [|[i j] rest [Hi Hj] Hrest IH]; intros n b r b' Hb Hc; cbn [scan_cells].
  - intros H. now injection H as _ <-.
  - cbn [fst snd] in Hi, Hj.
    rewrite make_deductive_decision_deduce_one by assumption.
    pose proof (deduce_one_digits b i j Hb Hi Hj Hc) as Hc1.
    pose proof (deduce_one_9x9 b i j Hb Hi) as Hb1.
    destruct (deduce_one b i j) as [d b1]. cbn [snd bind] in *.
    destruct (d =? -1); [intros H; now injection H as _ <-|].
    now apply IH.
Qed.

Lemma scan_cells_count_ge (cells : list (Z * Z)) :
  forall (n : Z) (b : grid) (m : Z) (b' : grid),
  scan_cells cells n b = Ok (Placed m, b') -> n <= m.
Proof.
  induction cells as [|[i j] rest IH]; intros n b m b'; cbn [scan_cells].
  - intros H. injection H as <- _. lia.
  - destruct (make_deductive_decision b i j) as [[d b1]|e]; cbn [bind]; [|discriminate].
    destruct (d =? -1); [discriminate|].
    intros H. apply IH in H. destruct (d >? 0); lia.
Qed.

(** A pass that places nothing has seen, in every empty cell, at least two
    candidates; it leaves the grid as it was. *)
Lemma scan_cells_stall (cells : list (Z * Z)) :
  Forall (fun c => in_range (fst c) /\ in_range (snd c)) cells ->
  forall (n : Z) (b b' : grid),
  is_9x9 b = true ->
  scan_cells cells n b = Ok (Placed n, b') ->
  b' = b /\
  forall i j, In (i, j) cells -> cell b i j = 0 -> (2 <= length (candidates b i j))%nat.
Proof.
  induction 1 as [|[i j] rest [Hi Hj] Hrest IH]; intros n b b' Hb; cbn [scan_cells].
  - intros H. injection H as <-. split; [reflexivity | intros i j []].
  - cbn [fst snd] in Hi, Hj.
    rewrite make_deductive_decision_deduce_one by assumption.
    unfold deduce_one. destruct (cell b i j =? 0) eqn:E; cbn [negb bind].
    + apply Z.eqb_eq in E. pose proof (candidates_digits b i j) as Hd.
      destruct (candidates b i j) as [|e [|e' l]] eqn:Hcand; cbn [bind].
      * change (-1 =? -1) with true. discriminate.
      * inversion Hd; subst.
        replace (e =? -1) with false by (symmetry; apply Z.eqb_neq; lia).
        replace (e >? 0) with true by (symmetry; apply Z.gtb_lt; lia).
        intros H. apply scan_cells_count_ge in H. lia.
      * change (0 =? -1) with false. change (0 >? 0) with false. cbv iota.
        intros H. destruct (IH n b b' Hb H) as [-> Hall]. split; [reflexivity|].
        intros i' j' [Heq|Hin] Hc; [|now apply Hall].
        injection Heq as <- <-. rewrite Hcand. simpl. lia.
    + apply Z.eqb_neq in E. change (-2 =? -1) with false. change (-2 >? 0) with false.
      cbv iota. intros H. destruct (IH n b b' Hb H) as [-> Hall]. split; [reflexivity|].
      intros i' j' [Heq|Hin] Hc; [|now apply Hall].
      injection Heq as <- <-. contradiction.
Qed.

(** The three results of a pass on a well-formed grid. *)
Lemma make_deductive_pass_cases (b : grid) :
  is_9x9 b = true -> cells_digits b ->
  exists n b',
    make_deductive_pass b = Ok (n, b') /\
    is_9x9 b' = true /\ keeps_filled b b' /\ cells_digits b' /\
    (n = -1 \/ 0 < n \/
     (n = 0 /\ b' = b /\
      forall i j, in_range i -> in_range j -> cell b i j = 0 ->
                  (2 <= length (candidates b i j))%nat)).
Proof.
  intros Hb Hc.
  destruct (scan_cells_sound row_major row_major_in_range row_major_NoDup 0 b Hb)
    as (r & b' & Hs & Hb' & Hk & _ & Hres).
  exists (pass_code r), b'. split; [rewrite make_deductive_pass_scan, Hs; reflexivity|].
  split; [exact Hb'|]. split; [exact Hk|].
  split; [exact (scan_cells_digits row_major row_major_in_range 0 b r b' Hb Hc Hs)|].
  destruct r as [|m]; cbn [pass_code]; [now left|]. right.
  pose proof (newly_filled_nonneg b b' row_major) as Hnn.
  destruct (Z.eq_dec m 0) as [->|Hm]; [|left; lia]. right.
  destruct (scan_cells_stall row_major row_major_in_range 0 b b' Hb Hs) as [-> Hall].
  split; [reflexivity|]. split; [reflexivity|].
  intros i j Hi Hj. apply Hall. apply (proj2 (In_row_major i j)). auto.
Qed.

(** A stack of frames that all have a candidate is exhausted, or has a
    first frame with two candidates or more. *)
Lemma stack_split (stk : list TempBoard) :
  Forall (fun f => valid_entries f <> []) stk ->
  Forall (fun f => length (valid_entries f) = 1%nat) stk \/
  exists popped f below x y ve,
    stk = popped ++ f :: below /\
    Forall (fun g => length (valid_entries g) = 1%nat) popped /\
    valid_entries f = x :: y :: ve.
Proof.
  induction 1 as [|g stk Hg Hstk IH]; [left; constructor|].
  destruct (valid_entries g) as [|x [|y ve]] eqn:Hve; [contradiction| |].
  - destruct IH as [Hall|(popped & f & below & x' & y' & ve' & -> & Hp & Hf)].
    + left. constructor; [now rewrite Hve | exact Hall].
    + right. exists (g :: popped), f, below, x', y', ve'.
      split; [reflexivity|]. split; [constructor; [now rewrite Hve | exact Hp] | exact Hf].
  - right. exists [], g, stk, x, y, ve. split; [reflexivity|]. split; [constructor | exact Hve].
Qed.

(** ** Solutions of a puzzle and the candidates of its cells *)

Lemma extends_keeps_filled (b g : grid) : extends b g = true <-> keeps_filled b g.
Proof.
  unfold extends, keeps_filled. rewrite forallb_forall. split.
  - intros H i j Hi Hj Hc. specialize (H (i, j) (proj2 (In_row_major i j) (conj Hi Hj))).
    cbn beta iota in H. apply orb_true_iff in H as [H|H]; apply Z.eqb_eq in H; congruence.
  - intros H [i j] Hin. apply In_row_major in Hin as [Hi Hj].
    destruct (Z.eq_dec (cell b i j) 0) as [Hc|Hc].
    + rewrite Hc. reflexivity.
    + rewrite (H i j Hi Hj Hc), Z.eqb_refl. apply orb_true_r.
Qed.

Lemma NoDup_map_inj {A B : Type} (f : A -> B) (l : list A) (x y : A) :
  NoDup (map f l) -> In x l -> In y l -> f x = f y -> x = y.
Proof.
  induction l as [|a l IH]; intros Hnd Hx Hy Heq; [contradiction|].
  cbn [map] in Hnd. inversion Hnd as [|? ? Hnin Hnd']; subst.
  destruct Hx as [->|Hx], Hy as [->|Hy]; auto.
  - exfalso. apply Hnin. rewrite Heq. now apply in_map.
  - exfalso. apply Hnin. rewrite <- Heq. now apply in_map.
Qed.

Lemma block_cells_coords (b : grid) (k : Z) :
  block_cells b k = map (fun p => cell b (fst p) (snd p)) (block_coords k).
Proof. reflexivity. Qed.

Lemma In_block_coords (i j : Z) :
  in_range i -> in_range j -> In (i, j) (block_coords (block_of i j)).
Proof.
  intros Hi Hj. cases9 i Hi; cases9 j Hj; vm_compute; tauto.
Qed.

Lemma block_coords_in_range (k i j : Z) :
  in_range k -> In (i, j) (block_coords k) -> in_range i /\ in_range j.
Proof.
  intros Hk. unfold block_coords. rewrite in_flat_map.
  intros (r & Hr & Hin). apply in_map_iff in Hin as (c & Heq & Hc).
  pose proof (f_equal fst Heq) as Hi. pose proof (f_equal snd Heq) as Hj.
  cbn [fst snd] in Hi, Hj. subst i j.
  change (range 0 3) with [0; 1; 2] in Hr, Hc. simpl in Hr, Hc.
  unfold in_range in *. split; Z.div_mod_to_equations; lia.
Qed.

(** In a solved grid no region repeats a value. *)
Lemma solved_regions_NoDup (g : grid) (k : Z) :
  solved_state g = true -> in_range k ->
  NoDup (row_cells g k) /\ NoDup (column_cells g k) /\ NoDup (block_cells g k).
Proof.
  intros Hs Hk. unfold solved_state in Hs. apply andb_true_iff in Hs as [Hnz Hc].
  rewrite all_nonzero_iff in Hnz. rewrite consistent_iff in Hc.
  destruct (Hc k Hk) as (H1 & H2 & H3).
  rewrite nonzero_all in H1
    by (intros x Hx; apply In_row_cells in Hx as (j & Hj & ->); now apply Hnz).
  rewrite nonzero_all in H2
    by (intros x Hx; apply In_column_cells in Hx as (i & Hi & ->); now apply Hnz).
  rewrite nonzero_all in H3
    by (intros x Hx; apply (In_block_cells g k x Hk) in Hx as (i & j & Hi & Hj & ->);
        now apply Hnz).
  auto.
Qed.

Section Solution.

(** A grid [b] and a solved grid of digits [g] that keeps its filled cells. *)
Variables b g : grid.
Hypothesis g_9x9 : is_9x9 g = true.
Hypothesis g_digits : digits_ok g = true.
Hypothesis g_solved : solved_state g = true.
Hypothesis g_keeps : keeps_filled b g.

Lemma solution_cell_digit (i j : Z) : in_range i -> in_range j -> 1 <= cell g i j <= 9.
Proof.
  intros Hi Hj. pose proof (digits_ok_cell g i j g_9x9 g_digits Hi Hj).
  unfold solved_state in g_solved. apply andb_true_iff in g_solved as [Hnz _].
  pose proof (all_nonzero_cell g i j Hnz Hi Hj). lia.
Qed.

Lemma solution_not_in_row (i j : Z) :
  in_range i -> in_range j -> cell b i j = 0 -> ~ In (cell g i j) (row_cells b i).
Proof.
  intros Hi Hj Hc Hin. apply In_row_cells in Hin as (j' & Hj' & Heq).
  pose proof (solution_cell_digit i j Hi Hj) as Hd.
  assert (Hg : cell g i j' = cell b i j') by (apply g_keeps; auto; lia).
  destruct (solved_regions_NoDup g i g_solved Hi) as (Hrow & _ & _).
  assert (j = j').
  { apply (NoDup_map_inj (fun j => cell g i j) (range 0 9)); auto.
    - now apply In_range_0_9.
    - now apply In_range_0_9.
    - cbn beta. congruence. }
  subst j'. lia.
Qed.

Lemma solution_not_in_column (i j : Z) :
  in_range i -> in_range j -> cell b i j = 0 -> ~ In (cell g i j) (column_cells b j).
Proof.
  intros Hi Hj Hc Hin. apply In_column_cells in Hin as (i' & Hi' & Heq).
  pose proof (solution_cell_digit i j Hi Hj) as Hd.
  assert (Hg : cell g i' j = cell b i' j) by (apply g_keeps; auto; lia).
  destruct (solved_regions_NoDup g j g_solved Hj) as (_ & Hcol & _).
  assert (i = i').
  { apply (NoDup_map_inj (fun i => cell g i j) (range 0 9)); auto.
    - now apply In_range_0_9.
    - now apply In_range_0_9.
    - cbn beta. congruence. }
  subst i'. lia.
Qed.

Lemma solution_not_in_block (i j : Z) :
  in_range i -> in_range j -> cell b i j = 0 ->
  ~ In (cell g i j) (block_cells b (block_of i j)).
Proof.
  intros Hi Hj Hc Hin. rewrite block_cells_coords in Hin.
  apply in_map_iff in Hin as ([i' j'] & Heq & Hin). cbn [fst snd] in Heq.
  pose proof (block_of_in_range i j Hi Hj) as Hk.
  destruct (block_coords_in_range _ _ _ Hk Hin) as [Hi' Hj'].
  pose proof (solution_cell_digit i j Hi Hj) as Hd.
  assert (Hg : cell g i' j' = cell b i' j') by (apply g_keeps; auto; lia).
  destruct (solved_regions_NoDup g (block_of i j) g_solved Hk) as (_ & _ & Hblk).
  rewrite block_cells_coords in Hblk.
  assert (Hsame : (i, j) = (i', j')).
  { apply (NoDup_map_inj (fun p => cell g (fst p) (snd p)) (block_coords (block_of i j)));
      auto using In_block_coords. cbn [fst snd]. congruence. }
  injection Hsame as <- <-. lia.
Qed.

(** The digit of a solution in an empty cell is one of its candidates. *)
Lemma solution_in_candidates (i j : Z) :
  in_range i -> in_range j -> cell b i j = 0 -> In (cell g i j) (candidates b i j).
Proof.
  intros Hi Hj Hc. unfold candidates. apply filter_In. split.
  - pose proof (solution_cell_digit i j Hi Hj) as Hd.
    change (range 1 10) with [1; 2; 3; 4; 5; 6; 7; 8; 9]. simpl. lia.
  - apply negb_true_iff, orb_false_iff. split; [apply orb_false_iff; split|].
    + destruct (py_in _ (row_cells b i)) eqn:E; [|reflexivity].
      apply py_in_In in E. now apply solution_not_in_row in E.
    + destruct (py_in _ (column_cells b j)) eqn:E; [|reflexivity].
      apply py_in_In in E. now apply solution_not_in_column in E.
    + destruct (py_in _ (block_cells b (block_of i j))) eqn:E; [|reflexivity].
      apply py_in_In in E. now apply solution_not_in_block in E.
Qed.

End Solution.

(** Writing a cell of the solution into the grid keeps the solution. *)
Lemma keeps_filled_upd_solution (b g : grid) (i j : Z) :
  is_9x9 b = true -> in_range i -> in_range j ->
  keeps_filled b g -> keeps_filled (upd b i j (cell g i j)) g.
Proof.
  intros Hb Hi Hj Hk i' j' Hi' Hj' Hc.
  destruct (Z.eq_dec i' i) as [->|Hni]; [destruct (Z.eq_dec j' j) as [->|Hnj]|].
  - now rewrite cell_upd_same.
  - rewrite cell_upd_other in * by (auto; congruence). now apply Hk.
  - rewrite cell_upd_other in * by (auto; congruence). now apply Hk.
Qed.

(** X19. The candidates never miss the digit of a solution. On a 9x9
    grid [b], for every solved grid of digits that keeps the filled cells of
    [b], [get_valid_entries(i, j)] returns a list that contains the digit
    that grid has in the cell [(i, j)]. *)
Theorem get_valid_entries_complete (b g : grid) (i j : Z) :
  is_9x9 b = true -> solution b g -> in_range i -> in_range j ->
  exists ve, get_valid_entries b i j = Ok ve /\ In (cell g i j) ve.
Proof.
  intros Hb (Hg9 & Hgd & Hgs & Hge) Hi Hj. apply extends_keeps_filled in Hge.
  destruct (Z.eq_dec (cell b i j) 0) as [Hc|Hc].
  - exists (candidates b i j). split; [now apply get_valid_entries_empty|].
    now apply solution_in_candidates.
  - exists [cell b i j]. split; [now apply get_valid_entries_filled|].
    left. symmetry. now apply Hge.
Qed.

Lemma get_valid_entries_complete_witness :
  exists ve, get_valid_entries puzzle_easy 0 0 = Ok ve /\ In (cell grid_solved 0 0) ve.
Proof.
  apply (get_valid_entries_complete puzzle_easy grid_solved 0 0);
    [reflexivity | repeat split; reflexivity | |]; unfold in_range; lia.
Defined.

Lemma scan_cells_keeps_solution (g : grid) (cells : list (Z * Z)) :
  is_9x9 g = true -> digits_ok g = true -> solved_state g = true ->
  Forall (fun c => in_range (fst c) /\ in_range (snd c)) cells ->
  forall (n : Z) (b : grid) (r : PassResult) (b' : grid),
  is_9x9 b = true -> keeps_filled b g ->
  scan_cells cells n b = Ok (r, b') ->
  r <> Contradiction /\ keeps_filled b' g.
Proof.
  intros Hg9 Hgd Hgs.
  induction 1 as [|[i j] rest [Hi Hj] Hrest IH]; intros n b r b' Hb Hk; cbn [scan_cells].
  - intros H. injection H as <- <-. split; [discriminate | exact Hk].
  - cbn [fst snd] in Hi, Hj.
    rewrite make_deductive_decision_deduce_one by assumption.
    unfold deduce_one. destruct (cell b i j =? 0) eqn:E; cbn [negb bind].
    + apply Z.eqb_eq in E.
      pose proof (solution_in_candidates b g Hg9 Hgd Hgs Hk i j Hi Hj E) as Hin.
      pose proof (candidates_digits b i j) as Hd.
      destruct (candidates b i j) as [|e [|e' l]] eqn:Hcand; cbn [bind].
      * contradiction.
      * destruct Hin as [Heq|[]]. subst e. inversion Hd; subst.
        replace (cell g i j =? -1) with false by (symmetry; apply Z.eqb_neq; lia).
        apply IH; [now apply upd_is_9x9 | now apply keeps_filled_upd_solution].
      * change (0 =? -1) with false. cbv iota. now apply IH.
    + change (-2 =? -1) with false. cbv iota. now apply IH.
Qed.

(** X20. Deduction is sound. On a 9x9 grid [b] that has a solution, the
    deductive pass does not report a contradiction, and every solution of
    [b] is still a solution of the grid the pass leaves: each digit it
    placed is the digit of every solution. *)
Theorem make_deductive_pass_keeps_solutions (b g : grid) :
  is_9x9 b = true -> solution b g ->
  exists n b',
    make_deductive_pass b = Ok (n, b') /\ 0 <= n /\ is_9x9 b' = true /\ solution b' g.
Proof.
  intros Hb (Hg9 & Hgd & Hgs & Hge). apply extends_keeps_filled in Hge.
  destruct (scan_cells_sound row_major row_major_in_range row_major_NoDup 0 b Hb)
    as (r & b' & Hs & Hb' & _ & _ & Hres).
  destruct (scan_cells_keeps_solution g row_major Hg9 Hgd Hgs row_major_in_range
              0 b r b' Hb Hge Hs) as [Hr Hk'].
  destruct r as [|n]; [contradiction|].
  exists n, b'. split; [rewrite make_deductive_pass_scan, Hs; reflexivity|].
  split; [rewrite Hres; pose proof (newly_filled_nonneg b b' row_major); lia|].
  split; [exact Hb'|]. unfold solution. rewrite extends_keeps_filled. auto.
Qed.

Lemma make_deductive_pass_keeps_solutions_witness :
  exists n b',
    make_deductive_pass puzzle_easy = Ok (n, b') /\ 0 <= n /\ is_9x9 b' = true /\
    solution b' grid_solved.
Proof.
  apply (make_deductive_pass_keeps_solutions puzzle_easy grid_solved);
    [reflexivity | repeat split; reflexivity].
Defined.

Lemma frame_sound_intro (b0 snap : grid) (i j : Z) (ve : list Z) :
  is_9x9 snap = true -> keeps_filled b0 snap -> in_range i -> in_range j ->
  cell snap i j = 0 -> cells_digits snap -> ve <> [] ->
  Forall (fun d => 1 <= d <= 9) ve ->
  frame_sound b0 (mkTempBoard snap i j ve).
Proof.
  intros. unfold frame_sound, frame_ok. cbn [tb_board i_guess j_guess valid_entries].
  tauto.
Qed.

Lemma Forall_both {A : Type} (P Q : A -> Prop) (l : list A) :
  Forall P l -> Forall Q l -> Forall (fun x => P x /\ Q x) l.
Proof. induction 1; intros HQ; inversion HQ; subst; constructor; auto. Qed.

Section Run.

(** The puzzle given to the solver. *)
Variable b0 : grid.

Lemma frame_sound_9x9 (stk : list TempBoard) :
  Forall (frame_sound b0) stk -> Forall (fun f => is_9x9 (tb_board f) = true) stk.
Proof. apply Forall_impl. intros f ((H9 & _) & _). exact H9. Qed.

Lemma frame_sound_nonempty (stk : list TempBoard) :
  Forall (frame_sound b0) stk -> Forall (fun f => valid_entries f <> []) stk.
Proof. apply Forall_impl. intros f (_ & _ & Hne & _). exact Hne. Qed.

(** One round of the loop, case by case, and the invariant after it. *)
Lemma solve_body_round_sound (b : grid) (stk : list TempBoard) :
  solver_sound b0 (mkBoard b stk) ->
  round b stk (solve_body (mkBoard b stk)) /\
  forall cs s', solve_body (mkBoard b stk) = Ok (cs, s') -> solver_sound b0 s'.
Proof.
  intros (Hb & Hk & Hd & Hstk & Htop). cbn [board stack] in *. unfold solve_body.
  cbn [board].
  destruct (make_deductive_pass_cases b Hb Hd) as (n & b1 & Hp & Hb1 & Hk1 & Hd1 & Hcase).
  rewrite Hp. cbn [bind]. change (set_board (mkBoard b stk) b1) with (mkBoard b1 stk).
  assert (Htop1 : top_filled b1 stk).
  { destruct stk as [|f below]; [exact I|]. cbn [top_filled] in *.
    inversion Hstk as [|? ? ((_ & _ & Hfi & Hfj & _) & _) _]; subst.
    now rewrite (Hk1 _ _ Hfi Hfj Htop). }
  assert (Hinv1 : solver_sound b0 (mkBoard b1 stk)).
  { unfold solver_sound. cbn [board stack].
    split; [exact Hb1|]. split; [eapply keeps_filled_trans; eassumption|]. auto. }
  destruct Hcase as [->|[Hpos|(-> & -> & Hstall)]].
  - (* contradiction *)
    change (-1 >? 0) with false. change (-1 =? -1) with true. cbv iota.
    pose proof (frame_sound_9x9 stk Hstk) as H9.
    destruct (stack_split stk (frame_sound_nonempty stk Hstk))
      as [Hall|(popped & f & below & x & y & ve & -> & Hpop & Hf)].
    + rewrite (roll_back_exhausted (mkBoard b1 stk)) by (now apply Forall_both).
      cbn [bind]. split; [now apply (RoundExhausted b stk b1) | discriminate].
    + apply Forall_app in Hstk as [_ Hstk]. inversion Hstk as [|? ? Hfs Hbelow]; subst.
      apply Forall_app in H9 as [H9p H9f]. inversion H9f as [|? ? Hf9 _]; subst.
      destruct Hfs as ((_ & Hfk & Hfi & Hfj & Hfc) & Hfd & _ & Hfve).
      rewrite Hf in Hfve. inversion Hfve as [|? ? _ Hfve']; subst.
      assert (Hy : 1 <= y <= 9) by (now inversion Hfve').
      rewrite (roll_back_chain b1 popped below f x y ve) by (auto using Forall_both).
      cbn [bind]. erewrite peek_cons by reflexivity. cbn [attr bind].
      change (i_guess (set_valid_entries f (y :: ve))) with (i_guess f).
      change (j_guess (set_valid_entries f (y :: ve))) with (j_guess f).
      pose proof (make_guess_reuses (set_valid_entries f (y :: ve)) below
                    (i_guess f) (j_guess f) y ve Hf9 Hfi Hfj eq_refl) as Hg.
      change (tb_board (set_valid_entries f (y :: ve))) with (tb_board f) in Hg.
      rewrite Hg. cbn [bind]. split.
      * now apply (RoundBacktrack b _ b1 popped below f x y ve).
      * intros cs s' H. injection H as _ <-. unfold solver_sound. cbn [board stack].
        split; [now apply upd_is_9x9|]. split; [now apply keeps_filled_upd|].
        split; [apply cells_digits_upd; auto; lia|]. split.
        -- constructor; [|exact Hbelow].
           apply (frame_sound_intro b0 (tb_board f) (i_guess f) (j_guess f) (y :: ve)); auto.
           discriminate.
        -- cbn [top_filled]. change (i_guess (set_valid_entries f (y :: ve))) with (i_guess f).
           change (j_guess (set_valid_entries f (y :: ve))) with (j_guess f).
           rewrite cell_upd_same by assumption. lia.
  - (* progress *)
    replace (n >? 0) with true by (symmetry; apply Z.gtb_lt; lia). split.
    + now apply (RoundDeduce b stk n b1).
    + intros cs s' H. now injection H as _ <-.
  - (* stall *)
    change (0 >? 0) with false. change (0 =? -1) with false. cbv iota. cbn [board].
    destruct (find_open_spot_spec b Hb) as (i & j & Hf & Hopen).
    rewrite Hf. cbn [bind].
    destruct Hopen as [(-> & -> & Hfull)|(Hi & Hj & Hc)].
    + change ((-1 =? -1) || (-1 =? -1)) with true. split.
      * now apply RoundFull.
      * intros cs s' H. now injection H as _ <-.
    + replace ((i =? -1) || (j =? -1)) with false
        by (symmetry; apply orb_false_iff; split; apply Z.eqb_neq;
            unfold in_range in *; lia).
      pose proof (Hstall i j Hi Hj Hc) as Hlen.
      pose proof (candidates_digits b i j) as Hdig.
      destruct (candidates b i j) as [|x [|x' ve]] eqn:Hcand; try (simpl in Hlen; lia).
      assert (Hx : 1 <= x <= 9) by (now inversion Hdig).
      rewrite (make_guess_pushes b stk i j x (x' :: ve)); auto.
      2:{ destruct stk as [|f below]; [now left|]. right. exists f, below.
          inversion Hstk as [|? ? ((Hf9 & _ & Hfi & Hfj & Hfc) & _) _]; subst.
          split; [reflexivity|]. split; [exact Hf9|].
          intros Heq. cbn [top_filled] in Htop. rewrite <- Heq in Htop. contradiction. }
      cbn [bind]. split.
      * apply RoundGuess; auto. discriminate.
      * intros cs s' H. injection H as _ <-. unfold solver_sound. cbn [board stack].
        split; [now apply upd_is_9x9|]. split; [now apply keeps_filled_upd|].
        split; [apply cells_digits_upd; auto; lia|]. split.
        -- constructor; [|exact Hstk]. apply frame_sound_intro; auto. discriminate.
        -- cbn [top_filled i_guess j_guess]. rewrite cell_upd_same by assumption. lia.
Qed.

Lemma solve_body_sound (s : Board) :
  solver_sound b0 s ->
  match solve_body s with
  | Ok (_, s') => solver_sound b0 s'
  | Raise e => e = AttributeError
  end.
Proof.
  intros Hinv. destruct s as [b stk].
  destruct (solve_body_round_sound b stk Hinv) as [Hround Hnext].
  destruct (solve_body (mkBoard b stk)) as [[cs s']|e]; [now apply (Hnext cs)|].
  inversion Hround. reflexivity.
Qed.

Lemma solve_loop_sound (fuel : nat) :
  forall (num_steps : Z) (calls : list call) (s : Board) (o : outcome),
  solver_sound b0 s ->
  solve_loop fuel num_steps calls s = Some o ->
  match o with
  | Returned _ _ s' => solver_sound b0 s'
  | Crashed n e => e = AttributeError /\ num_steps < n
  end.
Proof.
  induction fuel as [|fuel IH]; intros n calls s o Hinv; rewrite solve_loop_unfold;
    destruct (n <? 10000);
    try (intros H; injection H as <-; exact Hinv);
    rewrite is_solved_solved_state by (apply Hinv);
    destruct (solved_state (board s));
    try (intros H; injection H as <-; exact Hinv); try discriminate.
  pose proof (solve_body_sound s Hinv) as Hbody.
  destruct (solve_body s) as [[cs s1]|e].
  - intros H. specialize (IH _ _ _ _ Hbody H).
    destruct o as [? ? ?|m e]; [exact IH|]. destruct IH. split; [assumption | lia].
  - intros H. injection H as <-. split; [exact Hbody | lia].
Qed.

End Run.

Lemma solver_sound_new_board (input : grid) :
  is_9x9 input = true -> digits_ok input = true -> solver_sound input (new_board input).
Proof.
  intros Hb Hd. unfold solver_sound, new_board. cbn [board stack].
  split; [exact Hb|]. split; [apply keeps_filled_refl|].
  split; [now apply digits_ok_cells_digits|]. split; [constructor | exact I].
Qed.

(** X17. On a well-formed puzzle (9x9, digits 0 to 9) a run of [solve]
    ends in one of two ways. It returns, and the final board is a 9x9 grid
    of digits that keeps every given of the puzzle, solved or not. Or it is
    left, inside a round, by the AttributeError of a rollback on an
    exhausted stack: no IndexError and no ValueError can escape. *)
Theorem solve_outcomes (input : grid) :
  is_9x9 input = true -> digits_ok input = true ->
  exists o,
    solve (new_board input) = Some o /\
    match o with
    | Returned n _ s' =>
        0 <= n <= 10000 /\
        is_9x9 (board s') = true /\ digits_ok (board s') = true /\
        forall i j, in_range i -> in_range j ->
                    cell input i j <> 0 -> cell (board s') i j = cell input i j
    | Crashed n e => e = AttributeError /\ 1 <= n <= 10000
    end.
Proof.
  intros Hb Hd.
  destruct (solve_loop_terminates cap 0 [] (new_board input)) as (o & Ho & Hlo & Hhi & _);
    [lia | reflexivity|].
  exists o. split; [exact Ho|].
  pose proof (solve_loop_sound input cap 0 [] (new_board input) o
                (solver_sound_new_board input Hb Hd) Ho) as Hs.
  destruct o as [n calls s'|n e]; cbn [outcome_steps] in *.
  - destruct Hs as (H9 & Hk & Hdig & _). split; [lia|]. split; [exact H9|].
    split; [now apply cells_digits_digits_ok | exact Hk].
  - destruct Hs as [-> Hn]. split; [reflexivity | lia].
Qed.

Lemma solve_outcomes_witness :
  exists o,
    solve (new_board puzzle_dead_end) = Some o /\
    match o with
    | Returned n _ s' =>
        0 <= n <= 10000 /\
        is_9x9 (board s') = true /\ digits_ok (board s') = true /\
        forall i j, in_range i -> in_range j ->
                    cell puzzle_dead_end i j <> 0 ->
                    cell (board s') i j = cell puzzle_dead_end i j
    | Crashed n e => e = AttributeError /\ 1 <= n <= 10000
    end.
Proof. apply (solve_outcomes puzzle_dead_end); reflexivity. Defined.

(** X18. A puzzle reported solved is solved. On a well-formed puzzle,
    when [solve] returns and [is_solved] then holds of the board, every row,
    column and block of the final board is a permutation of the digits 1 to
    9 and every given of the puzzle is still in its cell. *)
Theorem solve_solution_valid (input : grid) (n : Z) (calls : list call) (s' : Board) :
  is_9x9 input = true -> digits_ok input = true ->
  solve (new_board input) = Some (Returned n calls s') ->
  is_solved (board s') = Ok true ->
  (forall k, in_range k ->
     Permutation (row_cells (board s') k) (range 1 10) /\
     Permutation (column_cells (board s') k) (range 1 10) /\
     Permutation (block_cells (board s') k) (range 1 10)) /\
  (forall i j, in_range i -> in_range j ->
     cell input i j <> 0 -> cell (board s') i j = cell input i j).
Proof.
  intros Hb Hd Hrun Hsolved.
  pose proof (solve_loop_sound input cap 0 [] (new_board input) _
                (solver_sound_new_board input Hb Hd) Hrun) as (H9 & Hk & Hdig & _).
  split; [|exact Hk].
  rewrite is_solved_solved_state in Hsolved by assumption. injection Hsolved as Hsolved.
  apply solved_state_iff; auto using cells_digits_digits_ok.
Qed.

Lemma solve_solution_valid_witness :
  (forall k, in_range k ->
     Permutation (row_cells (board guess_final) k) (range 1 10) /\
     Permutation (column_cells (board guess_final) k) (range 1 10) /\
     Permutation (block_cells (board guess_final) k) (range 1 10)) /\
  (forall i j, in_range i -> in_range j ->
     cell puzzle_guess i j <> 0 -> cell (board guess_final) i j = cell puzzle_guess i j).
Proof.
  apply (solve_solution_valid puzzle_guess 13 guess_calls guess_final);
    vm_compute; reflexivity.
Defined.

(** X21. The rounds of [solve]. On an object reached from a well-formed
    puzzle, one round of the loop does exactly one of five things: the pass
    placed digits and nothing else happens; the pass placed nothing on a
    full board and nothing else happens; the pass placed nothing, and the
    first candidate of the first empty cell is written after a frame with
    all its candidates (at least two) was pushed; the pass met a
    contradiction and every frame is down to its last candidate, and the
    round ends with AttributeError; or the pass met a contradiction, the
    frames down to their last candidate are popped, and the next candidate
    of the frame then on top is written into the snapshot of that frame. *)
Theorem solve_body_round (b0 b : grid) (stk : list TempBoard) :
  solver_sound b0 (mkBoard b stk) ->
  round b stk (solve_body (mkBoard b stk)).
Proof. intros Hinv. now apply (solve_body_round_sound b0). Qed.

Lemma solve_body_round_witness :
  round puzzle_dead_end [] (solve_body (mkBoard puzzle_dead_end [])).
Proof.
  apply (solve_body_round puzzle_dead_end puzzle_dead_end []).
  apply (solver_sound_new_board puzzle_dead_end); reflexivity.
Defined.

(** ** Completeness of the search *)

Lemma make_deductive_pass_solution (b g : grid) (n : Z) (b1 : grid) :
  is_9x9 b = true ->
  is_9x9 g = true -> digits_ok g = true -> solved_state g = true ->
  keeps_filled b g ->
  make_deductive_pass b = Ok (n, b1) -> n <> -1 /\ keeps_filled b1 g.
Proof.
  intros Hb Hg9 Hgd Hgs Hk Hp. rewrite make_deductive_pass_scan in Hp.
  destruct (scan_cells row_major 0 b) as [[r b']|e] eqn:Hs; cbn [bind] in Hp; [|discriminate].
  injection Hp as <- <-.
  destruct (scan_cells_keeps_solution g row_major Hg9 Hgd Hgs row_major_in_range
              0 b r b' Hb Hk Hs) as [Hr Hk'].
  split; [|exact Hk']. destruct r as [|m]; [contradiction|]. cbn [pass_code].
  apply scan_cells_count_ge in Hs. lia.
Qed.

Section Completeness.

(** A solved grid of digits [g]. *)
Variable g : grid.
Hypothesis g_9x9 : is_9x9 g = true.
Hypothesis g_digits : digits_ok g = true.
Hypothesis g_solved : solved_state g = true.

Lemma exhausted_not_pending (stk : list TempBoard) :
  Forall (fun f => length (valid_entries f) = 1%nat) stk ->
  ~ Exists (fun f => exists c, In c (tl (valid_entries f)) /\
                               keeps_filled (upd (tb_board f) (i_guess f) (j_guess f) c) g)
           stk.
Proof.
  intros Hall Hex. apply Exists_exists in Hex as (f & Hf & c & Hc & _).
  rewrite Forall_forall in Hall. specialize (Hall f Hf).
  destruct (valid_entries f) as [|x [|y l]]; try discriminate. contradiction.
Qed.

(** A round keeps [g] within reach, and does not end with an exception
    while [g] is within reach. *)
Lemma round_pending (b : grid) (stk : list TempBoard) (res : result (list call * Board)) :
  is_9x9 b = true ->
  pending g b stk -> round b stk res ->
  exists cs b' stk', res = Ok (cs, mkBoard b' stk') /\ pending g b' stk'.
Proof.
  intros Hb Hpend Hround. destruct Hround
    as [n b1 Hp Hn | Hp Hfull | i j x ve Hp Hspot Hi Hj Hc Hcand Hve
        | b1 Hp Hall | b1 popped below f x y ve Hp -> Hpop Hf].
  - exists [CallPass], b1, stk. split; [reflexivity|].
    destruct Hpend as [Hk|Hex]; [left | now right].
    now apply (make_deductive_pass_solution b g n b1).
  - exists [CallPass], b, stk. auto.
  - eexists _, _, _. split; [reflexivity|].
    destruct Hpend as [Hk|Hex]; [|right; now apply Exists_cons_tl].
    pose proof (solution_in_candidates b g g_9x9 g_digits g_solved Hk i j Hi Hj Hc) as Hin.
    rewrite Hcand in Hin. destruct Hin as [Hx|Hin].
    + left. rewrite Hx. now apply keeps_filled_upd_solution.
    + right. apply Exists_cons_hd. exists (cell g i j).
      cbn [valid_entries tb_board i_guess j_guess tl].
      split; [exact Hin | now apply keeps_filled_upd_solution].
  - exfalso. destruct Hpend as [Hk|Hex].
    + now destruct (make_deductive_pass_solution b g (-1) b1 Hb g_9x9 g_digits g_solved Hk Hp).
    + now apply (exhausted_not_pending stk).
  - eexists _, _, _. split; [reflexivity|].
    destruct Hpend as [Hk|Hex].
    + exfalso.
      now destruct (make_deductive_pass_solution b g (-1) b1 Hb g_9x9 g_digits g_solved Hk Hp).
    + apply Exists_app in Hex as [Hex|Hex];
        [exfalso; now apply (exhausted_not_pending popped)|].
      apply Exists_cons in Hex as [(c & Hc & Hkc)|Hex].
      * rewrite Hf in Hc. cbn [tl] in Hc. destruct Hc as [<-|Hc].
        -- now left.
        -- right. apply Exists_cons_hd. exists c. split; [exact Hc | exact Hkc].
      * right. now apply Exists_cons_tl.
Qed.

Variable b0 : grid.

Lemma solve_loop_complete (fuel : nat) :
  forall (num_steps : Z) (calls : list call) (s : Board) (o : outcome),
  solver_sound b0 s -> pending g (board s) (stack s) ->
  solve_loop fuel num_steps calls s = Some o ->
  exists n calls' s', o = Returned n calls' s' /\ pending g (board s') (stack s').
Proof.
  induction fuel as [|fuel IH]; intros n calls s o Hinv Hpend; rewrite solve_loop_unfold;
    destruct (n <? 10000);
    try (intros H; injection H as <-; eauto);
    rewrite is_solved_solved_state by (apply Hinv);
    destruct (solved_state (board s));
    try (intros H; injection H as <-; eauto); try discriminate.
  destruct s as [b stk]. cbn [board stack] in *.
  destruct (solve_body_round_sound b0 b stk Hinv) as [Hround Hnext].
  destruct (round_pending b stk _ (proj1 Hinv) Hpend Hround) as (cs & b' & stk' & Hres & Hpend').
  rewrite Hres in *. intros H. apply (IH _ _ _ _ (Hnext _ _ eq_refl) Hpend' H).
Qed.

End Completeness.

(** X22. The search is complete. On a well-formed puzzle that has a
    solution, [solve] is never left by an exception: it returns, and a
    return before the cap of 10,000 rounds leaves a board that [is_solved]
    accepts. *)
Theorem solve_returns_on_solvable (input g : grid) :
  is_9x9 input = true -> digits_ok input = true -> solution input g ->
  exists n calls s',
    solve (new_board input) = Some (Returned n calls s') /\
    (n < 10000 -> is_solved (board s') = Ok true).
Proof.
  intros Hb Hd (Hg9 & Hgd & Hgs & Hge). apply extends_keeps_filled in Hge.
  destruct (solve_loop_terminates cap 0 [] (new_board input)) as (o & Ho & _ & _ & Hres);
    [lia | reflexivity|].
  destruct (solve_loop_complete g Hg9 Hgd Hgs input cap 0 [] (new_board input) o
              (solver_sound_new_board input Hb Hd) (or_introl Hge) Ho)
    as (n & calls & s' & -> & _).
  exists n, calls, s'. split; [exact Ho|]. intros Hn. destruct Hres as [Hres|Hres]; [lia | exact Hres].
Qed.

Lemma solve_returns_on_solvable_witness :
  exists n calls s',
    solve (new_board puzzle_guess) = Some (Returned n calls s') /\
    (n < 10000 -> is_solved (board s') = Ok true).
Proof.
  apply (solve_returns_on_solvable puzzle_guess (board guess_final));
    [reflexivity | reflexivity | repeat split; vm_compute; reflexivity].
Defined.

(** X23. An exception means that there is no solution. On a well-formed
    puzzle, when [solve] is left by an exception (the AttributeError of the
    exhausted stack), no solved grid of digits keeps the givens of the
    puzzle. *)
Theorem solve_crash_unsolvable (input : grid) (n : Z) (e : exn) :
  is_9x9 input = true -> digits_ok input = true ->
  solve (new_board input) = Some (Crashed n e) ->
  forall g, ~ solution input g.
Proof.
  intros Hb Hd Hrun g (Hg9 & Hgd & Hgs & Hge). apply extends_keeps_filled in Hge.
  destruct (solve_loop_complete g Hg9 Hgd Hgs input cap 0 [] (new_board input) _
              (solver_sound_new_board input Hb Hd) (or_introl Hge) Hrun)
    as (m & calls & s' & Habs & _).
  discriminate.
Qed.

Lemma solve_crash_unsolvable_witness :
  solve (new_board puzzle_dead_end) = Some (Crashed 3 AttributeError) /\
  ~ solution puzzle_dead_end grid_solved.
Proof.
  split; [vm_compute; reflexivity|].
  apply (solve_crash_unsolvable puzzle_dead_end 3 AttributeError);
    vm_compute; reflexivity.
Defined.

(** ** One erased cell *)

Lemma NoDup_singleton {A : Type} (l : list A) (v : A) :
  NoDup l -> In v l -> (forall x, In x l -> x = v) -> l = [v].
Proof.
  intros Hnd Hin Hall. destruct l as [|a [|a' l]]; [contradiction| |].
  - now rewrite (Hall a (or_introl eq_refl)).
  - exfalso. inversion Hnd as [|? ? Hnin _]; subst. apply Hnin. left.
    rewrite (Hall a), (Hall a'); simpl; auto.
Qed.

Lemma newly_filled_same (b : grid) (cells : list (Z * Z)) : newly_filled b b cells = 0.
Proof.
  unfold newly_filled. replace (filter _ cells) with (@nil (Z * Z)); [reflexivity|].
  symmetry. induction cells as [|[i j] rest IH]; [reflexivity|]. cbn [filter].
  destruct (cell b i j =? 0); cbn [andb negb]; exact IH.
Qed.

Section Erased.

(** A solved grid of digits [g] and one of its cells. *)
Variable g : grid.
Variables i j : Z.
Hypothesis g_9x9 : is_9x9 g = true.
Hypothesis g_digits : digits_ok g = true.
Hypothesis g_solved : solved_state g = true.
Hypothesis i_in_range : in_range i.
Hypothesis j_in_range : in_range j.

Lemma erased_9x9 : is_9x9 (upd g i j 0) = true.
Proof. now apply upd_is_9x9. Qed.

Lemma erased_cell : cell (upd g i j 0) i j = 0.
Proof. now apply cell_upd_same. Qed.

Lemma erased_other (i' j' : Z) :
  in_range i' -> in_range j' -> (i', j') <> (i, j) ->
  cell (upd g i j 0) i' j' = cell g i' j' /\ cell g i' j' <> 0.
Proof.
  intros Hi' Hj' Hne. split; [now apply cell_upd_other|].
  unfold solved_state in g_solved. apply andb_true_iff in g_solved as [Hnz _].
  now apply all_nonzero_cell.
Qed.

Lemma erased_keeps : keeps_filled (upd g i j 0) g.
Proof.
  intros i' j' Hi' Hj' Hc.
  destruct (cell_eq_dec (i', j') (i, j)) as [Heq|Hne].
  - injection Heq as -> ->. rewrite erased_cell in Hc. contradiction.
  - symmetry. now apply erased_other.
Qed.

(** The erased cell has one candidate: the digit that was erased. *)
Lemma erased_candidates : candidates (upd g i j 0) i j = [cell g i j].
Proof.
  apply NoDup_singleton; [apply candidates_NoDup | |].
  - apply solution_in_candidates; auto using erased_keeps, erased_cell.
  - intros x Hx. unfold candidates in Hx. apply filter_In in Hx as [Hx Hnot].
    destruct (Z.eq_dec x (cell g i j)) as [|Hne]; [assumption|]. exfalso.
    apply negb_true_iff, orb_false_iff in Hnot as [Hnot _].
    apply orb_false_iff in Hnot as [Hrow _].
    assert (Hin : In x (row_cells (upd g i j 0) i)); [|apply py_in_In in Hin; congruence].
    destruct (proj1 (solved_state_iff g g_9x9 g_digits) g_solved i i_in_range) as (Hperm & _).
    apply (Permutation_in _ (Permutation_sym Hperm)) in Hx.
    apply In_row_cells in Hx as (j' & Hj' & ->).
    apply In_row_cells. exists j'. split; [exact Hj'|].
    symmetry. apply cell_upd_other; auto. congruence.
Qed.

Lemma erased_pass :
  exists n, make_deductive_pass (upd g i j 0) = Ok (n, g) /\ 0 < n.
Proof.
  pose proof erased_9x9 as Hb.
  destruct (make_deductive_pass_sound (upd g i j 0) Hb) as (r & b1 & Hp & Hb1 & Hk1 & Hres).
  assert (Hd : cells_digits (upd g i j 0))
    by (apply cells_digits_upd; auto using digits_ok_cells_digits; lia).
  destruct (make_deductive_pass_cases (upd g i j 0) Hb Hd)
    as (n & b1' & Hp' & _ & _ & _ & Hcase).
  rewrite Hp in Hp'. injection Hp' as <- <-.
  destruct (make_deductive_pass_solution _ g _ _ Hb g_9x9 g_digits g_solved erased_keeps Hp)
    as [Hn Hkg].
  assert (Hpos : 0 < pass_code r).
  { destruct Hcase as [Hc|[Hc|(_ & _ & Hstall)]]; [contradiction | assumption|].
    specialize (Hstall i j i_in_range j_in_range erased_cell).
    rewrite erased_candidates in Hstall. simpl in Hstall. lia. }
  destruct r as [|n]; cbn [pass_code] in *; [lia|].
  exists n. split; [|exact Hpos]. rewrite Hp. f_equal. f_equal.
  assert (Hfilled : cell b1 i j <> 0).
  { intros H0. assert (Heq : b1 = upd g i j 0).
    { apply grid_ext; auto. intros i' j' Hi' Hj'.
      destruct (cell_eq_dec (i', j') (i, j)) as [Hij|Hne].
      - injection Hij as -> ->. now rewrite erased_cell.
      - destruct (erased_other i' j' Hi' Hj' Hne) as [Hsame Hnz].
        apply Hk1; auto. congruence. }
    rewrite Heq, newly_filled_same in Hres. lia. }
  apply grid_ext; auto. intros i' j' Hi' Hj'.
  destruct (cell_eq_dec (i', j') (i, j)) as [Hij|Hne].
  - injection Hij as -> ->. symmetry. now apply Hkg.
  - destruct (erased_other i' j' Hi' Hj' Hne) as [Hsame Hnz].
    rewrite (Hk1 i' j' Hi' Hj') by congruence. exact Hsame.
Qed.

End Erased.

Lemma cap_succ : cap = S (Nat.pred cap).
Proof. reflexivity. Qed.

(** X24. One erased cell is restored by deduction alone. When one cell of
    a solved 9x9 grid of digits is set to 0, [solve] returns the solved grid
    after exactly one round: a single deductive pass, no guess, no rollback
    and an empty stack. *)
Theorem solve_one_erased_cell (g : grid) (i j : Z) :
  is_9x9 g = true -> digits_ok g = true -> solved_state g = true ->
  in_range i -> in_range j ->
  solve (new_board (upd g i j 0)) = Some (Returned 1 [CallPass] (mkBoard g [])).
Proof.
  intros Hg9 Hgd Hgs Hi Hj.
  destruct (erased_pass g i j Hg9 Hgd Hgs Hi Hj) as (n & Hp & Hn).
  assert (Hns : solved_state (upd g i j 0) = false).
  { unfold solved_state. replace (all_nonzero (upd g i j 0)) with false; [reflexivity|].
    symmetry. destruct (all_nonzero (upd g i j 0)) eqn:E; [|reflexivity].
    exfalso. apply (all_nonzero_cell _ i j E Hi Hj). now apply cell_upd_same. }
  unfold solve. change (new_board (upd g i j 0)) with (mkBoard (upd g i j 0) []).
  rewrite cap_succ, solve_loop_unfold. change (0 <? 10000) with true. cbv iota.
  cbn [board].
  rewrite is_solved_solved_state by (now apply upd_is_9x9). rewrite Hns.
  unfold solve_body. cbn [board]. rewrite Hp. cbn [bind].
  replace (n >? 0) with true by (symmetry; apply Z.gtb_lt; lia).
  rewrite solve_loop_unfold. change (0 + 1 <? 10000) with true. cbv iota.
  cbn [set_board board stack].
  rewrite is_solved_solved_state by assumption. rewrite Hgs. reflexivity.
Qed.

Lemma solve_one_erased_cell_witness :
  solve (new_board (upd grid_solved 4 4 0)) =
  Some (Returned 1 [CallPass] (mkBoard grid_solved [])).
Proof.
  apply (solve_one_erased_cell grid_solved 4 4); try reflexivity; unfold in_range; lia.
Defined.

(** ** Reading and printing a board *)

Lemma comprehension_app {A B : Type} (f : A -> result B) (l1 l2 : list A) :
  comprehension f (l1 ++ l2) =
  (x <- comprehension f l1 ;; y <- comprehension f l2 ;; Ok (x ++ y)).
Proof.
  induction l1 as [|a l1 IH]; cbn [app comprehension bind].
  - destruct (comprehension f l2); reflexivity.
  - destruct (f a) as [v|e]; cbn [bind]; [|reflexivity]. rewrite IH.
    destruct (comprehension f l1) as [x|e]; cbn [bind]; [|reflexivity].
    destruct (comprehension f l2); reflexivity.
Qed.

Lemma py_int_digit (c : ascii) (v : Z) :
  py_int c = Ok v -> is_digit c = true /\ 0 <= v <= 9.
Proof.
  unfold py_int. destruct (is_digit c) eqn:E; [|discriminate].
  intros H. injection H as <-. split; [reflexivity|].
  unfold is_digit in E. apply andb_true_iff in E as [H1 H2].
  apply Z.leb_le in H1, H2. lia.
Qed.

Lemma py_int_row (l : pystr) :
  match comprehension py_int l with
  | Ok row =>
      length row = length l /\ forallb is_digit l = true /\
      forallb (fun v => (0 <=? v) && (v <=? 9)) row = true
  | Raise e => e = ValueError /\ forallb is_digit l = false
  end.
Proof.
  induction l as [|c l IH]; cbn [comprehension forallb length].
  - auto.
  - destruct (py_int c) as [v|e] eqn:Hc; cbn [bind].
    + apply py_int_digit in Hc as [Hd Hv]. rewrite Hd. cbn [andb].
      destruct (comprehension py_int l) as [row|e]; cbn [bind].
      * destruct IH as (Hlen & Hdig & Hrow). cbn [length forallb].
        rewrite Hlen, Hrow.
        replace ((0 <=? v) && (v <=? 9)) with true
          by (symmetry; apply andb_true_iff; split; apply Z.leb_le; lia).
        auto.
      * exact IH.
    + unfold py_int in Hc. destruct (is_digit c); [discriminate|].
      injection Hc as <-. auto.
Qed.

Lemma init_loop_spec (input_lines : list pystr) :
  forall board,
  match init_loop input_lines board with
  | Ok b =>
      exists rows,
        b = board ++ rows /\
        map (@length Z) rows = map (@length ascii) input_lines /\
        forallb (forallb is_digit) input_lines = true /\
        digits_ok rows = true
  | Raise e => e = ValueError /\ forallb (forallb is_digit) input_lines = false
  end.
Proof.
  induction input_lines as [|l rest IH]; intros board; cbn [init_loop].
  - exists []. rewrite app_nil_r. auto.
  - pose proof (py_int_row l) as Hrow.
    destruct (comprehension py_int l) as [row|e]; cbn [bind forallb].
    + destruct Hrow as (Hlen & Hdig & Hd). rewrite Hdig. cbn [andb].
      specialize (IH (board ++ [row])).
      destruct (init_loop rest (board ++ [row])) as [b|e]; [|exact IH].
      destruct IH as (rows & -> & Hlens & Hdigs & Hds).
      exists (row :: rows). rewrite <- app_assoc. cbn [app map].
      split; [reflexivity|]. split; [now rewrite Hlen, Hlens|].
      split; [exact Hdigs|]. unfold digits_ok in *. cbn [forallb]. now rewrite Hd, Hds.
    + destruct Hrow as [-> Hdig]. rewrite Hdig. auto.
Qed.

Lemma forallb_length_map {A : Type} (l : list (list A)) :
  forallb (fun row => (length row =? 9)%nat) l =
  forallb (fun n => (n =? 9)%nat) (map (@length A) l).
Proof. induction l as [|x l IH]; cbn [forallb map]; [reflexivity | now rewrite IH]. Qed.

(** X25. [Board.__init__]. It fails, with ValueError, exactly when some
    character of some line is not a decimal digit. Otherwise the object has
    an empty stack and a board with one row per line and one cell per
    character, every cell a digit between 0 and 9; the board is a 9x9 grid
    exactly when the input is nine lines of nine characters. *)
Theorem Board_init_spec (input_lines : list pystr) :
  match Board_init input_lines with
  | Ok s =>
      forallb (forallb is_digit) input_lines = true /\
      stack s = [] /\
      map (@length Z) (board s) = map (@length ascii) input_lines /\
      digits_ok (board s) = true /\
      is_9x9 (board s) =
      (length input_lines =? 9)%nat && forallb (fun l => (length l =? 9)%nat) input_lines
  | Raise e => e = ValueError /\ forallb (forallb is_digit) input_lines = false
  end.
Proof.
  unfold Board_init. pose proof (init_loop_spec input_lines []) as H.
  destruct (init_loop input_lines []) as [b|e]; cbn [bind]; [|exact H].
  destruct H as (rows & -> & Hlens & Hdigs & Hd). cbn [app board stack].
  split; [exact Hdigs|]. split; [reflexivity|]. split; [exact Hlens|].
  split; [exact Hd|]. unfold is_9x9.
  rewrite !forallb_length_map, Hlens. f_equal.
  rewrite <- (length_map (@length Z) rows), Hlens, length_map. reflexivity.
Qed.

Lemma py_str_digit (d : Z) : 0 <= d <= 9 -> py_str d = [digit_char d].
Proof.
  intros Hd.
  assert (D : d = 0 \/ d = 1 \/ d = 2 \/ d = 3 \/ d = 4 \/ d = 5 \/ d = 6 \/ d = 7 \/
              d = 8 \/ d = 9) by lia.
  destruct D as [->|[->|[->|[->|[->|[->|[->|[->|[->| ->]]]]]]]]]; reflexivity.
Qed.

Lemma py_int_digit_char (d : Z) : 0 <= d <= 9 -> py_int (digit_char d) = Ok d.
Proof.
  intros Hd.
  assert (D : d = 0 \/ d = 1 \/ d = 2 \/ d = 3 \/ d = 4 \/ d = 5 \/ d = 6 \/ d = 7 \/
              d = 8 \/ d = 9) by lia.
  destruct D as [->|[->|[->|[->|[->|[->|[->|[->|[->| ->]]]]]]]]]; reflexivity.
Qed.

Lemma row_round_trip (row : list Z) :
  forallb (fun v => (0 <=? v) && (v <=? 9)) row = true ->
  comprehension py_int (map digit_char row) = Ok row /\
  flat_map (fun e => py_str e ++ [space]) row =
  flat_map (fun c => [c; space]) (map digit_char row).
Proof.
  induction row as [|d row IH]; cbn [forallb map comprehension flat_map]; [auto|].
  intros H. apply andb_true_iff in H as [Hd Hrow].
  apply andb_true_iff in Hd as [H1 H2]. apply Z.leb_le in H1, H2.
  destruct (IH Hrow) as [IH1 IH2].
  rewrite py_int_digit_char, IH1, py_str_digit, IH2 by lia. auto.
Qed.

Lemma init_loop_round_trip (rows : grid) :
  digits_ok rows = true ->
  forall board, init_loop (map (map digit_char) rows) board = Ok (board ++ rows).
Proof.
  unfold digits_ok. induction rows as [|row rows IH]; cbn [forallb map init_loop]; intros H board.
  - now rewrite app_nil_r.
  - apply andb_true_iff in H as [Hrow Hrows].
    destruct (row_round_trip row Hrow) as [-> _]. cbn [bind].
    rewrite IH by assumption. now rewrite <- app_assoc.
Qed.

Lemma to_string_loop_spec (b : grid) (ks : list Z) :
  is_9x9 b = true -> digits_ok b = true -> Forall in_range ks ->
  forall board_str,
  to_string_loop b ks board_str =
  Ok (board_str ++
      flat_map (fun i => printed_line (map digit_char (nth (Z.to_nat i) b []))) ks).
Proof.
  intros Hb Hd Hks. induction Hks as [|i ks Hi Hks IH]; intros board_str;
    cbn [to_string_loop flat_map].
  - now rewrite app_nil_r.
  - rewrite get_row_in_range by assumption. cbn [bind].
    rewrite IH. f_equal. unfold printed_line.
    assert (Hrow : forallb (fun v => (0 <=? v) && (v <=? 9)) (nth (Z.to_nat i) b []) = true).
    { unfold digits_ok in Hd. rewrite forallb_forall in Hd. apply Hd, nth_In.
      rewrite (is_9x9_rows b Hb). unfold in_range in Hi. lia. }
    destruct (row_round_trip _ Hrow) as [_ ->]. now rewrite <- !app_assoc.
Qed.

(** X26. Printing and reading back. For a 9x9 board of digits
    [to_string] succeeds. Its text is nine lines, each the nine digits of a
    row, every digit followed by a space; without the spaces these nine
    lines are an input from which [__init__] builds the same board. *)
Theorem to_string_round_trip (b : grid) :
  is_9x9 b = true -> digits_ok b = true ->
  exists lines,
    length lines = 9%nat /\
    Forall (fun l => length l = 9%nat) lines /\
    to_string b = Ok (flat_map printed_line lines) /\
    Board_init lines = Ok (new_board b).
Proof.
  intros Hb Hd. exists (map (map digit_char) b).
  split; [rewrite length_map; now apply is_9x9_rows|]. split; [|split].
  - apply Forall_forall. intros l Hl. apply in_map_iff in Hl as (row & <- & Hrow).
    rewrite length_map. unfold is_9x9 in Hb. apply andb_true_iff in Hb as [_ Hb].
    rewrite forallb_forall in Hb. now apply Nat.eqb_eq, Hb.
  - unfold to_string. rewrite to_string_loop_spec by (auto using range_0_9_in_range).
    cbn [app]. f_equal.
    assert (E : map (map digit_char) b =
                map (fun i => map digit_char (nth (Z.to_nat i) b [])) (range 0 9)).
    { rewrite (list9_as_map b []) at 1 by (now apply is_9x9_rows). now rewrite map_map. }
    rewrite E, !flat_map_concat_map, map_map. reflexivity.
  - unfold Board_init. rewrite init_loop_round_trip by assumption. reflexivity.
Qed.

Lemma to_string_round_trip_witness :
  exists lines,
    length lines = 9%nat /\
    Forall (fun l => length l = 9%nat) lines /\
    to_string grid_solved = Ok (flat_map printed_line lines) /\
    Board_init lines = Ok (new_board grid_solved).
Proof. apply (to_string_round_trip grid_solved); reflexivity. Defined.

(** ** The puzzle file *)

Lemma len_app {A : Type} (l1 l2 : list A) : len (l1 ++ l2) = len l1 + len l2.
Proof. unfold len. rewrite length_app. lia. Qed.

Lemma py_getitem_group (pre : list pystr) (x : pystr) (body rest : list pystr) (j : Z) :
  1 <= j <= len body ->
  py_getitem (pre ++ (x :: body) ++ rest) (len pre + j) = Ok (nth (Z.to_nat (j - 1)) body []).
Proof.
  intros Hj. pose proof (len_nonneg pre) as Hpre.
  rewrite (py_getitem_in_bounds (pre ++ (x :: body) ++ rest) (len pre + j) []).
  - f_equal. rewrite app_nth2 by (unfold len; lia).
    replace (Z.to_nat (len pre + j) - length pre)%nat with (S (Z.to_nat (j - 1)))
      by (unfold len; lia).
    cbn [app nth]. apply app_nth1. unfold len in Hj. lia.
  - rewrite !len_app. pose proof (len_nonneg rest).
    assert (len (x :: body) = 1 + len body) by (unfold len; cbn [length]; lia). lia.
Qed.

Lemma group_lines (pre : list pystr) (x : pystr) (body rest : list pystr) :
  length body = 9%nat ->
  comprehension (fun j => py_getitem (pre ++ (x :: body) ++ rest) (len pre + j)) (range 1 10)
  = Ok body.
Proof.
  intros Hbody.
  rewrite (comprehension_total _ (fun j => nth (Z.to_nat (j - 1)) body [])).
  - f_equal. do 9 (destruct body as [|? body]; [discriminate|]).
    destruct body; [reflexivity | discriminate].
  - intros j Hj. apply py_getitem_group.
    assert (1 <= j <= 9) by (vm_compute in Hj; intuition lia).
    unfold len. lia.
Qed.

Lemma parse_loop_groups (groups : list (pystr * list pystr)) :
  Forall (fun g => length (snd g) = 9%nat) groups ->
  forall pre acc,
  parse_loop (pre ++ flat_map (fun g => fst g :: snd g) groups)
             (range_step_from (len pre) 10 (length groups)) acc =
  (bs <- comprehension (fun g => Board_init (snd g)) groups ;; Ok (acc ++ bs)).
Proof.
  induction 1 as [|[x body] groups Hbody Hgroups IH]; intros pre acc;
    cbn [flat_map length range_step_from parse_loop comprehension bind fst snd].
  - now rewrite app_nil_r.
  - cbn [snd] in Hbody. rewrite group_lines by assumption. cbn [bind].
    destruct (Board_init body) as [bd|e]; cbn [bind]; [|reflexivity].
    replace (pre ++ (x :: body) ++ flat_map (fun g => fst g :: snd g) groups)
      with ((pre ++ x :: body) ++ flat_map (fun g => fst g :: snd g) groups)
      by (now rewrite <- app_assoc).
    replace (len pre + 10) with (len (pre ++ x :: body))
      by (rewrite len_app; unfold len; cbn [length]; lia).
    rewrite IH.
    destruct (comprehension (fun g => Board_init (snd g)) groups); cbn [bind]; [|reflexivity].
    now rewrite <- app_assoc.
Qed.

Lemma flat_map_groups_length (groups : list (pystr * list pystr)) :
  Forall (fun g => length (snd g) = 9%nat) groups ->
  len (flat_map (fun g => fst g :: snd g) groups) = 10 * len groups.
Proof.
  induction 1 as [|[x body] groups Hbody Hgroups IH]; [reflexivity|].
  cbn [flat_map]. rewrite len_app, IH. cbn [snd fst] in *.
  unfold len. cbn [length]. lia.
Qed.

(** X27. Reading a puzzle file. When the lines of the file are groups of
    ten, the script builds one board from each group, in order, out of the
    group's last nine lines: the first line of every group is skipped,
    whatever it holds. The first group with a character that is not a digit
    stops the script with ValueError. *)
Theorem parse_boards_groups (groups : list (pystr * list pystr)) :
  Forall (fun g => length (snd g) = 9%nat) groups ->
  parse_boards (flat_map (fun g => fst g :: snd g) groups) =
  comprehension (fun g => Board_init (snd g)) groups.
Proof.
  intros Hgroups. unfold parse_boards, range_step.
  rewrite flat_map_groups_length by assumption.
  replace (Z.to_nat ((10 * len groups - 0 + 10 - 1) / 10)) with (length groups).
  - pose proof (parse_loop_groups groups Hgroups [] []) as H. cbn [app] in H.
    change (len (@nil pystr)) with 0 in H. rewrite H.
    destruct (comprehension (fun g => Board_init (snd g)) groups); reflexivity.
  - unfold len. replace (10 * Z.of_nat (length groups) - 0 + 10 - 1)
      with (9 + Z.of_nat (length groups) * 10) by lia.
    rewrite Z.div_add by lia. change (9 / 10) with 0. lia.
Qed.

Lemma parse_boards_groups_witness :
  parse_boards (flat_map (fun g => fst g :: snd g)
                  [(["G"%char], map (map digit_char) grid_solved)]) =
  comprehension (fun g => Board_init (snd g))
    [(["G"%char], map (map digit_char) grid_solved)].
Proof. apply parse_boards_groups. repeat constructor. Defined.

Lemma comprehension_ok_inv {A B : Type} (f : A -> result B) (l : list A) (ys : list B) :
  comprehension f l = Ok ys -> forall x, In x l -> exists y, f x = Ok y.
Proof.
  revert ys. induction l as [|a l IH]; intros ys H x Hin; [destruct Hin|].
  cbn [comprehension] in H. destruct (f a) as [y|] eqn:Ha; [|discriminate].
  cbn [bind] in H. destruct (comprehension f l) as [ys'|] eqn:Hl; [|discriminate].
  destruct Hin as [<-|Hin]; [eauto | exact (IH ys' eq_refl x Hin)].
Qed.

Lemma parse_loop_ok (lines : list pystr) (ks : list Z) :
  forall acc boards,
  parse_loop lines ks acc = Ok boards ->
  (forall i, In i ks -> 0 <= i -> i + 9 < len lines) /\
  length boards = (length acc + length ks)%nat.
Proof.
  induction ks as [|k ks IH]; intros acc boards H; cbn [parse_loop] in H.
  - injection H as <-. split; [intros i []|]. cbn [length]. lia.
  - destruct (comprehension (fun j => py_getitem lines (k + j)) (range 1 10)) as [ls|] eqn:Hc;
      [|discriminate].
    cbn [bind] in H. destruct (Board_init ls) as [bd|]; [|discriminate]. cbn [bind] in H.
    apply IH in H as [Hks Hlen]. split.
    + intros i [<-|Hin] Hi; [|now apply Hks].
      destruct (comprehension_ok_inv _ _ _ Hc 9) as [y Hy]; [vm_compute; tauto|].
      destruct (Z_lt_dec (k + 9) (len lines)) as [Hlt|Hge]; [exact Hlt|].
      rewrite py_getitem_out_of_bounds in Hy by lia. discriminate.
    + rewrite Hlen, length_app. cbn [length]. lia.
Qed.

Lemma range_step_from_last (a step : Z) (n : nat) :
  In (a + step * Z.of_nat n) (range_step_from a step (S n)).
Proof.
  revert a. induction n as [|n IH]; intros a.
  - left. lia.
  - right. replace (a + step * Z.of_nat (S n)) with ((a + step) + step * Z.of_nat n) by lia.
    apply IH.
Qed.

(** X28. The script reads a file only in whole groups of ten lines: when
    the parsing loop finishes, the number of lines is ten times the number
    of boards built. A file with any other number of lines (a missing or an
    extra line at the end) stops the script with an exception. *)
Theorem parse_boards_whole_groups (lines : list pystr) (boards : list Board) :
  parse_boards lines = Ok boards -> len lines = 10 * len boards.
Proof.
  unfold parse_boards, range_step. intros H.
  apply parse_loop_ok in H as [Hks Hlen]. cbn [length] in Hlen.
  pose proof (len_nonneg lines) as Hl.
  replace (len lines - 0 + 10 - 1) with (len lines + 9) in * by lia.
  assert (Hq : 0 <= (len lines + 9) / 10) by (apply Z.div_pos; lia).
  assert (Hlenb : len boards = (len lines + 9) / 10).
  { unfold len at 1. rewrite Hlen. clear Hks Hlen.
    induction (Z.to_nat ((len lines + 9) / 10)) eqn:E in Hq |- *.
    - cbn. lia.
    - rewrite <- E. clear IHn.
      assert (forall a s m, length (range_step_from a s m) = m) as Hrl.
      { intros a s m. revert a. induction m; intros; cbn; [reflexivity | now rewrite IHm]. }
      rewrite Hrl. lia. }
  rewrite Hlenb.
  destruct (Z.to_nat ((len lines + 9) / 10)) as [|n] eqn:E.
  - assert ((len lines + 9) / 10 = 0) as E0 by lia. rewrite E0.
    apply Z.div_small_iff in E0; lia.
  - specialize (Hks (0 + 10 * Z.of_nat n) (range_step_from_last 0 10 n)).
    assert (Hn : Z.of_nat n = (len lines + 9) / 10 - 1) by lia.
    rewrite Hn in Hks.
    pose proof (Z.div_mod (len lines + 9) 10 ltac:(lia)) as Hdm.
    pose proof (Z.mod_pos_bound (len lines + 9) 10 ltac:(lia)) as Hm.
    lia.
Qed.

Lemma parse_boards_whole_groups_witness :
  len ([["G"%char]] ++ map (map digit_char) grid_solved) = 10 * len [new_board grid_solved].
Proof.
  apply (parse_boards_whole_groups ([["G"%char]] ++ map (map digit_char) grid_solved)
           [new_board grid_solved]).
  vm_compute. reflexivity.
Defined.
